(** * Report viewer: tag filter, collapse-all button and sidebar navigation

  Shallow embedding of the client-side scripts of the report page
  ([glance_filter.js], [collapsable_toggle_button.js], the sidebar block
  navigation script and the height fix for plot containers) together with
  the part of the DOM they read and write, and of the part of the report
  template that writes the filter bar and the tag markers.  The browser
  event loop is modelled as a step function over explicit events: user
  clicks, zero-delay timer callbacks and ends of collapse animations. *)

From Stdlib Require Import List String Ascii Bool Arith Lia.
Import ListNotations.
Open Scope string_scope.
Open Scope list_scope.
Open Scope nat_scope.

(* ================================================================== *)
(** ** Tag filter ([glance_filter.js]) *)
(* ================================================================== *)

Module Filter.

(** A toggle button of [#reportTagFilter]: its [data-type] attribute and
    whether it carries the class [active]. *)
Record button := mkButton {
  data_type : string;
  active : bool
}.

(** An element carrying tag marker classes, with its inline [display]
    style: [display_none = true] stands for [style="display: none"]. *)
Record block := mkBlock {
  classes : list string;
  display_none : bool
}.

(** The page state the script reads and writes: the DOM part, the two
    closure variables, and the number of queued [setTimeout(updateContent, 0)]
    callbacks. *)
Record page := mkPage {
  buttons : list button;
  blocks : list block;
  numToggleButtons : nat;
  numActiveToggleButtons : nat;
  timers : nat
}.

(** [config.selectors] *)
Definition allToggleButtons (p : page) : list button := buttons p.

Definition activeToggleButtons (p : page) : list button :=
  filter active (buttons p).

Definition inactiveToggleButtons (p : page) : list button :=
  filter (fun b => negb (active b)) (buttons p).

(** [config.selectorPrefix.glanceTag] *)
Definition glanceTag : string := ".glancetag".

(** A word character or a hyphen: [[\w-]] in jQuery's pattern for simple
    selectors. *)
Definition name_char (c : ascii) : bool :=
  let n := nat_of_ascii c in
  ((48 <=? n) && (n <=? 57)) || ((65 <=? n) && (n <=? 90))
  || ((97 <=? n) && (n <=? 122)) || (n =? 95) || (n =? 45).

(** The text is made of word characters and hyphens only. *)
Fixpoint css_name (s : string) : bool :=
  match s with
  | EmptyString => true
  | String c rest => name_char c && css_name rest
  end.

(** jQuery first tries a selector text against its pattern for simple
    selectors; [.name], with [name] a non-empty run of word characters and
    hyphens, is the class selector that goes to
    [getElementsByClassName(name)].  [None]: the text is not of that
    form. *)
Definition quick_class (selector : string) : option string :=
  match selector with
  | String "."%char name =>
      if negb (String.eqb name "") && css_name name then Some name else None
  | _ => None
  end.

(** [$(selector)], element by element.  A class selector selects the
    elements that list the name among their classes (names compared as
    written, as in a document with a doctype).  A text of any other
    form goes to jQuery's general selector engine, which reads it as a CSS
    selector of another shape or throws a syntax error; that engine is not
    part of this model, where such a text selects nothing.  The script
    builds its selectors as ['.glancetag' + data-type]: they are class
    selectors exactly when the data-type is a [css_name], and the
    properties below that say which blocks a pass hides, shows or leaves
    alone are stated for such data-types. *)
Definition matches (selector : string) (b : block) : bool :=
  match quick_class selector with
  | Some name => existsb (String.eqb name) (classes b)
  | None => false
  end.

(** [.button('toggle')] on one button. *)
Definition button_toggle (b : button) : button :=
  mkButton (data_type b) (negb (active b)).

(** [$(selector).hide()] *)
Definition jq_hide (selector : string) (bl : list block) : list block :=
  map (fun b => if matches selector b then mkBlock (classes b) true else b) bl.

(** [$(selector).css('display', '')] *)
Definition jq_css_display_clear (selector : string) (bl : list block)
  : list block :=
  map (fun b => if matches selector b then mkBlock (classes b) false else b) bl.

(** The condition of the [if] that opens [updateContent]. *)
Definition special_case (p : page) : bool :=
  ((List.length (inactiveToggleButtons p) =? 1)
     && (numActiveToggleButtons p =? numToggleButtons p))
  || (List.length (activeToggleButtons p) =? 0).

Definition hide_pass (p : page) : list block :=
  fold_left (fun bl b => jq_hide (glanceTag ++ data_type b)%string bl)
            (inactiveToggleButtons p) (blocks p).

Definition reveal_pass (p : page) (bl : list block) : list block :=
  fold_left (fun bl b => jq_css_display_clear (glanceTag ++ data_type b)%string bl)
            (activeToggleButtons p) bl.

(** One call of [updateContent].  In a special case every toggle button is
    toggled and the function queues itself again; otherwise the active
    count is recorded, then blocks are hidden, then revealed. *)
Definition updateContent (p : page) : page :=
  if special_case p then
    mkPage (map button_toggle (allToggleButtons p)) (blocks p)
           (numToggleButtons p) (numActiveToggleButtons p) (S (timers p))
  else
    mkPage (buttons p) (reveal_pass p (hide_pass p))
           (numToggleButtons p) (List.length (activeToggleButtons p)) (timers p).

(** [addEventHandler], run once when the document is ready. *)
Definition addEventHandler (p : page) : page :=
  updateContent
    (mkPage (buttons p) (blocks p)
            (List.length (allToggleButtons p)) (List.length (activeToggleButtons p))
            (timers p)).

Fixpoint toggle_nth (i : nat) (bs : list button) : list button :=
  match bs, i with
  | [], _ => []
  | b :: bs', 0 => button_toggle b :: bs'
  | b :: bs', S i' => b :: toggle_nth i' bs'
  end.

(** What can happen on the page: a click on the [i]-th toggle button (the
    widget flips it, the handler queues [updateContent]), a click on
    [#btnall], or the event loop running one queued callback. *)
Inductive event :=
| ClickToggle (i : nat)
| ClickEnableAll
| Timeout.

Definition step (e : event) (p : page) : page :=
  match e with
  | ClickToggle i =>
      if i <? List.length (buttons p) then
        mkPage (toggle_nth i (buttons p)) (blocks p)
               (numToggleButtons p) (numActiveToggleButtons p) (S (timers p))
      else p
  | ClickEnableAll =>
      mkPage (map (fun b => if active b then b else button_toggle b) (buttons p))
             (blocks p)
             (numToggleButtons p) (numActiveToggleButtons p) (S (timers p))
  | Timeout =>
      match timers p with
      | 0 => p
      | S k =>
          updateContent
            (mkPage (buttons p) (blocks p)
                    (numToggleButtons p) (numActiveToggleButtons p) k)
      end
  end.

Definition exec (evs : list event) (p : page) : page :=
  fold_left (fun q e => step e q) evs p.

(** Run queued callbacks until none is left; [None] when [fuel] passes
    were not enough. *)
Fixpoint drain (fuel : nat) (p : page) : option page :=
  match timers p with
  | 0 => Some p
  | S _ =>
      match fuel with
      | 0 => None
      | S f => drain f (step Timeout p)
      end
  end.

Definition visible (b : block) : bool := negb (display_none b).

(** The selector the script builds for the button's tag selects the
    block. *)
Definition tagged_by (btn : button) (b : block) : bool :=
  matches (glanceTag ++ data_type btn)%string b.

End Filter.

(* ================================================================== *)
(** ** Collapsible panels: the DOM part, the collapse plugin, the
     collapse-all button ([collapsable_toggle_button.js]) and the sidebar
     block navigation *)
(* ================================================================== *)

Module Collapse.

(** Where a collapsible element stands.  The class [in] is present only in
    [Shown]: the plugin removes it when a hide starts and adds it when a
    show ends. *)
Inductive phase := Shown | Hidden | Showing | Hiding.

Definition has_in (ph : phase) : bool :=
  match ph with Shown => true | _ => false end.

Definition transitioning (ph : phase) : bool :=
  match ph with Showing | Hiding => true | _ => false end.

Inductive direction := Show | Hide.

(** [shown.bs.collapse] ends a show, [hidden.bs.collapse] ends a hide. *)
Inductive bs_event := shown_bs_collapse | hidden_bs_collapse.

(** The closures the scripts pass to [.one(...)], with the jQuery objects
    they capture: elements are positions in [panels], anchors are ids. *)
Inductive handler :=
(* function () { buttonJq.text(buttonData.textExpand).data('mode', 'collapsed'); } *)
| LabelCollapsed
(* function () { buttonJq.text(buttonData.textCollapse).data('mode', 'expanded'); } *)
| LabelExpanded
(* function () { showBlockAndScrollIntoView(); } *)
| ShowBlockThenScroll (blockJq : list nat) (blockAnchorJq : list string)
(* function () { scrollBlockIntoView(); } *)
| ScrollBlock (blockAnchorJq : list string).

Record collapsible := mkCollapsible {
  el_id : string;              (* the id attribute *)
  panel_collapse : bool;       (* carries the class panel-collapse *)
  el_phase : phase;
  once_shown : list handler;   (* pending one('shown.bs.collapse') handlers *)
  once_hidden : list handler   (* pending one('hidden.bs.collapse') handlers *)
}.

Record world := mkWorld {
  panels : list collapsible;
  anchors : list string;       (* ids of the anchor elements of the page *)
  btn_mode : string;           (* data('mode') of #toggleCollapsables *)
  btn_text : string;           (* its label *)
  btn_textExpand : string;     (* data-text-expand *)
  btn_textCollapse : string;   (* data-text-collapse *)
  click_bound : bool;          (* the one('click') handler is bound *)
  timers : nat;                (* queued zero-delay callbacks *)
  scrolled : list string       (* anchors scrolled into view, oldest first *)
}.

(** The DOM and timer calls the scripts make. *)
Inductive call :=
| One (e : nat) (ev : bs_event) (h : handler)
| CollapseCall (e : nat) (d : direction)
| SetText (s : string)
| SetMode (s : string)
| ScrollIntoView (a : string)
| OneClick
| SetTimeout (ms : nat).

Definition completion_event (d : direction) : bs_event :=
  match d with Show => shown_bs_collapse | Hide => hidden_bs_collapse end.

(** *** The collapse plugin

    The scripts drive Bootstrap 3's collapse plugin through
    [.collapse('show')] and [.collapse('hide')].  Both entry points return at
    once while a transition is running or when the element is already in the
    requested state; no class changes and no completion event follows such a
    call.  A call that passes the guard starts the transition, whose end is
    a separate event of the page. *)

Definition with_phase (ph : phase) (c : collapsible) : collapsible :=
  mkCollapsible (el_id c) (panel_collapse c) ph (once_shown c) (once_hidden c).

(** [show]: [if (this.transitioning || this.$element.hasClass('in')) return] *)
Definition collapse_show (c : collapsible) : collapsible :=
  if transitioning (el_phase c) || has_in (el_phase c) then c
  else with_phase Showing c.

(** [hide]: [if (this.transitioning || !this.$element.hasClass('in')) return] *)
Definition collapse_hide (c : collapsible) : collapsible :=
  if transitioning (el_phase c) || negb (has_in (el_phase c)) then c
  else with_phase Hiding c.

Definition collapse_toggle (c : collapsible) : collapsible :=
  if has_in (el_phase c) then collapse_hide c else collapse_show c.

Definition plugin (d : direction) (c : collapsible) : collapsible :=
  match d with Show => collapse_show c | Hide => collapse_hide c end.

Definition add_once (ev : bs_event) (h : handler) (c : collapsible)
  : collapsible :=
  match ev with
  | shown_bs_collapse =>
      mkCollapsible (el_id c) (panel_collapse c) (el_phase c)
                    (once_shown c ++ [h]) (once_hidden c)
  | hidden_bs_collapse =>
      mkCollapsible (el_id c) (panel_collapse c) (el_phase c)
                    (once_shown c) (once_hidden c ++ [h])
  end.

(** The animation of an element ends: the class change is committed and the
    one-shot handlers of the event are taken off the element, to be run. *)
Definition finish (c : collapsible) : collapsible * list handler :=
  match el_phase c with
  | Showing =>
      (mkCollapsible (el_id c) (panel_collapse c) Shown [] (once_hidden c),
       once_shown c)
  | Hiding =>
      (mkCollapsible (el_id c) (panel_collapse c) Hidden (once_shown c) [],
       once_hidden c)
  | _ => (c, [])
  end.

(** *** Interpreting calls on the world *)

Fixpoint update_nth {A : Type} (i : nat) (f : A -> A) (l : list A) : list A :=
  match l, i with
  | [], _ => []
  | x :: l', 0 => f x :: l'
  | x :: l', S i' => x :: update_nth i' f l'
  end.

Definition with_panels (ps : list collapsible) (w : world) : world :=
  mkWorld ps (anchors w) (btn_mode w) (btn_text w) (btn_textExpand w)
          (btn_textCollapse w) (click_bound w) (timers w) (scrolled w).

Definition with_timers (n : nat) (w : world) : world :=
  mkWorld (panels w) (anchors w) (btn_mode w) (btn_text w) (btn_textExpand w)
          (btn_textCollapse w) (click_bound w) n (scrolled w).

Definition with_click_bound (b : bool) (w : world) : world :=
  mkWorld (panels w) (anchors w) (btn_mode w) (btn_text w) (btn_textExpand w)
          (btn_textCollapse w) b (timers w) (scrolled w).

Definition interp (c : call) (w : world) : world :=
  match c with
  | One e ev h => with_panels (update_nth e (add_once ev h) (panels w)) w
  | CollapseCall e d => with_panels (update_nth e (plugin d) (panels w)) w
  | SetText s =>
      mkWorld (panels w) (anchors w) (btn_mode w) s (btn_textExpand w)
              (btn_textCollapse w) (click_bound w) (timers w) (scrolled w)
  | SetMode s =>
      mkWorld (panels w) (anchors w) s (btn_text w) (btn_textExpand w)
              (btn_textCollapse w) (click_bound w) (timers w) (scrolled w)
  | ScrollIntoView a =>
      mkWorld (panels w) (anchors w) (btn_mode w) (btn_text w)
              (btn_textExpand w) (btn_textCollapse w) (click_bound w)
              (timers w) (scrolled w ++ [a])
  | OneClick => with_click_bound true w
  | SetTimeout _ => with_timers (S (timers w)) w
  end.

Definition run (cs : list call) (w : world) : world :=
  fold_left (fun v c => interp c v) cs w.

(** *** Selections *)

(** Positions in [l], from [i] on, of the elements satisfying [f]. *)
Fixpoint positions {A : Type} (f : A -> bool) (i : nat) (l : list A)
  : list nat :=
  match l with
  | [] => []
  | x :: l' => if f x then i :: positions f (S i) l' else positions f (S i) l'
  end.

(** [$('.panel-collapse')] *)
Definition collapsableSelector (w : world) : list nat :=
  positions panel_collapse 0 (panels w).

(** [$('.panel-collapse:not(".in")')] *)
Definition collapsableSelector_not_in (w : world) : list nat :=
  positions (fun c => panel_collapse c && negb (has_in (el_phase c)))
            0 (panels w).

(** [$('#id')]: the first element with that id, if any. *)
Definition jq_id (selector : string) (w : world) : list nat :=
  match selector with
  | String "#"%char id =>
      firstn 1 (positions (fun c => String.eqb (el_id c) id) 0 (panels w))
  | _ => []
  end.

Definition jq_anchor (selector : string) (w : world) : list string :=
  match selector with
  | String "#"%char id => firstn 1 (filter (String.eqb id) (anchors w))
  | _ => []
  end.

(** *** [collapsable_toggle_button.js] *)

Definition collapse (w : world) : list call :=
  let sel := collapsableSelector w in
  map (fun e => One e hidden_bs_collapse LabelCollapsed) sel
  ++ map (fun e => CollapseCall e Hide) sel.

Definition expand (w : world) : list call :=
  let sel := collapsableSelector_not_in w in
  map (fun e => One e shown_bs_collapse LabelExpanded) sel
  ++ map (fun e => CollapseCall e Show) sel.

Definition onClick (w : world) : list call :=
  if String.eqb (btn_mode w) "expanded" then collapse w else expand w.

Definition setClickHandler : list call := [OneClick].

(** The body of the one-shot click handler. *)
Definition click_callback : list call := [SetTimeout 0].

(** The body of the deferred callback: [onClick(); setClickHandler();] *)
Definition deferred_callback (w : world) : list call :=
  onClick w ++ setClickHandler.

(** *** Sidebar block navigation *)

Inductive configKey := section | block | blockAnchor.

Definition selectorPrefix (k : configKey) : string :=
  match k with
  | section => "#collapse-section__"
  | block => "#collapse-block__"
  | blockAnchor => "#link__"
  end.

Definition getSelector (id : string) (k : configKey) : string :=
  (selectorPrefix k ++ id)%string.

(** [elJq.hasClass('in')] *)
Definition isCollapsableShown (elJq : list nat) (w : world) : bool :=
  existsb (fun e => match nth_error (panels w) e with
                    | Some c => has_in (el_phase c)
                    | None => false
                    end) elJq.

(** [blockAnchorJq[0].scrollIntoView()]; with no anchor element the call
    throws and nothing is scrolled. *)
Definition scrollBlockIntoView (blockAnchorJq : list string) : list call :=
  match blockAnchorJq with
  | a :: _ => [ScrollIntoView a]
  | [] => []
  end.

Definition showBlockAndScrollIntoView (blockJq : list nat)
           (blockAnchorJq : list string) : list call :=
  map (fun e => One e shown_bs_collapse (ScrollBlock blockAnchorJq)) blockJq
  ++ map (fun e => CollapseCall e Show) blockJq.

Definition onClick_link (sectionId blockId : string) (w : world)
  : list call :=
  let sectionJq := jq_id (getSelector sectionId section) w in
  let blockJq := jq_id (getSelector blockId block) w in
  let blockAnchorJq := jq_anchor (getSelector blockId blockAnchor) w in
  if isCollapsableShown sectionJq w then
    if isCollapsableShown blockJq w then scrollBlockIntoView blockAnchorJq
    else showBlockAndScrollIntoView blockJq blockAnchorJq
  else
    map (fun e => One e shown_bs_collapse
                      (ShowBlockThenScroll blockJq blockAnchorJq)) sectionJq
    ++ map (fun e => CollapseCall e Show) sectionJq.

(** *** Handlers and the event loop *)

Definition handler_body (h : handler) (w : world) : list call :=
  match h with
  | LabelCollapsed => [SetText (btn_textExpand w); SetMode "collapsed"]
  | LabelExpanded => [SetText (btn_textCollapse w); SetMode "expanded"]
  | ShowBlockThenScroll blockJq blockAnchorJq =>
      showBlockAndScrollIntoView blockJq blockAnchorJq
  | ScrollBlock blockAnchorJq => scrollBlockIntoView blockAnchorJq
  end.

Definition fire (hs : list handler) (w : world) : world :=
  fold_left (fun v h => run (handler_body h v) v) hs w.

(** The sidebar handler is bound to the block links but reads the ids from
    [event.target.dataset], the data attributes of the innermost element
    that was clicked.  That element is the link itself, which carries
    [data-section-id] and [data-block-id], or the status icon the template
    puts inside the link of a block with a warning or an error, which
    carries no data attribute: there both ids are [undefined], and the
    selectors are built from the text "undefined". *)
Definition undefined : string := "undefined".

Inductive event :=
| ClickToggleAll                              (* click on #toggleCollapsables *)
| Timeout                                     (* a queued callback runs *)
| ClickBlockLink (sectionId blockId : string) (* click on a sidebar block link,
                                                 the target being the link itself *)
| ClickLinkIcon                               (* click on the status icon inside
                                                 a sidebar block link *)
| ClickHeading (e : nat)                      (* data-toggle="collapse" link of a panel *)
| AnimationEnd (e : nat).                     (* the transition of an element ends *)

Definition step (ev : event) (w : world) : world :=
  match ev with
  | ClickToggleAll =>
      if click_bound w then run click_callback (with_click_bound false w)
      else w
  | Timeout =>
      match timers w with
      | 0 => w
      | S k => let v := with_timers k w in run (deferred_callback v) v
      end
  | ClickBlockLink sectionId blockId => run (onClick_link sectionId blockId w) w
  | ClickLinkIcon => run (onClick_link undefined undefined w) w
  | ClickHeading e =>
      with_panels (update_nth e collapse_toggle (panels w)) w
  | AnimationEnd e =>
      match nth_error (panels w) e with
      | Some c =>
          let (c', hs) := finish c in
          fire hs (with_panels (update_nth e (fun _ => c') (panels w)) w)
      | None => w
      end
  end.

Definition exec (evs : list event) (w : world) : world :=
  fold_left (fun v ev => step ev v) evs w.

Definition animating (w : world) : bool :=
  existsb (fun c => transitioning (el_phase c)) (panels w).

Definition phase_of (e : nat) (w : world) : option phase :=
  option_map el_phase (nth_error (panels w) e).

(** Let every running animation end, earliest element first; [None] when
    [fuel] ends were not enough. *)
Fixpoint settle (fuel : nat) (w : world) : option world :=
  match positions (fun c => transitioning (el_phase c)) 0 (panels w) with
  | [] => Some w
  | e :: _ =>
      match fuel with
      | 0 => None
      | S f => settle f (step (AnimationEnd e) w)
      end
  end.

End Collapse.

(* ================================================================== *)
(** ** Height fix for plot containers (the first script of the sidebar
       navigation file) *)
(* ================================================================== *)

Module BokehFix.

Definition BOKEH_LOADING_TIMEOUT_SECONDS : nat := 60.

(** [containerSelector]: the container selectors, by plot library version. *)
Definition containerSelector : list (string * list string) :=
  [("0.12.4", [".bk-root .bk-plot-layout";
               ".bk-root .bk-plot-layout .bk-plot-wrapper"])].

(** [Object.keys(containerSelector)] *)
Definition keys : list string := map fst containerSelector.

(** [containerSelector[version]]; [None] stands for [undefined]. *)
Fixpoint lookup (version : string) (table : list (string * list string))
  : option (list string) :=
  match table with
  | [] => None
  | (k, v) :: rest => if String.eqb k version then Some v else lookup version rest
  end.

(** One [.plotResult] element: the heights of the [canvas] and [svg]
    elements inside it, in document order; the heights of the elements its
    version's container selectors match; whether the polling interval and
    the timeout that ends it are still set; and, as a history of the run,
    how often [onCanvasRendered] was called for it. *)
Record plotResult := mkPlot {
  plot_heights : list nat;
  container_heights : list nat;
  intervalId : bool;
  deadline : bool;
  fix_calls : nat
}.

(** [Bokeh]: [None] when the global is falsy, else its [version]. *)
Record page := mkBokehPage {
  Bokeh : option string;
  plotResults : list plotResult
}.

(** [onCanvasRendered]: every matched container gets the plot height; with a
    falsy [Bokeh] the property access throws, with a version that has no
    entry the [join] on [undefined] throws, and nothing is set. *)
Definition onCanvasRendered (bokeh : option string) (p : plotResult)
           (plotHeight : nat) : list nat :=
  match bokeh with
  | Some version =>
      match lookup version containerSelector with
      | Some _ => map (fun _ => plotHeight) (container_heights p)
      | None => container_heights p
      end
  | None => container_heights p
  end.

(** [checkCanvas]: [plotEl.length && plotEl.height()] is truthy when an
    element was found and the first one has a non-zero height. *)
Definition checkCanvas (bokeh : option string) (p : plotResult) : plotResult :=
  match plot_heights p with
  | h :: _ =>
      if h =? 0 then p
      else mkPlot (plot_heights p) (onCanvasRendered bokeh p h)
                  false (deadline p) (S (fix_calls p))
  | [] => p
  end.

(** [checkCanvasRendering]: the interval and the timeout are set. *)
Definition checkCanvasRendering (p : plotResult) : plotResult :=
  mkPlot (plot_heights p) (container_heights p) true true (fix_calls p).

(** [initFix] *)
Definition initFix (pg : page) : page :=
  match Bokeh pg with
  | Some version =>
      if negb (existsb (String.eqb version) keys) then pg
      else mkBokehPage (Bokeh pg) (map checkCanvasRendering (plotResults pg))
  | None => mkBokehPage (Bokeh pg) (map checkCanvasRendering (plotResults pg))
  end.

(** What happens to the plot at position [i]: its interval fires, its
    timeout fires, or the plot library redraws it.  Durations are left out:
    the events may come in any order. *)
Inductive event :=
| Tick (i : nat)
| Deadline (i : nat)
| Redraw (i : nat) (heights : list nat).

Definition on_plot (bokeh : option string) (ev : event) (p : plotResult)
  : plotResult :=
  match ev with
  | Tick _ => if intervalId p then checkCanvas bokeh p else p
  | Deadline _ =>
      if deadline p
      then mkPlot (plot_heights p) (container_heights p) false false
                  (fix_calls p)
      else p
  | Redraw _ heights =>
      mkPlot heights (container_heights p) (intervalId p) (deadline p)
             (fix_calls p)
  end.

Definition target (ev : event) : nat :=
  match ev with Tick i | Deadline i | Redraw i _ => i end.

Definition step (ev : event) (pg : page) : page :=
  mkBokehPage (Bokeh pg)
              (Collapse.update_nth (target ev) (on_plot (Bokeh pg) ev)
                                   (plotResults pg)).

Definition exec (evs : list event) (pg : page) : page :=
  fold_left (fun q ev => step ev q) evs pg.

End BokehFix.

(* ================================================================== *)
(** ** The filter bar and the block markers of [report_page.html] *)
(* ================================================================== *)

Module Template.

(** The tags whose toggle buttons the template writes out one by one, in
    the order of the buttons. *)
Definition fixed_tags : list string := ["No Tag"; "Good"; "Warning"; "Bad"].

(** [tag not in ('Good', 'Warning', 'Bad', 'No Tag')] *)
Definition is_user_tag (tag : string) : bool :=
  negb (existsb (String.eqb tag) ["Good"; "Warning"; "Bad"; "No Tag"]).

(** One [<button ... class="... active" data-toggle="button"
    data-type="{{ tags.tagids[tag] }}">]. *)
Definition toggle_button (tagids : string -> string) (tag : string)
  : Filter.button :=
  Filter.mkButton (tagids tag) true.

(** The toggle buttons of [#reportTagFilter]: the four fixed ones, then one
    for each entry of [tags.tags] that is not a fixed tag.  The "All" button
    has no [data-toggle] attribute and is not among them. *)
Definition tagfilter_buttons (tagids : string -> string) (tags : list string)
  : list Filter.button :=
  map (toggle_button tagids) fixed_tags
  ++ map (toggle_button tagids) (filter is_user_tag tags).

(** [glancetag{{ tags.tagids[tag] }}], the marker the macro [print_tags]
    writes for one tag. *)
Definition marker (tagid : string) : string := ("glancetag" ++ tagid)%string.

(** The macro [print_tags]: the text [ glancetag<id> ] for each tag of the
    list, one after the other.  (The line break and the indentation around
    the loop, white space as well, are left out.) *)
Fixpoint print_tags (tagids : string -> string) (tag_list : list string)
  : string :=
  match tag_list with
  | [] => ""
  | tag :: rest =>
      (" " ++ marker (tagids tag) ++ " " ++ print_tags tagids rest)%string
  end.

(** White space in an attribute value: space, tab, line feed, form feed and
    carriage return. *)
Definition is_space (c : ascii) : bool :=
  existsb (Ascii.eqb c) [" "; "009"; "010"; "012"; "013"]%char.

(** The classes the browser reads from a [class] attribute: the text split
    at white space.  [tok] is the class being read. *)
Fixpoint class_tokens (tok : string) (attr : string) : list string :=
  match attr with
  | EmptyString => if String.eqb tok "" then [] else [tok]
  | String c rest =>
      if is_space c
      then (if String.eqb tok "" then [] else [tok]) ++ class_tokens "" rest
      else class_tokens (tok ++ String c "") rest
  end.

Definition class_list (attr : string) : list string := class_tokens "" attr.

(** An element as rendered, with the given [class] attribute and no inline
    style. *)
Definition element (attr : string) : Filter.block :=
  Filter.mkBlock (class_list attr) false.

(** The outer [<div class="row {{ blockwidth }} {{ print_tags(block.tags) }}">]
    of the macro [display_block]. *)
Definition display_block (tagids : string -> string) (blockwidth : string)
           (block_tags : list string) : Filter.block :=
  element ("row " ++ blockwidth ++ " " ++ print_tags tagids block_tags).

(** What the template reads of a section of the report: [tags.sections[section]]
    and [block.tags] for each of its blocks. *)
Record report_section := mkSection {
  section_tags : list string;
  blocks_tags : list (list string)
}.

(** [blockwidth[ncolumns]] with [ncolumns = 1] *)
Definition blockwidth_1 : string :=
  nth 1 [""; "col-md-12"; "col-md-6"; "col-md-4"] "".

(** The sidebar entries of a section: its [<li>] and one [<li>] per
    block. *)
Definition sidebar_items (tagids : string -> string) (s : report_section)
  : list Filter.block :=
  element (print_tags tagids (section_tags s))
  :: map (fun t => element (print_tags tagids t)) (blocks_tags s).

(** The content of a section: the [<div>] around it, its [<h2>], its
    [panel-group] and one [display_block] per block. *)
Definition content_items (tagids : string -> string) (s : report_section)
  : list Filter.block :=
  [element (print_tags tagids (section_tags s));
   element ("page-header " ++ print_tags tagids (section_tags s));
   element ("panel-group " ++ print_tags tagids (section_tags s))]
  ++ map (display_block tagids blockwidth_1) (blocks_tags s).

(** The page as the template renders it, before any script has run.  With
    [current.blockindex] none it is the overview: the sidebar, the filter
    bar and the sections.  Otherwise it is the page of a single block
    ([display_single_block]), which has no [#reportTagFilter] and no element
    with a tag marker. *)
Definition rendered (blockindex : option nat) (tagids : string -> string)
           (tags : list string) (sections : list report_section)
  : Filter.page :=
  match blockindex with
  | None =>
      Filter.mkPage (tagfilter_buttons tagids tags)
                    (flat_map (sidebar_items tagids) sections
                     ++ flat_map (content_items tagids) sections)
                    0 0 0
  | Some _ => Filter.mkPage [] [] 0 0 0
  end.

End Template.

(* ================================================================== *)
(** ** Notions used to state the properties of the tag filter *)
(* ================================================================== *)

Section FilterNotions.
Import Filter.

(** The effect on one block of hiding (revealing) for a list of buttons. *)
Definition hide_by (btns : list button) (b : block) : block :=
  if existsb (fun btn => tagged_by btn b) btns
  then mkBlock (classes b) true else b.

Definition reveal_by (btns : list button) (b : block) : block :=
  if existsb (fun btn => tagged_by btn b) btns
  then mkBlock (classes b) false else b.

(** A page from the report template: the tag "good" switched off, the
    user tag "customx" on, and a block marked with both that was hidden. *)
Definition good_off_page : page :=
  mkPage [mkButton "good" false; mkButton "customx" true]
         [mkBlock ["row"; "glancetaggood"; "glancetagcustomx"] true;
          mkBlock ["row"; "glancetaggood"] false]
         2 1 0.

(** The looping configuration: two toggle buttons, one of them inactive,
    while the recorded counts say that all buttons were active. *)
Definition two_cycle (p : page) : Prop :=
  List.length (buttons p) = 2
  /\ List.length (inactiveToggleButtons p) = 1
  /\ numActiveToggleButtons p = numToggleButtons p.

(** Two toggle buttons, the first just deselected, both recorded as active
    by the previous pass, and one reconciliation queued. *)
Definition two_button_page : page :=
  mkPage [mkButton "1" false; mkButton "2" true] [] 2 2 1.

(** Two toggle buttons, both active and recorded as such. *)
Definition two_tags_all_active : page :=
  mkPage [mkButton "1" true; mkButton "2" true] [] 2 2 0.

(** No selector the script builds from a toggle button of the page selects
    the block. *)
Definition marked_by_none (p : page) (b : block) : Prop :=
  forall btn, In btn (buttons p) -> tagged_by btn b = false.

(** The classes stay, and so does the inline display of a block that no
    selector of the page selects. *)
Definition kept (p : page) (b b' : block) : Prop :=
  classes b' = classes b
  /\ (marked_by_none p b -> display_none b' = display_none b).

(** The data-type of every toggle button is a name, so that the selectors
    the script builds from them are class selectors. *)
Definition well_tagged (p : page) : Prop :=
  Forall (fun btn => css_name (data_type btn) = true) (buttons p).

(** The block lists, among its classes, the marker class the template
    writes for the button's tag. *)
Definition has_marker (btn : button) (b : block) : bool :=
  existsb (String.eqb (Template.marker (data_type btn))) (classes b).

(** The block has the marker class of no toggle button of the page. *)
Definition untracked (p : page) (b : block) : Prop :=
  forall btn, In btn (buttons p) -> has_marker btn b = false.

(** What the filter may do to a block: never change its classes, and leave
    its inline display alone when the block is untracked. *)
Definition left_alone (p : page) (b b' : block) : Prop :=
  classes b' = classes b
  /\ (untracked p b -> display_none b' = display_none b).

(** One of three tags is active; the only block is a [display_block] whose
    block has no tag at all. *)
Definition untagged_block_page : page :=
  mkPage [mkButton "1" true; mkButton "2" false; mkButton "3" false]
         [mkBlock ["row"; "col-md-12"] false]
         3 1 0.

End FilterNotions.

(* ================================================================== *)
(** ** Notions used to state the properties of the collapse scripts *)
(* ================================================================== *)

Section CollapseNotions.
Import Collapse.

(** Which part of the world a call writes. *)
Definition sets_button (c : call) : bool :=
  match c with SetText _ | SetMode _ => true | _ => false end.

Definition sets_click (c : call) : bool :=
  match c with OneClick | SetTimeout _ => true | _ => false end.

Definition is_timer (c : call) : bool :=
  match c with SetTimeout _ => true | _ => false end.

(** Either the handler is bound and no callback is queued, or it is unbound
    and exactly one deferred callback is queued. *)
Definition click_guard (w : world) : Prop :=
  (click_bound w = true /\ timers w = 0)
  \/ (click_bound w = false /\ timers w = 1).

(** Two expanded blocks under a collapse-all button in mode "expanded". *)
Definition two_open_blocks : world :=
  mkWorld [mkCollapsible "collapse-block__a" true Shown [] [];
           mkCollapsible "collapse-block__b" true Shown [] []]
          [] "expanded" "Collapse all" "Expand all" "Collapse all" true 0 [].

(** [update_nth] at each position of a selection, in order. *)
Definition update_many {A : Type} (f : A -> A) (sel : list nat) (l : list A)
  : list A :=
  fold_left (fun l e => update_nth e f l) sel l.

(** What the selectors and the plugin guard look at. *)
Definition shape (c : collapsible) : bool * phase :=
  (panel_collapse c, el_phase c).

(** Mode "collapsed" while every block is expanded: the page as the report
    template writes the blocks and the button, once the click handler is
    bound. *)
Definition all_open_mode_collapsed : world :=
  mkWorld [mkCollapsible "collapse-block__a" true Shown [] [];
           mkCollapsible "collapse-block__b" true Shown [] []]
          [] "collapsed" "Expand all" "Expand all" "Collapse all" true 0 [].

(** Mode "expanded" while every block is collapsed. *)
Definition all_closed_mode_expanded : world :=
  mkWorld [mkCollapsible "collapse-block__a" true Hidden [] [];
           mkCollapsible "collapse-block__b" true Hidden [] []]
          [] "expanded" "Collapse all" "Expand all" "Collapse all" true 0 [].

(** An expanded and a collapsed block under mode "expanded". *)
Definition one_open_one_closed : world :=
  mkWorld [mkCollapsible "collapse-block__a" true Shown [] [];
           mkCollapsible "collapse-block__b" true Hidden [] []]
          [] "expanded" "Collapse all" "Expand all" "Collapse all" true 0 [].

(** A section with one block in it and the anchor of that block. *)
Definition nav_page (sid bid : string) (s b : phase) : world :=
  mkWorld [mkCollapsible ("collapse-section__" ++ sid)%string false s [] [];
           mkCollapsible ("collapse-block__" ++ bid)%string true b [] []]
          [("link__" ++ bid)%string]
          "collapsed" "Expand all" "Expand all" "Collapse all" true 0 [].

Definition bs_event_eqb (a b : bs_event) : bool :=
  match a, b with
  | shown_bs_collapse, shown_bs_collapse => true
  | hidden_bs_collapse, hidden_bs_collapse => true
  | _, _ => false
  end.

(** The call registers a one-shot handler for [ev] on element [e]. *)
Definition registers (e : nat) (ev : bs_event) (c : call) : bool :=
  match c with
  | One e' ev' _ => (e' =? e) && bs_event_eqb ev' ev
  | _ => false
  end.

(** Every plugin call of the list is preceded, in the list, by exactly one
    registration of a handler for its completion event on the same element,
    and followed by none. *)
Definition listener_before_start (cs : list call) : Prop :=
  forall i e d,
    nth_error cs i = Some (CollapseCall e d) ->
    List.length (filter (registers e (completion_event d)) (firstn i cs)) = 1
    /\ filter (registers e (completion_event d)) (skipn i cs) = [].

(** No call of the list sets a timer. *)
Definition no_timer (cs : list call) : Prop :=
  forallb (fun c => negb (is_timer c)) cs = true.

Definition transition_ok (cs : list call) : Prop :=
  listener_before_start cs /\ no_timer cs.

(** No element is in transition and none holds a pending one-shot handler:
    the page as it is rendered, or after every transition has ended and
    every handler has run. *)
Definition fresh (w : world) : Prop :=
  Forall (fun c => transitioning (el_phase c) = false
                   /\ once_shown c = [] /\ once_hidden c = [])
         (panels w).

(** The element once its running transition, if any, has ended. *)
Definition finished (c : collapsible) : collapsible := fst (finish c).

(** What the collapse-all dispatch does to one element: [collapsing] tells
    whether the stored mode is "expanded". *)
Definition dispatched (collapsing : bool) (c : collapsible) : collapsible :=
  if collapsing then
    if panel_collapse c
    then plugin Hide (add_once hidden_bs_collapse LabelCollapsed c) else c
  else
    if panel_collapse c && negb (has_in (el_phase c))
    then plugin Show (add_once shown_bs_collapse LabelExpanded c) else c.

(** The only handler that the ending transition of the element would run is
    [h]. *)
Definition runs_only (h : handler) (c : collapsible) : Prop :=
  transitioning (el_phase c) = true -> snd (finish c) = [h].

(** The world with the element at position [e] replaced by [x]. *)
Definition set_panel (e : nat) (x : collapsible) (w : world) : world :=
  with_panels (update_nth e (fun _ => x) (panels w)) w.

(** The handler writes the collapse-all button. *)
Definition is_label (h : handler) : bool :=
  match h with LabelCollapsed | LabelExpanded => true | _ => false end.

(** The element holds no pending handler that writes the collapse-all
    button. *)
Definition quiet (c : collapsible) : Prop :=
  forallb (fun h => negb (is_label h)) (once_shown c ++ once_hidden c) = true.

Definition no_label_pending (w : world) : Prop := Forall quiet (panels w).

(** Any event but a click on the collapse-all button. *)
Definition not_button_click (ev : event) : bool :=
  match ev with ClickToggleAll => false | _ => true end.

(** The call neither writes the collapse-all button nor registers a handler
    that would. *)
Definition label_free (c : call) : bool :=
  match c with
  | One _ _ h => negb (is_label h)
  | SetText _ | SetMode _ => false
  | _ => true
  end.

End CollapseNotions.

Section BokehFixNotions.
Import BokehFix.

(** The state of a plot as the fix may leave it, compared with the plot as
    loaded: untouched and never fixed, or fixed once, no longer polled, and
    with its containers as [onCanvasRendered] sets them for some non-zero
    height. *)
Definition fix_state (bokeh : option string) (p0 p : plotResult) : Prop :=
  (fix_calls p = 0 /\ container_heights p = container_heights p0)
  \/ (fix_calls p = 1 /\ intervalId p = false
      /\ exists h, 0 < h
                   /\ container_heights p = onCanvasRendered bokeh p0 h).

End BokehFixNotions.

(* ================================================================== *)
(** ** Properties of the tag filter *)
(* ================================================================== *)

Section FilterFacts.
Import Filter.

#[local] Arguments matches : simpl never.
#[local] Arguments tagged_by : simpl never.

(** *** Selectors and marker classes *)

Lemma css_name_app a b : css_name (a ++ b) = css_name a && css_name b.
Proof.
  induction a as [|c a IH]; cbn [append css_name]; [reflexivity|].
  now rewrite IH, andb_assoc.
Qed.

Lemma css_name_marker t : css_name (Template.marker t) = css_name t.
Proof. unfold Template.marker. now rewrite css_name_app. Qed.

(** For a data-type that is a name, the selector the script builds is the
    class selector of the marker class the template writes. *)
Lemma quick_class_glanceTag t :
  css_name t = true ->
  quick_class (glanceTag ++ t) = Some (Template.marker t).
Proof.
  intros H.
  change (glanceTag ++ t)%string with (String "."%char (Template.marker t)).
  unfold quick_class. rewrite css_name_marker, H.
  reflexivity.
Qed.

Lemma tagged_by_has_marker btn b :
  css_name (data_type btn) = true -> tagged_by btn b = has_marker btn b.
Proof.
  intros H. unfold tagged_by, matches, has_marker.
  now rewrite quick_class_glanceTag.
Qed.

Lemma well_tagged_bridge p b :
  well_tagged p ->
  forall btn, In btn (buttons p) -> tagged_by btn b = has_marker btn b.
Proof.
  intros Hw btn Hin. apply tagged_by_has_marker.
  unfold well_tagged in Hw. rewrite Forall_forall in Hw. now apply Hw.
Qed.

Lemma hide_by_cons btn btns b :
  hide_by btns (if tagged_by btn b then mkBlock (classes b) true else b)
  = hide_by (btn :: btns) b.
Proof.
  destruct b as [cls d]. unfold hide_by. cbn [existsb classes].
  destruct (tagged_by btn (mkBlock cls d)) eqn:E; cbn [orb classes].
  - now destruct (existsb _ btns).
  - reflexivity.
Qed.

Lemma reveal_by_cons btn btns b :
  reveal_by btns (if tagged_by btn b then mkBlock (classes b) false else b)
  = reveal_by (btn :: btns) b.
Proof.
  destruct b as [cls d]. unfold reveal_by. cbn [existsb classes].
  destruct (tagged_by btn (mkBlock cls d)) eqn:E; cbn [orb classes].
  - now destruct (existsb _ btns).
  - reflexivity.
Qed.

Lemma fold_hide btns : forall bl,
  fold_left (fun bl b => jq_hide (glanceTag ++ data_type b)%string bl) btns bl
  = map (hide_by btns) bl.
Proof.
  induction btns as [|btn btns IH]; intros bl; cbn [fold_left].
  - unfold hide_by; cbn [existsb]. now rewrite map_id.
  - rewrite IH. unfold jq_hide. rewrite map_map.
    apply map_ext. intros b. apply hide_by_cons.
Qed.

Lemma fold_reveal btns : forall bl,
  fold_left (fun bl b => jq_css_display_clear (glanceTag ++ data_type b)%string bl)
            btns bl
  = map (reveal_by btns) bl.
Proof.
  induction btns as [|btn btns IH]; intros bl; cbn [fold_left].
  - unfold reveal_by; cbn [existsb]. now rewrite map_id.
  - rewrite IH. unfold jq_css_display_clear. rewrite map_map.
    apply map_ext. intros b. apply reveal_by_cons.
Qed.

(** What one normal pass does to a single block. *)
Lemma normal_pass_blocks p :
  special_case p = false ->
  blocks (updateContent p)
  = map (fun b => reveal_by (activeToggleButtons p)
                            (hide_by (inactiveToggleButtons p) b))
        (blocks p).
Proof.
  intros H. unfold updateContent. rewrite H. cbn [blocks].
  unfold reveal_pass, hide_pass. rewrite fold_reveal, fold_hide.
  now rewrite map_map.
Qed.

Lemma normal_pass_buttons p :
  special_case p = false -> buttons (updateContent p) = buttons p.
Proof. intros H. unfold updateContent. now rewrite H. Qed.

Lemma in_active btn bs :
  In btn (filter active bs) <-> In btn bs /\ active btn = true.
Proof. apply filter_In. Qed.

Lemma in_inactive btn bs :
  In btn (filter (fun b => negb (active b)) bs)
  <-> In btn bs /\ active btn = false.
Proof.
  rewrite filter_In. now rewrite negb_true_iff.
Qed.

Lemma tagged_by_classes btn b b' :
  classes b = classes b' -> tagged_by btn b = tagged_by btn b'.
Proof.
  intros E. unfold tagged_by, matches.
  destruct (quick_class _); [now rewrite E|reflexivity].
Qed.

Lemma classes_hide_by btns b : classes (hide_by btns b) = classes b.
Proof. unfold hide_by. now destruct (existsb _ btns). Qed.

Lemma classes_reveal_by btns b : classes (reveal_by btns b) = classes b.
Proof. unfold reveal_by. now destruct (existsb _ btns). Qed.

Lemma existsb_tagged_classes btns b b' :
  classes b = classes b' ->
  existsb (fun btn => tagged_by btn b) btns
  = existsb (fun btn => tagged_by btn b') btns.
Proof.
  intros E. induction btns as [|x btns IH]; cbn [existsb]; [reflexivity|].
  now rewrite IH, (tagged_by_classes x b b' E).
Qed.

Lemma existsb_tagged btns b :
  existsb (fun btn => tagged_by btn b) btns = true
  <-> exists btn, In btn btns /\ tagged_by btn b = true.
Proof. apply existsb_exists. Qed.

(** What a normal pass makes of a block that a selector of the page
    selects. *)
Lemma normal_pass_visibility p b' :
  special_case p = false ->
  In b' (blocks (updateContent p)) ->
  (exists btn, In btn (buttons p) /\ tagged_by btn b' = true) ->
  (visible b' = true <->
   exists btn, In btn (activeToggleButtons p) /\ tagged_by btn b' = true).
Proof.
  intros Hn Hin [btn [Hbtn Htag]].
  rewrite normal_pass_blocks in Hin by assumption.
  apply in_map_iff in Hin. destruct Hin as [b [Hb _]].
  set (h := hide_by (inactiveToggleButtons p) b) in *.
  assert (Hcb : classes b = classes h)
    by (subst h; now rewrite classes_hide_by).
  assert (Hch : classes h = classes b')
    by (rewrite <- Hb; now rewrite classes_reveal_by).
  rewrite <- existsb_tagged.
  rewrite <- (existsb_tagged_classes _ h b' Hch).
  unfold reveal_by in Hb.
  destruct (existsb (fun x => tagged_by x h) (activeToggleButtons p)) eqn:E.
  - rewrite <- Hb. unfold visible. cbn [display_none negb]. tauto.
  - split; [|discriminate]. intros Hv. exfalso.
    rewrite (tagged_by_classes btn b' h) in Htag by (symmetry; exact Hch).
    assert (Hoff : active btn = false).
    { destruct (active btn) eqn:Ea; [|reflexivity].
      assert (existsb (fun x => tagged_by x h) (activeToggleButtons p) = true).
      { apply existsb_tagged. exists btn. split; [|assumption].
        unfold activeToggleButtons. now apply in_active. }
      congruence. }
    assert (Hex : existsb (fun x => tagged_by x b) (inactiveToggleButtons p)
                  = true).
    { apply existsb_tagged. exists btn. split.
      - unfold inactiveToggleButtons. now apply in_inactive.
      - now rewrite (tagged_by_classes btn b h Hcb). }
    rewrite <- Hb in Hv. subst h. unfold hide_by in Hv. rewrite Hex in Hv.
    unfold visible in Hv. cbn [display_none negb] in Hv. discriminate.
Qed.

(** C2 (amended). The data-types of the toggle buttons being names (so that
    ['.glancetag' + data-type] is the class selector of the tag's marker
    class): after a reconciliation pass that reaches its hide/reveal phase, a
    block that has the marker class of at least one toggle button is visible
    exactly when one of its marker classes is that of an active button; in
    particular a block marked for both an inactive and an active button ends
    visible, since all hides are applied before the reveals. *)
Theorem visibility_matches_active_set p b' :
  well_tagged p ->
  special_case p = false ->
  In b' (blocks (updateContent p)) ->
  (exists btn, In btn (allToggleButtons p) /\ has_marker btn b' = true) ->
  (visible b' = true <->
   exists btn, In btn (activeToggleButtons (updateContent p))
               /\ has_marker btn b' = true)
  /\ (forall off on,
        In off (inactiveToggleButtons (updateContent p)) ->
        In on (activeToggleButtons (updateContent p)) ->
        has_marker off b' = true -> has_marker on b' = true ->
        visible b' = true).
Proof.
  intros Hw Hn Hin [btn [Hbtn Htag]].
  assert (Hact : activeToggleButtons (updateContent p) = activeToggleButtons p)
    by (unfold activeToggleButtons; now rewrite normal_pass_buttons).
  rewrite Hact.
  pose proof (well_tagged_bridge p b' Hw) as Hbr.
  assert (Hiff : visible b' = true <->
                 exists btn, In btn (activeToggleButtons p)
                             /\ has_marker btn b' = true).
  { destruct (normal_pass_visibility p b' Hn Hin) as [H1 H2].
    { exists btn. split; [exact Hbtn|]. now rewrite Hbr. }
    split.
    - intros Hv. destruct (H1 Hv) as [x [Hx Ht]]. exists x.
      split; [exact Hx|]. rewrite <- Hbr; [exact Ht|].
      now apply in_active in Hx.
    - intros [x [Hx Ht]]. apply H2. exists x. split; [exact Hx|].
      rewrite Hbr; [exact Ht|]. now apply in_active in Hx. }
  split; [exact Hiff|].
  intros off on _ Hon _ Ton. apply Hiff. now exists on.
Qed.

Lemma visibility_matches_active_set_witness :
  let b' := mkBlock ["row"; "glancetaggood"; "glancetagcustomx"] false in
  (visible b' = true <->
   exists btn, In btn (activeToggleButtons (updateContent good_off_page))
               /\ has_marker btn b' = true)
  /\ (forall off on,
        In off (inactiveToggleButtons (updateContent good_off_page)) ->
        In on (activeToggleButtons (updateContent good_off_page)) ->
        has_marker off b' = true -> has_marker on b' = true ->
        visible b' = true).
Proof.
  apply (visibility_matches_active_set good_off_page
           (mkBlock ["row"; "glancetaggood"; "glancetagcustomx"] false)).
  - repeat constructor.
  - reflexivity.
  - left. reflexivity.
  - exists (mkButton "good" false). split; [left; reflexivity|reflexivity].
Defined.

(** The block of a report block without any tag, as [display_block] renders
    it, has no marker class; a pass leaves it visible although none of the
    active buttons marks it. *)
Lemma unmarked_block_stays_visible :
  Template.display_block (fun t => t) "col-md-12" []
  = mkBlock ["row"; "col-md-12"] false
  /\ well_tagged untagged_block_page
  /\ special_case untagged_block_page = false
  /\ blocks (updateContent untagged_block_page)
     = [mkBlock ["row"; "col-md-12"] false]
  /\ visible (mkBlock ["row"; "col-md-12"] false) = true
  /\ ~ (exists btn,
          In btn (activeToggleButtons (updateContent untagged_block_page))
          /\ has_marker btn (mkBlock ["row"; "col-md-12"] false) = true).
Proof.
  split; [reflexivity|]. split; [repeat constructor|].
  split; [reflexivity|]. split; [reflexivity|]. split; [reflexivity|].
  intros (btn & Hin & Hm). cbn in Hin.
  destruct Hin as [<-|[]]. discriminate.
Qed.

(** *** Counting buttons *)

#[local] Notation "'inactive'" := (fun b : button => negb (active b)).

Lemma count_partition bs :
  List.length (filter active bs) + List.length (filter inactive bs)
  = List.length bs.
Proof.
  induction bs as [|b bs IH]; cbn [filter List.length]; [reflexivity|].
  destruct (active b); cbn [negb List.length]; lia.
Qed.

Lemma count_active_toggled bs :
  List.length (filter active (map button_toggle bs))
  = List.length (filter inactive bs).
Proof.
  induction bs as [|b bs IH]; cbn [map filter List.length]; [reflexivity|].
  unfold button_toggle at 1. cbn [active].
  destruct (active b); cbn [negb List.length]; lia.
Qed.

Lemma count_inactive_toggled bs :
  List.length (filter inactive (map button_toggle bs))
  = List.length (filter active bs).
Proof.
  induction bs as [|b bs IH]; cbn [map filter List.length]; [reflexivity|].
  unfold button_toggle at 1. cbn [active].
  destruct (active b); cbn [negb List.length]; lia.
Qed.

Lemma none_active_all_toggled bs :
  filter active bs = [] ->
  Forall (fun b => active b = true) (map button_toggle bs).
Proof.
  induction bs as [|b bs IH]; cbn [map filter]; intros H; constructor.
  - unfold button_toggle. cbn [active]. destruct (active b);
      [discriminate|reflexivity].
  - apply IH. destruct (active b); [discriminate|assumption].
Qed.

Lemma all_active_no_inactive bs :
  Forall (fun b => active b = true) bs -> filter inactive bs = [].
Proof.
  induction 1 as [|b bs Hb _ IH]; cbn [filter]; [reflexivity|].
  now rewrite Hb.
Qed.

Lemma toggle_nth_length t : forall bs,
  List.length (toggle_nth t bs) = List.length bs.
Proof.
  induction t as [|t IH]; intros [|b bs]; cbn [toggle_nth List.length];
    try reflexivity.
  now rewrite IH.
Qed.

Lemma toggle_nth_one_inactive bs : forall t,
  Forall (fun b => active b = true) bs ->
  t < List.length bs ->
  List.length (filter inactive (toggle_nth t bs)) = 1.
Proof.
  induction bs as [|b bs IH]; intros t Hall Ht; cbn [List.length] in Ht;
    [lia|].
  inversion Hall as [|? ? Hb Hbs]; subst.
  destruct t as [|t]; cbn [toggle_nth filter].
  - unfold button_toggle at 1. cbn [active]. rewrite Hb. cbn [negb List.length].
    now rewrite all_active_no_inactive.
  - rewrite Hb. cbn [negb]. apply IH; [assumption|lia].
Qed.

Lemma toggled_back_only_active bs : forall t i b,
  Forall (fun b => active b = true) bs ->
  nth_error (map button_toggle (toggle_nth t bs)) i = Some b ->
  active b = (i =? t).
Proof.
  induction bs as [|x bs IH]; intros t i b Hall Hn.
  - destruct t, i; discriminate.
  - inversion Hall as [|? ? Hx Hbs]; subst.
    destruct t as [|t], i as [|i]; cbn [toggle_nth map nth_error] in Hn.
    + injection Hn as <-. unfold button_toggle. cbn [active].
      now rewrite Hx.
    + apply nth_error_In in Hn. apply in_map_iff in Hn.
      destruct Hn as [y [<- Hy]]. unfold button_toggle. cbn [active].
      rewrite Forall_forall in Hbs. now rewrite (Hbs y Hy).
    + injection Hn as <-. unfold button_toggle. cbn [active].
      now rewrite Hx.
    + now apply (IH t i b).
Qed.

Lemma toggle_nth_data_type t : forall bs,
  map data_type (toggle_nth t bs) = map data_type bs.
Proof.
  induction t as [|t IH]; intros [|b bs]; cbn [toggle_nth map];
    try reflexivity.
  now rewrite IH.
Qed.

Lemma toggle_all_data_type bs :
  map data_type (map button_toggle bs) = map data_type bs.
Proof. rewrite map_map. now apply map_ext. Qed.

(** *** One queued callback *)

Lemma special_case_fields bs bl nt na k k' :
  special_case (mkPage bs bl nt na k) = special_case (mkPage bs bl nt na k').
Proof. reflexivity. Qed.

Lemma step_Timeout_special p k :
  timers p = S k -> special_case p = true ->
  step Timeout p
  = mkPage (map button_toggle (buttons p)) (blocks p)
           (numToggleButtons p) (numActiveToggleButtons p) (S k).
Proof.
  destruct p as [bs bl nt na tm]. cbn [timers]. intros -> H.
  unfold step. cbn [timers buttons blocks numToggleButtons
                    numActiveToggleButtons].
  unfold updateContent. rewrite (special_case_fields bs bl nt na k (S k)), H.
  reflexivity.
Qed.

Lemma step_Timeout_normal p k :
  timers p = S k -> special_case p = false ->
  let q := step Timeout p in
  buttons q = buttons p /\ timers q = k
  /\ numToggleButtons q = numToggleButtons p
  /\ numActiveToggleButtons q = List.length (activeToggleButtons p)
  /\ blocks q = blocks (updateContent p).
Proof.
  destruct p as [bs bl nt na tm]. cbn [timers]. intros -> H.
  unfold step. cbn [timers buttons blocks numToggleButtons
                    numActiveToggleButtons].
  unfold updateContent. rewrite (special_case_fields bs bl nt na k (S k)), H.
  cbn [buttons timers numToggleButtons numActiveToggleButtons blocks].
  repeat split; reflexivity.
Qed.

Lemma drain_done fuel p : timers p = 0 -> drain fuel p = Some p.
Proof. intros H. destruct fuel; cbn [drain]; now rewrite H. Qed.

Lemma drain_step fuel p k :
  timers p = S k -> drain (S fuel) p = drain fuel (step Timeout p).
Proof. intros H. cbn [drain]. now rewrite H. Qed.

Lemma drain_zero p k : timers p = S k -> drain 0 p = None.
Proof. intros H. cbn [drain]. now rewrite H. Qed.

Lemma normal_active_nonempty p :
  special_case p = false -> activeToggleButtons p <> [].
Proof.
  unfold special_case. intros H. apply orb_false_iff in H.
  destruct H as [_ H]. apply Nat.eqb_neq in H.
  intros E. now rewrite E in H.
Qed.

Lemma updateContent_length p :
  List.length (buttons (updateContent p)) = List.length (buttons p).
Proof.
  unfold updateContent. destruct (special_case p); cbn [buttons];
    [|reflexivity].
  unfold allToggleButtons. apply length_map.
Qed.

Lemma step_length e p :
  List.length (buttons (step e p)) = List.length (buttons p).
Proof.
  destruct e as [i| |]; unfold step.
  - destruct (i <? List.length (buttons p)); cbn [buttons]; [|reflexivity].
    apply toggle_nth_length.
  - cbn [buttons]. apply length_map.
  - destruct (timers p); [reflexivity|]. now rewrite updateContent_length.
Qed.

Lemma exec_length evs : forall p,
  List.length (buttons (exec evs p)) = List.length (buttons p).
Proof.
  induction evs as [|e evs IH]; intros p; [reflexivity|].
  unfold exec in *. cbn [fold_left]. now rewrite IH, step_length.
Qed.

Lemma addEventHandler_length p :
  List.length (buttons (addEventHandler p)) = List.length (buttons p).
Proof. unfold addEventHandler. now rewrite updateContent_length. Qed.

(** C3. Whatever clicks and callbacks came before, a queued reconciliation
    that reaches its hide/reveal phase leaves at least one toggle button
    active; and when it finds no active button it toggles every button
    active and queues itself again, the next pass then reaching the
    hide/reveal phase. *)
Theorem nonempty_filter_invariant p0 evs :
  1 <= List.length (buttons p0) ->
  0 < timers (exec evs (addEventHandler p0)) ->
  let p := exec evs (addEventHandler p0) in
  (special_case p = false -> activeToggleButtons (step Timeout p) <> [])
  /\ (activeToggleButtons p = [] ->
      Forall (fun b => active b = true) (buttons (step Timeout p))
      /\ timers (step Timeout p) = timers p
      /\ special_case (step Timeout p) = false).
Proof.
  intros Hn Ht p.
  assert (Hlen : 1 <= List.length (buttons p))
    by (subst p; now rewrite exec_length, addEventHandler_length).
  fold p in Ht. destruct (timers p) as [|k] eqn:Hk; [lia|]. clear Ht.
  split.
  - intros Hs. destruct (step_Timeout_normal p k Hk Hs) as [Hb _].
    unfold activeToggleButtons. rewrite Hb. now apply normal_active_nonempty.
  - intros Hnone.
    assert (Hs : special_case p = true).
    { unfold special_case. rewrite Hnone. cbn [List.length Nat.eqb].
      apply orb_true_r. }
    rewrite (step_Timeout_special p k Hk Hs). cbn [buttons timers].
    split; [now apply none_active_all_toggled|]. split; [reflexivity|].
    unfold special_case, inactiveToggleButtons, activeToggleButtons.
    cbn [buttons numToggleButtons numActiveToggleButtons].
    rewrite count_inactive_toggled, count_active_toggled.
    unfold activeToggleButtons in Hnone. rewrite Hnone. cbn [List.length].
    pose proof (count_partition (buttons p)) as Hp.
    rewrite Hnone in Hp. cbn [List.length] in Hp.
    cbn [Nat.eqb andb orb].
    apply Nat.eqb_neq. lia.
Qed.

Lemma nonempty_filter_invariant_witness :
  let p0 := mkPage [mkButton "1" true; mkButton "2" true] [] 0 0 0 in
  let p := exec [ClickToggle 0; Timeout; ClickToggle 0] (addEventHandler p0) in
  (special_case p = false -> activeToggleButtons (step Timeout p) <> [])
  /\ (activeToggleButtons p = [] ->
      Forall (fun b => active b = true) (buttons (step Timeout p))
      /\ timers (step Timeout p) = timers p
      /\ special_case (step Timeout p) = false).
Proof.
  apply (nonempty_filter_invariant
           (mkPage [mkButton "1" true; mkButton "2" true] [] 0 0 0)
           [ClickToggle 0; Timeout; ClickToggle 0]).
  - cbn [buttons List.length]. lia.
  - vm_compute. lia.
Defined.

Lemma two_cycle_special p : two_cycle p -> special_case p = true.
Proof.
  intros (_ & Hi & Hc). unfold special_case. rewrite Hi, Hc.
  now rewrite !Nat.eqb_refl.
Qed.

Lemma two_cycle_loops fuel : forall p,
  two_cycle p -> timers p <> 0 -> drain fuel p = None.
Proof.
  induction fuel as [|fuel IH]; intros p Hc Ht;
    destruct (timers p) as [|k] eqn:Hk; try congruence.
  - now apply (drain_zero p k).
  - rewrite (drain_step fuel p k Hk).
    rewrite (step_Timeout_special p k Hk (two_cycle_special p Hc)).
    apply IH; [|cbn [timers]; discriminate].
    destruct Hc as (Hl & Hi & Hn). unfold two_cycle, inactiveToggleButtons.
    cbn [buttons numToggleButtons numActiveToggleButtons].
    rewrite length_map, count_inactive_toggled.
    pose proof (count_partition (buttons p)) as Hp.
    unfold inactiveToggleButtons in Hi. lia.
Qed.

Lemma no_buttons_loops fuel : forall p,
  buttons p = [] -> timers p <> 0 -> drain fuel p = None.
Proof.
  induction fuel as [|fuel IH]; intros p Hb Ht;
    destruct (timers p) as [|k] eqn:Hk; try congruence.
  - now apply (drain_zero p k).
  - rewrite (drain_step fuel p k Hk).
    assert (Hs : special_case p = true).
    { unfold special_case, activeToggleButtons. rewrite Hb.
      cbn [filter List.length Nat.eqb]. apply orb_true_r. }
    rewrite (step_Timeout_special p k Hk Hs).
    apply IH; cbn [buttons timers]; [now rewrite Hb|discriminate].
Qed.

(** After a special case fired outside the looping configuration, the next
    pass is a normal one. *)
Lemma special_then_normal p k :
  1 <= List.length (buttons p) -> ~ two_cycle p ->
  special_case p = true ->
  special_case (mkPage (map button_toggle (buttons p)) (blocks p)
                       (numToggleButtons p) (numActiveToggleButtons p) k)
  = false.
Proof.
  intros Hn Hc Hs. unfold special_case, inactiveToggleButtons,
    activeToggleButtons in *.
  cbn [buttons numToggleButtons numActiveToggleButtons].
  rewrite count_inactive_toggled, count_active_toggled.
  pose proof (count_partition (buttons p)) as Hp.
  apply orb_true_iff in Hs. apply orb_false_iff. split.
  - apply andb_false_iff.
    destruct (Nat.eqb_spec (List.length (filter active (buttons p))) 1)
      as [E1|]; [|now left].
    destruct (Nat.eqb_spec (numActiveToggleButtons p) (numToggleButtons p))
      as [E2|]; [|now right].
    exfalso. destruct Hs as [Hs|Hs].
    + apply andb_true_iff in Hs. destruct Hs as [Hi _].
      apply Nat.eqb_eq in Hi. apply Hc. unfold two_cycle, inactiveToggleButtons.
      repeat split; lia.
    + apply Nat.eqb_eq in Hs. lia.
  - apply Nat.eqb_neq. destruct Hs as [Hs|Hs].
    + apply andb_true_iff in Hs. destruct Hs as [Hi _].
      apply Nat.eqb_eq in Hi. lia.
    + apply Nat.eqb_eq in Hs. lia.
Qed.

(** X18. With at least one toggle button and outside the looping
    configuration [two_cycle], a queued reconciliation reaches its
    hide/reveal phase within three passes, whatever the button states and
    the recorded counts; with no toggle button at all the zero-active
    special case fires on every pass and the phase is never reached. *)
Theorem reconciliation_terminates p :
  timers p = 1 ->
  (1 <= List.length (buttons p) -> ~ two_cycle p ->
   exists p', drain 3 p = Some p'
              /\ timers p' = 0
              /\ numActiveToggleButtons p' = List.length (activeToggleButtons p')
              /\ activeToggleButtons p' <> [])
  /\ (buttons p = [] -> forall fuel, drain fuel p = None).
Proof.
  intros Ht. split.
  - intros Hn Hc.
    assert (Hnormal : forall q f, timers q = 1 -> special_case q = false ->
              exists p', drain (S f) q = Some p' /\ timers p' = 0
                /\ numActiveToggleButtons p' = List.length (activeToggleButtons p')
                /\ activeToggleButtons p' <> []).
    { intros q f Hq Hs. exists (step Timeout q).
      destruct (step_Timeout_normal q 0 Hq Hs) as (Hb & Hk & _ & Ha & _).
      rewrite (drain_step f q 0 Hq), (drain_done f _ Hk).
      unfold activeToggleButtons in *. rewrite Hb.
      repeat split; try assumption.
      now apply normal_active_nonempty. }
    destruct (special_case p) eqn:Hs.
    + rewrite (drain_step 2 p 0 Ht), (step_Timeout_special p 0 Ht Hs).
      apply Hnormal; [reflexivity|]. now apply special_then_normal.
    + now apply Hnormal.
  - intros Hb fuel. apply no_buttons_loops; [assumption|]. now rewrite Ht.
Qed.

Lemma reconciliation_terminates_witness :
  let p := mkPage [mkButton "1" false; mkButton "2" true; mkButton "3" true]
                  [] 3 3 1 in
  (exists p', drain 3 p = Some p'
              /\ timers p' = 0
              /\ numActiveToggleButtons p' = List.length (activeToggleButtons p')
              /\ activeToggleButtons p' <> [])
  /\ (forall fuel, drain fuel (mkPage [] [] 0 0 1) = None).
Proof.
  split.
  - apply (reconciliation_terminates
             (mkPage [mkButton "1" false; mkButton "2" true; mkButton "3" true]
                     [] 3 3 1)).
    + reflexivity.
    + cbn [buttons List.length]. lia.
    + intros (H & _). cbn [buttons List.length] in H. discriminate.
  - apply (reconciliation_terminates (mkPage [] [] 0 0 1)); reflexivity.
Defined.

(** C9, evaluated where it fails: two toggle buttons, the first just
    deselected while the recorded counts say that both were active.  The
    page has a toggle button, yet every pass finds exactly one inactive
    button and an unchanged baseline, toggles both buttons and queues
    itself again: no number of passes reaches the hide/reveal phase. *)
Theorem reconciliation_loops_on_two_buttons :
  step (ClickToggle 0)
       (addEventHandler (mkPage [mkButton "1" true; mkButton "2" true] [] 0 0 0))
  = two_button_page
  /\ 1 <= List.length (buttons two_button_page)
  /\ timers two_button_page = 1
  /\ drain 3 two_button_page = None
  /\ (forall fuel, drain fuel two_button_page = None).
Proof.
  split; [reflexivity|].
  split; [cbn; lia|]. split; [reflexivity|]. split; [reflexivity|].
  intros fuel. apply two_cycle_loops; [|discriminate].
  repeat split.
Qed.

(** X17. With [N] toggle buttons, [N] other than two, all active and
    recorded as such by the previous reconciliation, deselecting the button
    at position [t] leaves, once the queued reconciliations have run (three
    passes are enough), exactly that button active. *)
Theorem isolate_on_single_deselect p t :
  Forall (fun b => active b = true) (buttons p) ->
  numToggleButtons p = List.length (buttons p) ->
  numActiveToggleButtons p = List.length (buttons p) ->
  timers p = 0 ->
  t < List.length (buttons p) ->
  List.length (buttons p) <> 2 ->
  exists p',
    drain 3 (step (ClickToggle t) p) = Some p'
    /\ timers p' = 0
    /\ map data_type (buttons p') = map data_type (buttons p)
    /\ (forall i b, nth_error (buttons p') i = Some b -> active b = (i =? t)).
Proof.
  intros Hall HnT HnA Htm Ht Hne.
  set (p1 := step (ClickToggle t) p).
  assert (E1 : p1 = mkPage (toggle_nth t (buttons p)) (blocks p)
                           (numToggleButtons p) (numActiveToggleButtons p) 1).
  { subst p1. unfold step. apply Nat.ltb_lt in Ht. now rewrite Ht, Htm. }
  assert (Hi1 : List.length (inactiveToggleButtons p1) = 1).
  { rewrite E1. unfold inactiveToggleButtons. cbn [buttons].
    now apply toggle_nth_one_inactive. }
  assert (Hs1 : special_case p1 = true).
  { unfold special_case. rewrite Hi1. rewrite E1 at 1 2.
    cbn [numToggleButtons numActiveToggleButtons].
    rewrite HnT, HnA. now rewrite !Nat.eqb_refl. }
  assert (Ht1 : timers p1 = 1) by now rewrite E1.
  assert (Hl1 : List.length (buttons p1) = List.length (buttons p)).
  { rewrite E1. cbn [buttons]. apply toggle_nth_length. }
  rewrite (drain_step 2 p1 0 Ht1), (step_Timeout_special p1 0 Ht1 Hs1).
  set (p2 := mkPage _ _ _ _ _).
  assert (Hs2 : special_case p2 = false).
  { subst p2. apply special_then_normal; [lia| |assumption].
    intros (Hl & _). lia. }
  assert (Ht2 : timers p2 = 1) by reflexivity.
  destruct (step_Timeout_normal p2 0 Ht2 Hs2) as (Hb & Hk & _).
  exists (step Timeout p2).
  rewrite (drain_step 1 p2 0 Ht2), (drain_done 1 _ Hk).
  split; [reflexivity|]. split; [exact Hk|].
  rewrite Hb. subst p2. cbn [buttons]. rewrite E1. cbn [buttons].
  split.
  - now rewrite toggle_all_data_type, toggle_nth_data_type.
  - intros i b. now apply toggled_back_only_active.
Qed.

Lemma isolate_on_single_deselect_witness :
  let p := mkPage [mkButton "good" true; mkButton "warning" true;
                   mkButton "bad" true; mkButton "notag" true] [] 4 4 0 in
  exists p',
    drain 3 (step (ClickToggle 1) p) = Some p'
    /\ timers p' = 0
    /\ map data_type (buttons p') = map data_type (buttons p)
    /\ (forall i b, nth_error (buttons p') i = Some b -> active b = (i =? 1)).
Proof.
  apply (isolate_on_single_deselect
           (mkPage [mkButton "good" true; mkButton "warning" true;
                    mkButton "bad" true; mkButton "notag" true] [] 4 4 0) 1).
  - repeat constructor.
  - reflexivity.
  - reflexivity.
  - reflexivity.
  - cbn [buttons List.length]. lia.
  - cbn [buttons List.length]. lia.
Defined.

(** C1, evaluated where it fails: two toggle buttons, both active and
    recorded as such, and the user deselects the first.  The reconciliation
    never completes: every pass toggles both buttons and queues the next
    one, so the deselected tag never ends up as the only active one. *)
Theorem isolate_fails_on_two_tags :
  addEventHandler (mkPage [mkButton "1" true; mkButton "2" true] [] 0 0 0)
  = two_tags_all_active
  /\ Forall (fun b => active b = true) (buttons two_tags_all_active)
  /\ numActiveToggleButtons two_tags_all_active
     = numToggleButtons two_tags_all_active
  /\ drain 3 (step (ClickToggle 0) two_tags_all_active) = None
  /\ ~ (exists fuel p',
          drain fuel (step (ClickToggle 0) two_tags_all_active) = Some p').
Proof.
  split; [reflexivity|].
  split; [repeat constructor|]. split; [reflexivity|].
  split; [reflexivity|].
  intros (fuel & p' & H).
  rewrite two_cycle_loops in H; [discriminate| |discriminate].
  repeat split.
Qed.

End FilterFacts.

(* ================================================================== *)
(** ** Further behaviour of the tag filter *)
(* ================================================================== *)

Section FilterBehaviour.
Import Filter.

#[local] Arguments matches : simpl never.
#[local] Arguments tagged_by : simpl never.

Lemma all_active_count bs :
  Forall (fun b => active b = true) bs ->
  List.length (filter active bs) = List.length bs.
Proof.
  intros H. pose proof (count_partition bs) as Hp.
  rewrite (all_active_no_inactive bs H) in Hp. cbn [List.length] in Hp. lia.
Qed.

Lemma all_active_normal p :
  1 <= List.length (buttons p) ->
  Forall (fun b => active b = true) (buttons p) ->
  special_case p = false.
Proof.
  intros Hn Hall. unfold special_case, inactiveToggleButtons, activeToggleButtons.
  rewrite (all_active_no_inactive _ Hall), (all_active_count _ Hall).
  cbn [List.length Nat.eqb andb orb]. apply Nat.eqb_neq. lia.
Qed.

Lemma well_tagged_ext p q :
  map data_type (buttons q) = map data_type (buttons p) ->
  well_tagged p -> well_tagged q.
Proof.
  unfold well_tagged. intros E H.
  apply (Forall_map data_type (fun t => css_name t = true)).
  rewrite E. now apply (Forall_map data_type (fun t => css_name t = true)).
Qed.

(** In a normal pass a block that the selector of an active button selects
    ends visible. *)
Lemma normal_pass_reveals p b' :
  special_case p = false ->
  In b' (blocks (updateContent p)) ->
  (exists btn, In btn (activeToggleButtons p) /\ tagged_by btn b' = true) ->
  visible b' = true.
Proof.
  intros Hs Hin [btn [Hb Ht]].
  rewrite normal_pass_blocks in Hin by assumption.
  apply in_map_iff in Hin. destruct Hin as [b [E _]].
  set (h := hide_by (inactiveToggleButtons p) b) in *.
  assert (Hc : classes h = classes b')
    by (rewrite <- E; now rewrite classes_reveal_by).
  assert (Hex : existsb (fun x => tagged_by x h) (activeToggleButtons p) = true).
  { apply existsb_tagged. exists btn. split; [assumption|].
    now rewrite (tagged_by_classes btn h b' Hc). }
  unfold reveal_by in E. rewrite Hex in E. now rewrite <- E.
Qed.

Lemma all_active_buttons p :
  Forall (fun b => active b = true) (buttons p) ->
  activeToggleButtons p = buttons p.
Proof.
  unfold activeToggleButtons. induction 1 as [|b bs Hb _ IH]; cbn [filter];
    [reflexivity|].
  now rewrite Hb, IH.
Qed.

Lemma enable_all_active bs :
  Forall (fun b => active b = true)
         (map (fun b => if active b then b else button_toggle b) bs).
Proof.
  apply Forall_forall. intros x Hx. apply in_map_iff in Hx.
  destruct Hx as [b [<- _]]. destruct (active b) eqn:E; [assumption|].
  unfold button_toggle. cbn [active]. now rewrite E.
Qed.

Lemma enable_all_data_type bs :
  map data_type (map (fun b => if active b then b else button_toggle b) bs)
  = map data_type bs.
Proof.
  rewrite map_map. apply map_ext. intros b. now destruct (active b).
Qed.

(** X1. The data-types of the toggle buttons being names: a click on the
    "All" button, followed by the one reconciliation it queues, leaves every
    toggle button active, records the full count as the baseline, and shows
    every block that has the marker class of a toggle button. *)
Theorem enable_all_reveals_every_tracked_block p :
  well_tagged p ->
  1 <= List.length (buttons p) ->
  timers p = 0 ->
  exists p',
    drain 1 (step ClickEnableAll p) = Some p'
    /\ timers p' = 0
    /\ Forall (fun b => active b = true) (buttons p')
    /\ map data_type (buttons p') = map data_type (buttons p)
    /\ numActiveToggleButtons p' = List.length (buttons p')
    /\ (forall b',
          In b' (blocks p') ->
          (exists btn, In btn (buttons p') /\ has_marker btn b' = true) ->
          visible b' = true).
Proof.
  intros Hw Hn Ht.
  set (q := step ClickEnableAll p).
  assert (Hq : timers q = 1) by (subst q; cbn [step timers]; now rewrite Ht).
  assert (Hall : Forall (fun b => active b = true) (buttons q))
    by (subst q; cbn [step buttons]; apply enable_all_active).
  assert (Hlen : List.length (buttons q) = List.length (buttons p))
    by (subst q; cbn [step buttons]; apply length_map).
  assert (Hs : special_case q = false)
    by (apply all_active_normal; [lia|assumption]).
  destruct (step_Timeout_normal q 0 Hq Hs) as (Hb & Hk & _ & Ha & Hbl).
  exists (step Timeout q).
  rewrite (drain_step 0 q 0 Hq), (drain_done 0 _ Hk).
  split; [reflexivity|]. split; [exact Hk|]. rewrite Hb.
  split; [exact Hall|].
  assert (Hd : map data_type (buttons q) = map data_type (buttons p))
    by (subst q; cbn [step buttons]; apply enable_all_data_type).
  split; [exact Hd|].
  split; [rewrite Ha; unfold activeToggleButtons; now apply all_active_count|].
  intros b' Hin (btn & Hbtn & Hm). rewrite Hbl in Hin.
  apply (normal_pass_reveals q b' Hs Hin).
  rewrite all_active_buttons by assumption.
  exists btn. split; [exact Hbtn|].
  now rewrite (well_tagged_bridge q b' (well_tagged_ext p q Hd Hw)).
Qed.

Lemma enable_all_reveals_every_tracked_block_witness :
  exists p',
    drain 1 (step ClickEnableAll good_off_page) = Some p'
    /\ timers p' = 0
    /\ Forall (fun b => active b = true) (buttons p')
    /\ map data_type (buttons p') = map data_type (buttons good_off_page)
    /\ numActiveToggleButtons p' = List.length (buttons p')
    /\ (forall b',
          In b' (blocks p') ->
          (exists btn, In btn (buttons p') /\ has_marker btn b' = true) ->
          visible b' = true).
Proof.
  apply (enable_all_reveals_every_tracked_block good_off_page).
  - repeat constructor.
  - cbn [good_off_page buttons List.length]. lia.
  - reflexivity.
Defined.

(** X2. The data-types of the toggle buttons being names: the first
    synchronous reconciliation of [addEventHandler] on a page whose toggle
    buttons are all active (the state the template renders) does not queue
    anything, records the button count as both counters and shows every
    block that has the marker class of a toggle button. *)
Theorem initial_reconciliation_on_all_active_page p :
  well_tagged p ->
  1 <= List.length (buttons p) ->
  Forall (fun b => active b = true) (buttons p) ->
  timers (addEventHandler p) = timers p
  /\ buttons (addEventHandler p) = buttons p
  /\ numToggleButtons (addEventHandler p) = List.length (buttons p)
  /\ numActiveToggleButtons (addEventHandler p) = List.length (buttons p)
  /\ (forall b',
        In b' (blocks (addEventHandler p)) ->
        (exists btn, In btn (buttons p) /\ has_marker btn b' = true) ->
        visible b' = true).
Proof.
  intros Hw Hn Hall. unfold addEventHandler.
  set (q := mkPage _ _ _ _ _).
  assert (Hs : special_case q = false) by (apply all_active_normal; assumption).
  assert (E : updateContent q
              = mkPage (buttons q) (reveal_pass q (hide_pass q))
                       (numToggleButtons q)
                       (List.length (activeToggleButtons q)) (timers q))
    by (unfold updateContent; now rewrite Hs).
  split; [now rewrite E|]. split; [now rewrite E|].
  split; [now rewrite E|].
  split.
  { rewrite E. cbn [numActiveToggleButtons]. unfold activeToggleButtons.
    now apply all_active_count. }
  intros b' Hin (btn & Hbtn & Hm). apply (normal_pass_reveals q b' Hs Hin).
  rewrite (all_active_buttons q Hall).
  exists btn. split; [exact Hbtn|].
  now rewrite (well_tagged_bridge p b' Hw).
Qed.

Lemma initial_reconciliation_on_all_active_page_witness :
  let p := mkPage [mkButton "notag" true; mkButton "good" true;
                   mkButton "warning" true; mkButton "bad" true]
                  [mkBlock ["row"; "glancetaggood"] true] 0 0 0 in
  timers (addEventHandler p) = timers p
  /\ buttons (addEventHandler p) = buttons p
  /\ numToggleButtons (addEventHandler p) = List.length (buttons p)
  /\ numActiveToggleButtons (addEventHandler p) = List.length (buttons p)
  /\ (forall b',
        In b' (blocks (addEventHandler p)) ->
        (exists btn, In btn (buttons p) /\ has_marker btn b' = true) ->
        visible b' = true).
Proof.
  apply (initial_reconciliation_on_all_active_page
           (mkPage [mkButton "notag" true; mkButton "good" true;
                    mkButton "warning" true; mkButton "bad" true]
                   [mkBlock ["row"; "glancetaggood"] true] 0 0 0)).
  - repeat constructor.
  - cbn [buttons List.length]. lia.
  - repeat constructor.
Defined.

Lemma deselect_only_active bs : forall t,
  (forall i b, nth_error bs i = Some b -> active b = (i =? t)) ->
  filter active (toggle_nth t bs) = [].
Proof.
  induction bs as [|x bs IH]; intros t H; [now destruct t|].
  destruct t as [|t]; cbn [toggle_nth filter].
  - unfold button_toggle at 1. cbn [active].
    rewrite (H 0 x eq_refl). cbn [Nat.eqb negb].
    assert (Hrest : forall b, In b bs -> active b = false).
    { intros b Hb. apply In_nth_error in Hb. destruct Hb as [i Hi].
      exact (H (S i) b Hi). }
    clear -Hrest. induction bs as [|y bs IH]; [reflexivity|].
    cbn [filter]. rewrite (Hrest y (or_introl eq_refl)).
    apply IH. intros b Hb. apply Hrest. now right.
  - rewrite (H 0 x eq_refl). cbn [Nat.eqb].
    apply IH. intros i b Hi. exact (H (S i) b Hi).
Qed.

(** X3. When exactly one toggle button is active and the user switches it
    off, the reconciliation switches every button back on: after two passes
    all buttons are active and the full count is the recorded baseline. *)
Theorem deselecting_last_tag_reenables_all p t :
  timers p = 0 ->
  t < List.length (buttons p) ->
  (forall i b, nth_error (buttons p) i = Some b -> active b = (i =? t)) ->
  exists p',
    drain 2 (step (ClickToggle t) p) = Some p'
    /\ timers p' = 0
    /\ Forall (fun b => active b = true) (buttons p')
    /\ map data_type (buttons p') = map data_type (buttons p)
    /\ numActiveToggleButtons p' = List.length (buttons p').
Proof.
  intros Htm Ht Honly.
  set (p1 := step (ClickToggle t) p).
  assert (E1 : p1 = mkPage (toggle_nth t (buttons p)) (blocks p)
                           (numToggleButtons p) (numActiveToggleButtons p) 1).
  { subst p1. unfold step. apply Nat.ltb_lt in Ht. now rewrite Ht, Htm. }
  assert (Hnone : activeToggleButtons p1 = []).
  { rewrite E1. unfold activeToggleButtons. cbn [buttons].
    now apply deselect_only_active. }
  assert (Hs1 : special_case p1 = true).
  { unfold special_case. rewrite Hnone. cbn [List.length Nat.eqb].
    apply orb_true_r. }
  assert (Ht1 : timers p1 = 1) by now rewrite E1.
  rewrite (drain_step 1 p1 0 Ht1), (step_Timeout_special p1 0 Ht1 Hs1).
  set (p2 := mkPage _ _ _ _ _).
  assert (Hall : Forall (fun b => active b = true) (buttons p2))
    by (subst p2; cbn [buttons]; now apply none_active_all_toggled).
  assert (Hlen : List.length (buttons p2) = List.length (buttons p)).
  { subst p2. cbn [buttons]. rewrite length_map, E1. cbn [buttons].
    apply toggle_nth_length. }
  assert (Hs2 : special_case p2 = false)
    by (apply all_active_normal; [lia|assumption]).
  assert (Ht2 : timers p2 = 1) by reflexivity.
  destruct (step_Timeout_normal p2 0 Ht2 Hs2) as (Hb & Hk & _ & Ha & _).
  exists (step Timeout p2).
  rewrite (drain_step 0 p2 0 Ht2), (drain_done 0 _ Hk).
  split; [reflexivity|]. split; [exact Hk|]. rewrite Hb.
  split; [exact Hall|]. split.
  - subst p2. cbn [buttons]. rewrite E1. cbn [buttons].
    now rewrite toggle_all_data_type, toggle_nth_data_type.
  - rewrite Ha. unfold activeToggleButtons. now apply all_active_count.
Qed.

Lemma deselecting_last_tag_reenables_all_witness :
  let p := mkPage [mkButton "good" false; mkButton "warning" true;
                   mkButton "bad" false] [] 3 1 0 in
  exists p',
    drain 2 (step (ClickToggle 1) p) = Some p'
    /\ timers p' = 0
    /\ Forall (fun b => active b = true) (buttons p')
    /\ map data_type (buttons p') = map data_type (buttons p)
    /\ numActiveToggleButtons p' = List.length (buttons p').
Proof.
  apply (deselecting_last_tag_reenables_all
           (mkPage [mkButton "good" false; mkButton "warning" true;
                    mkButton "bad" false] [] 3 1 0) 1).
  - reflexivity.
  - cbn [buttons List.length]. lia.
  - intros [|[|[|i]]] b H; cbn [buttons nth_error] in H;
      try (injection H as <-; reflexivity).
    now destruct i.
Defined.

(** After a normal pass the next pass is a normal one as well. *)
Lemma normal_then_normal p q :
  special_case p = false ->
  numToggleButtons p = List.length (buttons p) ->
  buttons q = buttons p ->
  numToggleButtons q = numToggleButtons p ->
  numActiveToggleButtons q = List.length (activeToggleButtons p) ->
  special_case q = false.
Proof.
  intros Hs HnT Hb HT HA.
  pose proof (normal_active_nonempty p Hs) as Hne.
  pose proof (count_partition (buttons p)) as Hp.
  unfold special_case, inactiveToggleButtons, activeToggleButtons in *.
  rewrite Hb, HT, HA, HnT.
  apply orb_false_iff. split.
  - apply andb_false_iff.
    destruct (Nat.eqb_spec (List.length (filter (fun b => negb (active b))
                                                (buttons p))) 1) as [E|];
      [right|now left].
    apply Nat.eqb_neq. lia.
  - apply Nat.eqb_neq. destruct (filter active (buttons p)); [easy|].
    cbn [List.length]. lia.
Qed.

Lemma pass_on_block_idempotent A I b :
  reveal_by A (hide_by I (reveal_by A (hide_by I b)))
  = reveal_by A (hide_by I b).
Proof.
  set (r := reveal_by A (hide_by I b)).
  assert (Hr : classes r = classes b)
    by (subst r; now rewrite classes_reveal_by, classes_hide_by).
  assert (Hh : classes (hide_by I r) = classes b)
    by (now rewrite classes_hide_by).
  assert (Hhb : classes (hide_by I b) = classes b)
    by apply classes_hide_by.
  unfold reveal_by at 1.
  rewrite (existsb_tagged_classes A (hide_by I r) b Hh).
  unfold hide_by at 1 2.
  rewrite (existsb_tagged_classes I r b Hr).
  subst r. unfold reveal_by.
  rewrite (existsb_tagged_classes A (hide_by I b) b Hhb).
  destruct (existsb (fun btn => tagged_by btn b) A) eqn:EA.
  - now destruct (existsb (fun btn => tagged_by btn b) I);
      rewrite ?classes_hide_by.
  - unfold hide_by. destruct (existsb (fun btn => tagged_by btn b) I);
      reflexivity.
Qed.

(** X4. A reconciliation that runs again with no button changed in between
    (two callbacks queued by two quick clicks, say) changes nothing. *)
Theorem reconciliation_idempotent p :
  special_case p = false ->
  numToggleButtons p = List.length (buttons p) ->
  updateContent (updateContent p) = updateContent p.
Proof.
  intros Hs HnT.
  assert (E : updateContent p
              = mkPage (buttons p) (reveal_pass p (hide_pass p))
                       (numToggleButtons p)
                       (List.length (activeToggleButtons p)) (timers p))
    by (unfold updateContent; now rewrite Hs).
  rewrite E.
  assert (Hq : special_case
                 (mkPage (buttons p) (reveal_pass p (hide_pass p))
                         (numToggleButtons p)
                         (List.length (activeToggleButtons p)) (timers p))
               = false)
    by (now apply (normal_then_normal p)).
  unfold updateContent at 1. rewrite Hq.
  cbn [buttons numToggleButtons timers]. f_equal.
  unfold reveal_pass, hide_pass, activeToggleButtons, inactiveToggleButtons.
  cbn [buttons blocks].
  rewrite !fold_hide, !fold_reveal, !map_map.
  apply map_ext. intros b. apply pass_on_block_idempotent.
Qed.

Lemma reconciliation_idempotent_witness :
  updateContent (updateContent good_off_page) = updateContent good_off_page.
Proof.
  apply (reconciliation_idempotent good_off_page); reflexivity.
Defined.

Lemma tagged_by_ext btn btn' b b' :
  data_type btn' = data_type btn -> classes b' = classes b ->
  tagged_by btn' b' = tagged_by btn b.
Proof.
  intros Ed Ec. unfold tagged_by. rewrite Ed.
  apply (tagged_by_classes btn b' b Ec).
Qed.

Lemma marked_by_none_ext p q b b' :
  map data_type (buttons q) = map data_type (buttons p) ->
  classes b' = classes b ->
  marked_by_none p b -> marked_by_none q b'.
Proof.
  intros Hd Hc Hn btn Hin.
  assert (Hty : In (data_type btn) (map data_type (buttons p)))
    by (rewrite <- Hd; now apply in_map).
  apply in_map_iff in Hty. destruct Hty as [btn0 [E H0]].
  rewrite (tagged_by_ext btn0 btn b b'); auto.
Qed.

Lemma Forall2_chain {A : Type} (R1 R2 R3 : A -> A -> Prop) :
  (forall a b c, R1 a b -> R2 b c -> R3 a c) ->
  forall l1 l2 l3, Forall2 R1 l1 l2 -> Forall2 R2 l2 l3 -> Forall2 R3 l1 l3.
Proof.
  intros H l1 l2 l3 H12. revert l3.
  induction H12 as [|a b l1 l2 Hab _ IH]; intros l3 H23;
    inversion H23; subst; constructor; eauto.
Qed.

Lemma Forall2_map_self {A : Type} (R : A -> A -> Prop) (f : A -> A) l :
  (forall a, R a (f a)) -> Forall2 R l (map f l).
Proof. intros H. induction l; cbn [map]; constructor; auto. Qed.

Lemma kept_refl p l : Forall2 (kept p) l l.
Proof.
  rewrite <- (map_id l) at 2. apply Forall2_map_self. intros b. now split.
Qed.

Lemma not_marked_existsb p bs b :
  (forall btn, In btn bs -> In btn (buttons p)) ->
  marked_by_none p b ->
  existsb (fun btn => tagged_by btn b) bs = false.
Proof.
  intros Hsub Hn. apply not_true_iff_false. intros H.
  apply existsb_tagged in H. destruct H as [btn [Hin Ht]].
  rewrite (Hn btn (Hsub btn Hin)) in Ht. discriminate.
Qed.

Lemma updateContent_kept p :
  map data_type (buttons (updateContent p)) = map data_type (buttons p)
  /\ Forall2 (kept p) (blocks p) (blocks (updateContent p)).
Proof.
  destruct (special_case p) eqn:Hs.
  - unfold updateContent. rewrite Hs. cbn [buttons blocks]. split.
    + apply toggle_all_data_type.
    + apply kept_refl.
  - split; [now rewrite normal_pass_buttons|].
    rewrite normal_pass_blocks by assumption.
    apply Forall2_map_self. intros b. split.
    + now rewrite classes_reveal_by, classes_hide_by.
    + intros Hn.
      assert (HI : existsb (fun btn => tagged_by btn b) (inactiveToggleButtons p)
                   = false).
      { apply (not_marked_existsb p); [|assumption].
        intros btn H. now apply in_inactive in H. }
      assert (HA : existsb (fun btn => tagged_by btn b) (activeToggleButtons p)
                   = false).
      { apply (not_marked_existsb p); [|assumption].
        intros btn H. now apply in_active in H. }
      unfold hide_by. rewrite HI. unfold reveal_by. now rewrite HA.
Qed.

Lemma step_kept e p :
  map data_type (buttons (step e p)) = map data_type (buttons p)
  /\ numToggleButtons (step e p) = numToggleButtons p
  /\ Forall2 (kept p) (blocks p) (blocks (step e p)).
Proof.
  destruct e as [i| |]; unfold step.
  - destruct (i <? List.length (buttons p)); cbn [buttons blocks numToggleButtons].
    + split; [apply toggle_nth_data_type|]. split; [reflexivity|apply kept_refl].
    + split; [reflexivity|]. split; [reflexivity|apply kept_refl].
  - cbn [buttons blocks numToggleButtons].
    split; [apply enable_all_data_type|]. split; [reflexivity|apply kept_refl].
  - destruct (timers p) as [|k].
    + split; [reflexivity|]. split; [reflexivity|apply kept_refl].
    + set (q := mkPage _ _ _ _ k).
      destruct (updateContent_kept q) as [Hd Hk].
      split; [exact Hd|]. split.
      * unfold updateContent. now destruct (special_case q).
      * exact Hk.
Qed.

Lemma exec_kept evs : forall p,
  map data_type (buttons (exec evs p)) = map data_type (buttons p)
  /\ numToggleButtons (exec evs p) = numToggleButtons p
  /\ Forall2 (kept p) (blocks p) (blocks (exec evs p)).
Proof.
  induction evs as [|e evs IH]; intros p.
  - split; [reflexivity|]. split; [reflexivity|apply kept_refl].
  - change (exec (e :: evs) p) with (exec evs (step e p)).
    destruct (IH (step e p)) as (Hd & Hn & Hk).
    destruct (step_kept e p) as (Hd1 & Hn1 & Hk1).
    split; [now rewrite Hd|]. split; [now rewrite Hn|].
    refine (Forall2_chain (kept p) (kept (step e p)) (kept p)
                          _ _ _ _ Hk1 Hk).
    intros a b c [Hc1 Hu1] [Hc2 Hu2]. split; [now rewrite Hc2|].
    intros Hm. rewrite Hu2, Hu1; auto.
    now apply (marked_by_none_ext p (step e p) a b).
Qed.

(** X5. The data-types of the toggle buttons being names: whatever the
    sequence of clicks and callbacks, the filter keeps the toggle buttons'
    tags and the recorded button count, never changes the classes of a
    block, and never changes the inline display of a block that has the
    marker class of no toggle button. *)
Theorem filter_never_touches_untracked evs : forall p,
  well_tagged p ->
  map data_type (buttons (exec evs p)) = map data_type (buttons p)
  /\ numToggleButtons (exec evs p) = numToggleButtons p
  /\ Forall2 (left_alone p) (blocks p) (blocks (exec evs p)).
Proof.
  intros p Hw. destruct (exec_kept evs p) as (Hd & Hn & Hk).
  split; [exact Hd|]. split; [exact Hn|].
  apply (Forall2_impl (left_alone p)) with (2 := Hk).
  intros b b' [Hc Hu]. split; [exact Hc|].
  intros Hun. apply Hu. intros btn Hin.
  rewrite (well_tagged_bridge p b Hw btn Hin). now apply Hun.
Qed.

Lemma filter_never_touches_untracked_witness :
  map data_type (buttons (exec [ClickToggle 1; Timeout] untagged_block_page))
  = map data_type (buttons untagged_block_page)
  /\ numToggleButtons (exec [ClickToggle 1; Timeout] untagged_block_page)
     = numToggleButtons untagged_block_page
  /\ Forall2 (left_alone untagged_block_page)
             (blocks untagged_block_page)
             (blocks (exec [ClickToggle 1; Timeout] untagged_block_page)).
Proof.
  apply (filter_never_touches_untracked [ClickToggle 1; Timeout]
                                        untagged_block_page).
  repeat constructor.
Defined.

(** A run of normal passes empties the queue. *)
Lemma normal_passes_drain k : forall p fuel,
  timers p = k -> k <= fuel ->
  numToggleButtons p = List.length (buttons p) ->
  special_case p = false ->
  exists p', drain fuel p = Some p' /\ timers p' = 0
             /\ buttons p' = buttons p.
Proof.
  induction k as [|k IH]; intros p fuel Ht Hf HnT Hs.
  - exists p. split; [now apply drain_done|]. now split.
  - destruct fuel as [|fuel]; [lia|].
    rewrite (drain_step fuel p k Ht).
    destruct (step_Timeout_normal p k Ht Hs) as (Hb & Hk & HT & HA & _).
    destruct (IH (step Timeout p) fuel Hk) as (p' & Hd & H0 & Hb');
      [lia|now rewrite HT, Hb| |].
    + now apply (normal_then_normal p).
    + exists p'. split; [assumption|]. split; [assumption|]. now rewrite Hb'.
Qed.

Lemma exec_numToggle evs : forall p,
  numToggleButtons (exec evs p) = numToggleButtons p.
Proof.
  induction evs as [|e evs IH]; intros p; [reflexivity|].
  change (exec (e :: evs) p) with (exec evs (step e p)).
  rewrite IH. now destruct (step_kept e p) as (_ & H & _).
Qed.

Lemma addEventHandler_numToggle p0 :
  numToggleButtons (addEventHandler p0) = List.length (buttons p0).
Proof.
  unfold addEventHandler, updateContent. now destruct (special_case _).
Qed.

Lemma drain_after_events p0 evs :
  1 <= List.length (buttons p0) ->
  List.length (buttons p0) <> 2 ->
  exists p',
    drain (S (timers (exec evs (addEventHandler p0))))
          (exec evs (addEventHandler p0)) = Some p'
    /\ timers p' = 0.
Proof.
  intros Hn H2.
  set (p := exec evs (addEventHandler p0)).
  assert (Hlen : List.length (buttons p) = List.length (buttons p0))
    by (subst p; now rewrite exec_length, addEventHandler_length).
  assert (HnT : numToggleButtons p = List.length (buttons p))
    by (subst p; rewrite exec_numToggle, addEventHandler_numToggle;
        now rewrite exec_length, addEventHandler_length).
  destruct (timers p) as [|k] eqn:Ht.
  - exists p. split; [now apply drain_done|assumption].
  - destruct (special_case p) eqn:Hs.
    + rewrite (drain_step (S k) p k Ht), (step_Timeout_special p k Ht Hs).
      destruct (normal_passes_drain (S k)
                  (mkPage (map button_toggle (buttons p)) (blocks p)
                          (numToggleButtons p) (numActiveToggleButtons p) (S k))
                  (S k) eq_refl (le_n _)) as (p' & Hd & H0 & _).
      * cbn [numToggleButtons buttons]. now rewrite length_map.
      * apply special_then_normal; [lia| |assumption].
        intros (Hl & _). lia.
      * now exists p'.
    + destruct (normal_passes_drain (S k) p (S (S k)) Ht) as (p' & Hd & H0 & _);
        try assumption; [lia|].
      now exists p'.
Qed.

(** X6. On a page with at least one toggle button, other than exactly two,
    the queued reconciliations always run out, whatever clicks and callbacks
    came before and however many callbacks are queued: one pass more than
    the number of queued callbacks is enough. *)
Theorem reconciliation_terminates_after_any_events p0 evs :
  1 <= List.length (buttons p0) ->
  List.length (buttons p0) <> 2 ->
  exists p',
    drain (S (timers (exec evs (addEventHandler p0))))
          (exec evs (addEventHandler p0)) = Some p'
    /\ timers p' = 0.
Proof. apply drain_after_events. Qed.

Lemma reconciliation_terminates_after_any_events_witness :
  let p0 := mkPage [mkButton "notag" true; mkButton "good" true;
                    mkButton "warning" true; mkButton "bad" true] [] 0 0 0 in
  let evs := [ClickToggle 1; ClickToggle 2; Timeout; ClickToggle 0] in
  exists p',
    drain (S (timers (exec evs (addEventHandler p0))))
          (exec evs (addEventHandler p0)) = Some p'
    /\ timers p' = 0.
Proof.
  apply (reconciliation_terminates_after_any_events
           (mkPage [mkButton "notag" true; mkButton "good" true;
                    mkButton "warning" true; mkButton "bad" true] [] 0 0 0)
           [ClickToggle 1; ClickToggle 2; Timeout; ClickToggle 0]);
    cbn [buttons List.length]; lia.
Defined.

End FilterBehaviour.



(* ================================================================== *)
(** ** Properties of the collapse scripts *)
(* ================================================================== *)

Section CollapseFacts.
Import Collapse.

(** *** Which calls touch which part of the world *)

Lemma run_app cs1 cs2 w : run (cs1 ++ cs2) w = run cs2 (run cs1 w).
Proof. unfold run. apply fold_left_app. Qed.

Lemma run_frame {A : Type} (f : world -> A) (touches : call -> bool) :
  (forall c w, touches c = false -> f (interp c w) = f w) ->
  forall cs w, forallb (fun c => negb (touches c)) cs = true ->
               f (run cs w) = f w.
Proof.
  intros Hf. induction cs as [|c cs IH]; intros w H; [reflexivity|].
  cbn [forallb] in H. apply andb_true_iff in H. destruct H as [Hc Hcs].
  apply negb_true_iff in Hc. unfold run in *. cbn [fold_left].
  now rewrite IH, Hf.
Qed.

Lemma interp_button c w :
  sets_button c = false ->
  (btn_mode (interp c w), btn_text (interp c w)) = (btn_mode w, btn_text w).
Proof. destruct c; intros H; try discriminate; reflexivity. Qed.

Lemma interp_click c w :
  sets_click c = false ->
  (click_bound (interp c w), timers (interp c w)) = (click_bound w, timers w).
Proof. destruct c; intros H; try discriminate; reflexivity. Qed.

Lemma interp_texts c w :
  (btn_textExpand (interp c w), btn_textCollapse (interp c w))
  = (btn_textExpand w, btn_textCollapse w).
Proof. destruct c; reflexivity. Qed.

Lemma forallb_one_then_collapse (P : call -> bool) ev h d sel :
  (forall e, P (One e ev h) = true) ->
  (forall e, P (CollapseCall e d) = true) ->
  forallb P (map (fun e => One e ev h) sel
             ++ map (fun e => CollapseCall e d) sel) = true.
Proof.
  intros H1 H2. rewrite forallb_app. apply andb_true_iff.
  split; apply forallb_forall; intros c Hc; apply in_map_iff in Hc;
    destruct Hc as [e [<- _]]; auto.
Qed.

Lemma forallb_scroll (P : call -> bool) a :
  (forall x, P (ScrollIntoView x) = true) ->
  forallb P (scrollBlockIntoView a) = true.
Proof. intros H. destruct a; cbn; [reflexivity|]. now rewrite H. Qed.

(** The calls of the collapse-all dispatch. *)
Lemma onClick_calls (P : call -> bool) w :
  (forall e ev h, P (One e ev h) = true) ->
  (forall e d, P (CollapseCall e d) = true) ->
  forallb P (onClick w) = true.
Proof.
  intros H1 H2. unfold onClick, collapse, expand.
  destruct (String.eqb _ _); apply forallb_one_then_collapse; auto.
Qed.

Lemma showBlock_calls (P : call -> bool) blockJq a :
  (forall e ev h, P (One e ev h) = true) ->
  (forall e d, P (CollapseCall e d) = true) ->
  forallb P (showBlockAndScrollIntoView blockJq a) = true.
Proof.
  intros H1 H2. unfold showBlockAndScrollIntoView.
  apply forallb_one_then_collapse; auto.
Qed.

(** The calls of the sidebar click. *)
Lemma onClick_link_calls (P : call -> bool) sid bid w :
  (forall e ev h, P (One e ev h) = true) ->
  (forall e d, P (CollapseCall e d) = true) ->
  (forall x, P (ScrollIntoView x) = true) ->
  forallb P (onClick_link sid bid w) = true.
Proof.
  intros H1 H2 H3. unfold onClick_link.
  destruct (isCollapsableShown _ w).
  - destruct (isCollapsableShown _ w).
    + now apply forallb_scroll.
    + now apply showBlock_calls.
  - apply forallb_one_then_collapse; auto.
Qed.

Lemma handler_calls_click h w :
  forallb (fun c => negb (sets_click c)) (handler_body h w) = true.
Proof.
  destruct h; cbn [handler_body]; try reflexivity.
  - now apply showBlock_calls.
  - now apply forallb_scroll.
Qed.

Lemma fire_click hs : forall w,
  (click_bound (fire hs w), timers (fire hs w)) = (click_bound w, timers w).
Proof.
  induction hs as [|h hs IH]; intros w; [reflexivity|].
  unfold fire in *. cbn [fold_left]. rewrite IH.
  apply (run_frame (fun v => (click_bound v, timers v)) sets_click).
  - apply interp_click.
  - apply handler_calls_click.
Qed.

(** *** The one-shot click handler *)

Lemma step_click_fields ev w :
  (click_bound (step ev w), timers (step ev w))
  = match ev with
    | ClickToggleAll =>
        if click_bound w then (false, S (timers w))
        else (click_bound w, timers w)
    | Timeout =>
        match timers w with
        | 0 => (click_bound w, timers w)
        | S k => (true, k)
        end
    | _ => (click_bound w, timers w)
    end.
Proof.
  destruct ev as [| |sid bid| |e|e]; cbn [step].
  - destruct (click_bound w) eqn:E; [reflexivity|now rewrite E].
  - destruct (timers w) as [|k] eqn:Hk; [now rewrite Hk|].
    set (v := with_timers k w).
    unfold deferred_callback. rewrite run_app.
    pose proof (run_frame (fun v => (click_bound v, timers v)) sets_click
                          interp_click (onClick v) v
                          (onClick_calls _ v (fun _ _ _ => eq_refl)
                                         (fun _ _ => eq_refl))) as E.
    cbn beta in E. injection E as _ E.
    change (run setClickHandler (run (onClick v) v))
      with (with_click_bound true (run (onClick v) v)).
    cbn [with_click_bound click_bound timers]. now rewrite E.
  - apply (run_frame (fun v => (click_bound v, timers v)) sets_click
                     interp_click).
    now apply onClick_link_calls.
  - apply (run_frame (fun v => (click_bound v, timers v)) sets_click
                     interp_click).
    now apply onClick_link_calls.
  - reflexivity.
  - destruct (nth_error (panels w) e) as [c|]; [|reflexivity].
    destruct (finish c) as [c' hs]. now rewrite fire_click.
Qed.

Lemma step_click_guard ev w : click_guard w -> click_guard (step ev w).
Proof.
  intros H. unfold click_guard.
  pose proof (step_click_fields ev w) as E.
  destruct H as [[Hb Ht]|[Hb Ht]]; rewrite Hb, Ht in E;
    destruct ev; apply pair_equal_spec in E; destruct E as [E1 E2];
    rewrite E1, E2; auto.
Qed.

Lemma exec_click_guard evs : forall w,
  click_guard w -> click_guard (exec evs w).
Proof.
  induction evs as [|ev evs IH]; intros w H; [assumption|].
  unfold exec in *. cbn [fold_left]. now apply IH, step_click_guard.
Qed.

(** C6 (amended). The one-shot click handler is bound again at the end of
    the zero-delay callback that dispatches [onClick], without waiting for
    the animations: at every moment either the handler is bound and nothing
    is queued, or it is unbound and exactly one dispatch is queued; a click
    arriving while a dispatch is queued is ignored, and running the queued
    dispatch binds the handler again. *)
Theorem click_handler_rearmed_after_dispatch w0 evs :
  click_bound w0 = true -> timers w0 = 0 ->
  click_guard (exec evs w0)
  /\ (click_bound (exec evs w0) = false ->
      step ClickToggleAll (exec evs w0) = exec evs w0
      /\ click_bound (step Timeout (exec evs w0)) = true
      /\ timers (step Timeout (exec evs w0)) = 0).
Proof.
  intros Hb Ht.
  assert (G : click_guard (exec evs w0))
    by (apply exec_click_guard; left; now split).
  split; [exact G|]. intros Hu.
  destruct G as [[Hb' _]|[_ Ht']]; [congruence|].
  split; [cbn [step]; now rewrite Hu|].
  pose proof (step_click_fields Timeout (exec evs w0)) as E.
  rewrite Ht' in E. apply pair_equal_spec in E. exact E.
Qed.

Lemma click_handler_rearmed_after_dispatch_witness :
  click_guard (exec [ClickToggleAll] two_open_blocks)
  /\ (click_bound (exec [ClickToggleAll] two_open_blocks) = false ->
      step ClickToggleAll (exec [ClickToggleAll] two_open_blocks)
      = exec [ClickToggleAll] two_open_blocks
      /\ click_bound (step Timeout (exec [ClickToggleAll] two_open_blocks))
         = true
      /\ timers (step Timeout (exec [ClickToggleAll] two_open_blocks)) = 0).
Proof.
  apply (click_handler_rearmed_after_dispatch two_open_blocks [ClickToggleAll]);
    reflexivity.
Defined.

(** The handler is bound again while the collapse animations of the first
    click are running; after one of them has ended a second click expands
    that block while the other block is still collapsing. *)
Lemma second_transition_starts_during_first :
  let w1 := exec [ClickToggleAll; Timeout] two_open_blocks in
  let w2 := exec [AnimationEnd 0; ClickToggleAll; Timeout] w1 in
  animating w1 = true
  /\ click_bound w1 = true
  /\ phase_of 0 w1 = Some Hiding /\ phase_of 1 w1 = Some Hiding
  /\ phase_of 0 w2 = Some Showing /\ phase_of 1 w2 = Some Hiding.
Proof. repeat split. Qed.

(** *** Selections and updates by position *)

Lemma nth_error_update_nth {A : Type} (f : A -> A) : forall l i j,
  nth_error (update_nth i f l) j
  = if i =? j then option_map f (nth_error l j) else nth_error l j.
Proof.
  induction l as [|x l IH]; intros i j.
  - destruct i as [|i], j as [|j]; cbn [update_nth nth_error Nat.eqb option_map];
      try reflexivity.
    now destruct (i =? j).
  - destruct i as [|i], j as [|j]; cbn [update_nth nth_error Nat.eqb];
      try reflexivity.
    apply IH.
Qed.

Lemma iter_shift {A : Type} (f : A -> A) n x :
  Nat.iter n f (f x) = f (Nat.iter n f x).
Proof. now rewrite <- Nat.iter_succ_r. Qed.

Lemma nth_error_update_many {A : Type} (f : A -> A) sel : forall l j,
  nth_error (update_many f sel l) j
  = option_map (Nat.iter (count_occ Nat.eq_dec sel j) f) (nth_error l j).
Proof.
  induction sel as [|e sel IH]; intros l j; unfold update_many in *;
    cbn [fold_left count_occ].
  - now destruct (nth_error l j).
  - rewrite IH, nth_error_update_nth.
    destruct (Nat.eq_dec e j) as [->|Hne].
    + rewrite Nat.eqb_refl. destruct (nth_error l j); cbn [option_map];
        [|reflexivity].
      now rewrite iter_shift.
    + apply Nat.eqb_neq in Hne. now rewrite Hne.
Qed.

Lemma positions_bounds {A : Type} (f : A -> bool) : forall l i e,
  In e (positions f i l) ->
  i <= e /\ exists c, nth_error l (e - i) = Some c /\ f c = true.
Proof.
  induction l as [|x l IH]; intros i e H; cbn [positions] in H; [easy|].
  assert (Hrec : In e (positions f (S i) l) ->
                 i <= e /\ exists c, nth_error (x :: l) (e - i) = Some c
                                     /\ f c = true).
  { intros H'. destruct (IH _ _ H') as (Hle & c & Hn & Hf).
    split; [lia|]. exists c. split; [|assumption].
    replace (e - i) with (S (e - S i)) by lia. exact Hn. }
  destruct (f x) eqn:Hx; [|now apply Hrec].
  destruct H as [<-|H]; [|now apply Hrec].
  split; [lia|]. exists x. now rewrite Nat.sub_diag.
Qed.

Lemma positions_complete {A : Type} (f : A -> bool) : forall l i n c,
  nth_error l n = Some c -> f c = true -> In (i + n) (positions f i l).
Proof.
  induction l as [|x l IH]; intros i n c Hn Hf; [now destruct n|].
  cbn [positions]. destruct n as [|n]; cbn [nth_error] in Hn.
  - injection Hn as ->. rewrite Hf, Nat.add_0_r. now left.
  - replace (i + S n) with (S i + n) by lia.
    destruct (f x); [right|]; now apply (IH _ _ c).
Qed.

Lemma positions_NoDup {A : Type} (f : A -> bool) : forall l i,
  NoDup (positions f i l).
Proof.
  induction l as [|x l IH]; intros i; cbn [positions]; [constructor|].
  destruct (f x); [|apply IH].
  constructor; [|apply IH].
  intros H. apply positions_bounds in H. lia.
Qed.

Lemma firstn_1_NoDup {A : Type} (l : list A) : NoDup (firstn 1 l).
Proof.
  destruct l as [|x l]; cbn [firstn]; repeat constructor. easy.
Qed.

Lemma jq_id_NoDup sel w : NoDup (jq_id sel w).
Proof.
  unfold jq_id. destruct sel as [|a s]; [constructor|].
  destruct (Ascii.eqb a "#"%char) eqn:E.
  - apply Ascii.eqb_eq in E. subst a. apply firstn_1_NoDup.
  - destruct a as [[] [] [] [] [] [] [] []]; try constructor.
    apply firstn_1_NoDup.
Qed.

Lemma count_occ_NoDup_In sel e :
  NoDup sel -> In e sel -> count_occ Nat.eq_dec sel e = 1.
Proof.
  intros Hnd Hin. apply NoDup_count_occ with (decA := Nat.eq_dec) (x := e) in Hnd.
  apply (count_occ_In Nat.eq_dec) in Hin. lia.
Qed.

(** *** Running a registration pass and an animation pass *)

Lemma with_panels_same w : with_panels (panels w) w = w.
Proof. now destruct w. Qed.

Lemma run_panels_only (mk : nat -> call) (f : collapsible -> collapsible) sel :
  (forall e w, interp (mk e) w
               = with_panels (update_nth e f (panels w)) w) ->
  forall w, run (map mk sel) w
            = with_panels (update_many f sel (panels w)) w.
Proof.
  intros Hmk. induction sel as [|e sel IH]; intros w.
  - cbn. now rewrite with_panels_same.
  - unfold run in *. cbn [map fold_left]. rewrite IH, Hmk. reflexivity.
Qed.

(** The world after [$(sel).one(ev, h).collapse(d)]. *)
Lemma run_one_then_collapse sel ev h d w :
  run (map (fun e => One e ev h) sel ++ map (fun e => CollapseCall e d) sel) w
  = with_panels
      (update_many (plugin d) sel (update_many (add_once ev h) sel (panels w)))
      w.
Proof.
  rewrite run_app.
  rewrite (run_panels_only (fun e => One e ev h) (add_once ev h))
    by reflexivity.
  rewrite (run_panels_only (fun e => CollapseCall e d) (plugin d))
    by reflexivity.
  reflexivity.
Qed.

Lemma nth_error_one_then_collapse sel ev h d w j :
  NoDup sel ->
  nth_error (panels (run (map (fun e => One e ev h) sel
                          ++ map (fun e => CollapseCall e d) sel) w)) j
  = if existsb (Nat.eqb j) sel
    then option_map (fun c => plugin d (add_once ev h c)) (nth_error (panels w) j)
    else nth_error (panels w) j.
Proof.
  intros Hnd. rewrite run_one_then_collapse. cbn [with_panels panels].
  rewrite !nth_error_update_many.
  destruct (existsb (Nat.eqb j) sel) eqn:E.
  - apply existsb_exists in E. destruct E as [x [Hx E]].
    apply Nat.eqb_eq in E. subst x.
    rewrite (count_occ_NoDup_In sel j Hnd Hx).
    now destruct (nth_error (panels w) j).
  - assert (Hnot : ~ In j sel).
    { intros Hin. rewrite <- not_true_iff_false in E. apply E.
      apply existsb_exists. exists j. split; [assumption|apply Nat.eqb_refl]. }
    apply (count_occ_not_In Nat.eq_dec) in Hnot. rewrite Hnot.
    now destruct (nth_error (panels w) j).
Qed.

(** *** The collapse-all dispatch *)

Lemma run_texts cs : forall w,
  (btn_textExpand (run cs w), btn_textCollapse (run cs w))
  = (btn_textExpand w, btn_textCollapse w).
Proof.
  induction cs as [|c cs IH]; intros w; [reflexivity|].
  unfold run in *. cbn [fold_left]. now rewrite IH, interp_texts.
Qed.

Lemma run_button cs w :
  forallb (fun c => negb (sets_button c)) cs = true ->
  (btn_mode (run cs w), btn_text (run cs w)) = (btn_mode w, btn_text w).
Proof.
  apply (run_frame (fun v => (btn_mode v, btn_text v)) sets_button).
  apply interp_button.
Qed.

Lemma step_Timeout_world w k :
  timers w = S k ->
  step Timeout w
  = with_click_bound true (run (onClick (with_timers k w)) (with_timers k w)).
Proof.
  intros H. cbn [step]. rewrite H. unfold deferred_callback.
  now rewrite run_app.
Qed.

(** The button changes only when the animation of an element ends. *)
Lemma button_changes_only_at_animation_end w ev :
  (btn_mode (step ev w), btn_text (step ev w)) <> (btn_mode w, btn_text w) ->
  exists e c, ev = AnimationEnd e
              /\ nth_error (panels w) e = Some c
              /\ transitioning (el_phase c) = true.
Proof.
  intros H. destruct ev as [| |sid bid| |e|e].
  - exfalso. apply H. cbn [step]. now destruct (click_bound w).
  - exfalso. apply H. cbn [step]. destruct (timers w) as [|k]; [reflexivity|].
    rewrite run_button; [reflexivity|]. unfold deferred_callback.
    rewrite forallb_app. apply andb_true_iff. split; [|reflexivity].
    now apply onClick_calls.
  - exfalso. apply H. cbn [step]. apply run_button.
    now apply onClick_link_calls.
  - exfalso. apply H. cbn [step]. apply run_button.
    now apply onClick_link_calls.
  - exfalso. now apply H.
  - exists e. cbn [step] in H.
    destruct (nth_error (panels w) e) as [c|] eqn:Hn; [|now exfalso; apply H].
    exists c. repeat split.
    destruct (el_phase c) eqn:Hp; try reflexivity; exfalso; apply H;
      unfold finish; rewrite Hp; reflexivity.
Qed.

(** What the dispatch does to a block that is not yet in the target state
    and holds no handler. *)
Lemma dispatch_starts_animation w e c :
  nth_error (panels w) e = Some c ->
  panel_collapse c = true ->
  once_shown c = [] -> once_hidden c = [] ->
  el_phase c = (if String.eqb (btn_mode w) "expanded" then Shown else Hidden) ->
  nth_error (panels (run (onClick w) w)) e
  = Some (if String.eqb (btn_mode w) "expanded"
          then mkCollapsible (el_id c) true Hiding [] [LabelCollapsed]
          else mkCollapsible (el_id c) true Showing [LabelExpanded] []).
Proof.
  intros Hn Hpc Hs Hh Hp. destruct c as [id pc ph os oh].
  cbn [panel_collapse once_shown once_hidden el_phase el_id] in *. subst.
  unfold onClick, collapse, expand.
  destruct (String.eqb (btn_mode w) "expanded").
  - rewrite nth_error_one_then_collapse by apply positions_NoDup.
    assert (In e (collapsableSelector w))
      by (apply (positions_complete panel_collapse _ 0 e _ Hn); reflexivity).
    replace (existsb (Nat.eqb e) (collapsableSelector w)) with true.
    + now rewrite Hn.
    + symmetry. apply existsb_exists. exists e. split; [assumption|].
      apply Nat.eqb_refl.
  - rewrite nth_error_one_then_collapse by apply positions_NoDup.
    assert (In e (collapsableSelector_not_in w))
      by (apply (positions_complete _ _ 0 e _ Hn); reflexivity).
    replace (existsb (Nat.eqb e) (collapsableSelector_not_in w)) with true.
    + now rewrite Hn.
    + symmetry. apply existsb_exists. exists e. split; [assumption|].
      apply Nat.eqb_refl.
Qed.

(** C5 (amended). The deferred dispatch of a global expand or collapse does
    not touch the stored mode or the label of the button; afterwards they
    change only when an animation ends, and the end of the animation of any
    single block that the dispatch started already sets the mode and the
    label to their new values, whether or not other blocks are still
    animating. *)
Theorem mode_update_at_each_completion w k e c :
  timers w = S k ->
  nth_error (panels w) e = Some c ->
  panel_collapse c = true ->
  once_shown c = [] -> once_hidden c = [] ->
  el_phase c = (if String.eqb (btn_mode w) "expanded" then Shown else Hidden) ->
  btn_mode (step Timeout w) = btn_mode w
  /\ btn_text (step Timeout w) = btn_text w
  /\ phase_of e (step Timeout w)
     = Some (if String.eqb (btn_mode w) "expanded" then Hiding else Showing)
  /\ btn_mode (step (AnimationEnd e) (step Timeout w))
     = (if String.eqb (btn_mode w) "expanded" then "collapsed" else "expanded")
  /\ btn_text (step (AnimationEnd e) (step Timeout w))
     = (if String.eqb (btn_mode w) "expanded"
        then btn_textExpand w else btn_textCollapse w)
  /\ (forall ev,
        (btn_mode (step ev (step Timeout w)), btn_text (step ev (step Timeout w)))
        <> (btn_mode (step Timeout w), btn_text (step Timeout w)) ->
        exists e', ev = AnimationEnd e').
Proof.
  intros Ht Hn Hpc Hs Hh Hp.
  rewrite (step_Timeout_world w k Ht).
  set (v := with_timers k w).
  assert (Hbtn : (btn_mode (run (onClick v) v), btn_text (run (onClick v) v))
                 = (btn_mode w, btn_text w)).
  { rewrite run_button; [reflexivity|]. now apply onClick_calls. }
  apply pair_equal_spec in Hbtn. destruct Hbtn as [Hm Hx].
  pose proof (run_texts (onClick v) v) as Htx.
  apply pair_equal_spec in Htx. destruct Htx as [Hte Htc].
  pose proof (dispatch_starts_animation v e c Hn Hpc Hs Hh Hp) as Hc.
  change (btn_mode v) with (btn_mode w) in Hc.
  set (w1 := with_click_bound true (run (onClick v) v)).
  assert (Hc1 : nth_error (panels w1) e
                = Some (if String.eqb (btn_mode w) "expanded"
                        then mkCollapsible (el_id c) true Hiding [] [LabelCollapsed]
                        else mkCollapsible (el_id c) true Showing [LabelExpanded] []))
    by exact Hc.
  split; [exact Hm|]. split; [exact Hx|].
  split; [unfold phase_of; rewrite Hc1; now destruct (String.eqb _ _)|].
  assert (Hfire :
    btn_mode (step (AnimationEnd e) w1)
    = (if String.eqb (btn_mode w) "expanded" then "collapsed" else "expanded")
    /\ btn_text (step (AnimationEnd e) w1)
       = (if String.eqb (btn_mode w) "expanded"
          then btn_textExpand w1 else btn_textCollapse w1)).
  { cbn [step]. rewrite Hc1. now destruct (String.eqb (btn_mode w) "expanded"). }
  destruct Hfire as [F1 F2]. split; [exact F1|]. split.
  - rewrite F2. subst w1. cbn [with_click_bound btn_textExpand btn_textCollapse].
    now rewrite Hte, Htc.
  - intros ev Hev.
    destruct (button_changes_only_at_animation_end w1 ev Hev) as (e' & _ & E & _).
    now exists e'.
Qed.

Lemma mode_update_at_each_completion_witness :
  btn_mode (step Timeout (step ClickToggleAll two_open_blocks)) = "expanded"
  /\ btn_text (step Timeout (step ClickToggleAll two_open_blocks))
     = "Collapse all"
  /\ phase_of 0 (step Timeout (step ClickToggleAll two_open_blocks))
     = Some Hiding
  /\ btn_mode (step (AnimationEnd 0)
                    (step Timeout (step ClickToggleAll two_open_blocks)))
     = "collapsed"
  /\ btn_text (step (AnimationEnd 0)
                    (step Timeout (step ClickToggleAll two_open_blocks)))
     = "Expand all"
  /\ (forall ev,
        (btn_mode (step ev (step Timeout (step ClickToggleAll two_open_blocks))),
         btn_text (step ev (step Timeout (step ClickToggleAll two_open_blocks))))
        <> (btn_mode (step Timeout (step ClickToggleAll two_open_blocks)),
            btn_text (step Timeout (step ClickToggleAll two_open_blocks))) ->
        exists e', ev = AnimationEnd e').
Proof.
  apply (mode_update_at_each_completion
           (step ClickToggleAll two_open_blocks) 0 0
           (mkCollapsible "collapse-block__a" true Shown [] []));
    reflexivity.
Defined.

(** The button flips when the first of two collapse animations ends, while
    the second block is still collapsing. *)
Lemma mode_flips_before_all_animations_end :
  let w := exec [ClickToggleAll; Timeout; AnimationEnd 0] two_open_blocks in
  btn_mode w = "collapsed"
  /\ btn_text w = "Expand all"
  /\ phase_of 1 w = Some Hiding
  /\ animating w = true.
Proof. repeat split. Qed.

(** *** A dispatch that finds every block in the target state *)

Lemma positions_map {A B : Type} (h : A -> B) (g : B -> bool) : forall l i,
  positions (fun x => g (h x)) i l = positions g i (map h l).
Proof.
  induction l as [|x l IH]; intros i; cbn [positions map]; [reflexivity|].
  now rewrite !IH.
Qed.

Lemma onClick_shape w w' :
  btn_mode w' = btn_mode w ->
  map shape (panels w') = map shape (panels w) ->
  onClick w' = onClick w.
Proof.
  intros Hm Hs. unfold onClick, collapse, expand. rewrite Hm.
  assert (E1 : collapsableSelector w' = collapsableSelector w).
  { unfold collapsableSelector.
    change panel_collapse with (fun c => fst (shape c)).
    now rewrite !(positions_map shape fst), Hs. }
  assert (E2 : collapsableSelector_not_in w' = collapsableSelector_not_in w).
  { unfold collapsableSelector_not_in.
    change (fun c => panel_collapse c && negb (has_in (el_phase c)))
      with (fun c => (fun s => fst s && negb (has_in (snd s))) (shape c)).
    now rewrite !(positions_map shape (fun s => fst s && negb (has_in (snd s)))),
      Hs. }
  now rewrite E1, E2.
Qed.

Lemma animating_shape w :
  animating w = existsb (fun s => transitioning (snd s)) (map shape (panels w)).
Proof.
  unfold animating. induction (panels w) as [|c l IH]; cbn [existsb map];
    [reflexivity|].
  now rewrite IH.
Qed.

Lemma update_nth_same {A : Type} (x : A) : forall l e,
  nth_error l e = Some x -> update_nth e (fun _ => x) l = l.
Proof.
  induction l as [|y l IH]; intros [|e] H; cbn [update_nth nth_error] in *;
    try discriminate.
  - now injection H as ->.
  - now rewrite IH.
Qed.

(** With no animation running, the end-of-animation event has no effect. *)
Lemma AnimationEnd_idle w e :
  animating w = false -> step (AnimationEnd e) w = w.
Proof.
  intros H. cbn [step].
  destruct (nth_error (panels w) e) as [c|] eqn:Hn; [|reflexivity].
  assert (Hc : transitioning (el_phase c) = false).
  { unfold animating in H. rewrite <- not_true_iff_false in H.
    apply not_true_iff_false. intros Hc. apply H. apply existsb_exists.
    exists c. split; [|assumption]. now apply nth_error_In in Hn. }
  unfold finish. destruct (el_phase c); try discriminate;
    cbn [fire fold_left]; now rewrite update_nth_same, with_panels_same.
Qed.

Lemma exec_AnimationEnd_idle es : forall w,
  animating w = false -> exec (map AnimationEnd es) w = w.
Proof.
  induction es as [|e es IH]; intros w H; [reflexivity|].
  unfold exec in *. cbn [map fold_left].
  rewrite AnimationEnd_idle by assumption. now apply IH.
Qed.

Lemma plugin_in_target d c :
  el_phase c = match d with Show => Shown | Hide => Hidden end ->
  plugin d c = c.
Proof.
  intros H. destruct d; cbn [plugin]; unfold collapse_show, collapse_hide;
    now rewrite H.
Qed.

Lemma shape_add_once ev h c : shape (add_once ev h c) = shape c.
Proof. now destruct ev. Qed.

Lemma nth_error_ext_map {A B : Type} (f : A -> B) l l' :
  (forall j, option_map f (nth_error l j) = option_map f (nth_error l' j)) ->
  map f l = map f l'.
Proof.
  revert l'. induction l as [|x l IH]; intros [|y l'] H; cbn [map].
  - reflexivity.
  - specialize (H 0). discriminate.
  - specialize (H 0). discriminate.
  - f_equal.
    + specialize (H 0). now injection H.
    + apply IH. intros j. exact (H (S j)).
Qed.

(** A registration pass followed by plugin calls that the guard rejects
    leaves classes untouched. *)
Lemma one_then_collapse_noop sel ev h d w :
  NoDup sel ->
  (forall e c, In e sel -> nth_error (panels w) e = Some c ->
               el_phase c = match d with Show => Shown | Hide => Hidden end) ->
  map shape (panels (run (map (fun e => One e ev h) sel
                          ++ map (fun e => CollapseCall e d) sel) w))
  = map shape (panels w).
Proof.
  intros Hnd Htar. apply nth_error_ext_map. intros j.
  rewrite nth_error_one_then_collapse by assumption.
  destruct (existsb (Nat.eqb j) sel) eqn:E; [|reflexivity].
  apply existsb_exists in E. destruct E as [x [Hx E]].
  apply Nat.eqb_eq in E. subst x.
  destruct (nth_error (panels w) j) as [c|] eqn:Hn; [|reflexivity].
  cbn [option_map]. f_equal.
  rewrite plugin_in_target.
  - apply shape_add_once.
  - pose proof (Htar j c Hx Hn) as Hp.
    pose proof (shape_add_once ev h c) as Hs. unfold shape in Hs.
    apply pair_equal_spec in Hs. destruct Hs as [_ Hs]. now rewrite Hs.
Qed.

(** A deferred dispatch that finds every block already in the state the
    stored mode calls for, with nothing animating, starts no animation and
    leaves the button alone. *)
Lemma noop_dispatch w k :
  timers w = S k ->
  animating w = false ->
  Forall (fun c => panel_collapse c = true ->
                   el_phase c = (if String.eqb (btn_mode w) "expanded"
                                 then Hidden else Shown))
         (panels w) ->
  map el_phase (panels (step Timeout w)) = map el_phase (panels w)
  /\ animating (step Timeout w) = false
  /\ btn_mode (step Timeout w) = btn_mode w
  /\ btn_text (step Timeout w) = btn_text w
  /\ (forall es, exec (map AnimationEnd es) (step Timeout w) = step Timeout w)
  /\ onClick (step Timeout w) = onClick w.
Proof.
  intros Ht Ha Htar.
  rewrite (step_Timeout_world w k Ht).
  set (v := with_timers k w).
  assert (Hbtn : (btn_mode (run (onClick v) v), btn_text (run (onClick v) v))
                 = (btn_mode w, btn_text w)).
  { rewrite run_button; [reflexivity|]. now apply onClick_calls. }
  apply pair_equal_spec in Hbtn. destruct Hbtn as [Hm Hx].
  assert (Hshape : map shape (panels (run (onClick v) v))
                   = map shape (panels w)).
  { unfold onClick, collapse, expand. change (btn_mode v) with (btn_mode w).
    rewrite Forall_forall in Htar.
    destruct (String.eqb (btn_mode w) "expanded").
    - apply (one_then_collapse_noop _ _ _ Hide v); [apply positions_NoDup|].
      intros e c He Hn. apply positions_bounds in He.
      destruct He as (_ & c' & Hn' & Hf). rewrite Nat.sub_0_r in Hn'.
      change (panels v) with (panels w) in *.
      assert (c' = c) by congruence. subst c'.
      apply Htar; [now apply nth_error_In in Hn|assumption].
    - apply (one_then_collapse_noop _ _ _ Show v); [apply positions_NoDup|].
      intros e c He Hn. apply positions_bounds in He.
      destruct He as (_ & c' & Hn' & Hf). rewrite Nat.sub_0_r in Hn'.
      change (panels v) with (panels w) in *.
      assert (c' = c) by congruence. subst c'.
      apply andb_true_iff in Hf. destruct Hf as [Hf _].
      apply Htar; [now apply nth_error_In in Hn|assumption]. }
  set (w1 := with_click_bound true (run (onClick v) v)).
  assert (Hshape1 : map shape (panels w1) = map shape (panels w)) by exact Hshape.
  assert (Ha1 : animating w1 = false)
    by (rewrite animating_shape, Hshape1, <- animating_shape; exact Ha).
  split.
  { apply (f_equal (map snd)) in Hshape1. rewrite !map_map in Hshape1.
    exact Hshape1. }
  split; [exact Ha1|]. split; [exact Hm|]. split; [exact Hx|].
  split; [intros es; now apply exec_AnimationEnd_idle|].
  apply onClick_shape; [exact Hm|exact Hshape1].
Qed.

(** *** Blocks reached by a global pass *)

(** [expand] leaves out every element that carries the class [in]. *)
Lemma expand_skips_expanded_blocks w e c :
  nth_error (panels w) e = Some c -> el_phase c = Shown ->
  ~ In (CollapseCall e Show) (expand w)
  /\ (forall h, ~ In (One e shown_bs_collapse h) (expand w)).
Proof.
  intros Hn Hp.
  assert (Hsel : ~ In e (collapsableSelector_not_in w)).
  { intros H. apply positions_bounds in H.
    destruct H as (_ & c' & Hn' & Hf). rewrite Nat.sub_0_r in Hn'.
    assert (c' = c) by congruence. subst c'.
    rewrite Hp in Hf. now rewrite andb_false_r in Hf. }
  unfold expand. split; [|intros h]; intros H; apply in_app_or in H;
    destruct H as [H|H]; apply in_map_iff in H; destruct H as [x [E Hx]];
    try discriminate; injection E as <-; contradiction.
Qed.

(** [collapse] reaches every element of class [panel-collapse], whatever
    its state. *)
Lemma collapse_selects_every_block w e c :
  nth_error (panels w) e = Some c -> panel_collapse c = true ->
  In (One e hidden_bs_collapse LabelCollapsed) (collapse w)
  /\ In (CollapseCall e Hide) (collapse w).
Proof.
  intros Hn Hpc.
  assert (Hsel : In e (collapsableSelector w))
    by (apply (positions_complete panel_collapse _ 0 e c Hn Hpc)).
  unfold collapse. split; apply in_or_app; [left|right];
    apply in_map_iff; now exists e.
Qed.

(** C4, collapse direction, evaluated: the block at position 1 is already
    collapsed, yet the collapse-all pass registers its one-shot handler on
    it and calls the plugin on it; the plugin ignores the call, the handler
    stays, and it fires when that block is collapsed by hand after a later
    expand-all, flipping the button while the other block is expanded. *)
Theorem collapse_pass_reaches_collapsed_block :
  phase_of 1 one_open_one_closed = Some Hidden
  /\ In (One 1 hidden_bs_collapse LabelCollapsed) (onClick one_open_one_closed)
  /\ In (CollapseCall 1 Hide) (onClick one_open_one_closed)
  /\ option_map once_hidden
       (nth_error (panels (exec [ClickToggleAll; Timeout; AnimationEnd 0]
                                one_open_one_closed)) 1)
     = Some [LabelCollapsed]
  /\ (let w := exec [ClickToggleAll; Timeout; AnimationEnd 0;
                     ClickToggleAll; Timeout; AnimationEnd 0; AnimationEnd 1]
                    one_open_one_closed in
      phase_of 0 w = Some Shown /\ phase_of 1 w = Some Shown
      /\ btn_mode w = "expanded"
      /\ btn_mode (exec [ClickHeading 1; AnimationEnd 1] w) = "collapsed"
      /\ btn_text (exec [ClickHeading 1; AnimationEnd 1] w) = "Expand all"
      /\ phase_of 0 (exec [ClickHeading 1; AnimationEnd 1] w) = Some Shown).
Proof.
  split; [reflexivity|].
  split; [apply (collapse_selects_every_block one_open_one_closed 1
                   (mkCollapsible "collapse-block__b" true Hidden [] []));
          reflexivity|].
  split; [apply (collapse_selects_every_block one_open_one_closed 1
                   (mkCollapsible "collapse-block__b" true Hidden [] []));
          reflexivity|].
  repeat split.
Qed.

(** *** Sidebar navigation *)

(** C7, evaluated where it fails: the section is collapsed and the block
    inside it is expanded.  The click expands the section; when that ends,
    the plugin ignores the show call on the block, [shown.bs.collapse] never
    fires on it, and the anchor is never scrolled into view. *)
Theorem link_to_open_block_in_closed_section :
  exists w',
    settle 2 (step (ClickBlockLink "s1" "b1") (nav_page "s1" "b1" Hidden Shown))
    = Some w'
    /\ animating w' = false
    /\ phase_of 0 w' = Some Shown
    /\ phase_of 1 w' = Some Shown
    /\ scrolled w' = []
    /\ (forall es, scrolled (exec (map AnimationEnd es) w') = []).
Proof.
  eexists. split; [reflexivity|]. repeat split.
  intros es. now rewrite exec_AnimationEnd_idle.
Qed.

Lemma jq_id_nav sid bid s b :
  jq_id (getSelector sid section) (nav_page sid bid s b) = [0]
  /\ jq_id (getSelector bid block) (nav_page sid bid s b) = [1]
  /\ jq_anchor (getSelector bid blockAnchor) (nav_page sid bid s b)
     = [("link__" ++ bid)%string].
Proof.
  assert (Hx : String.eqb ("collapse-block__" ++ bid)%string
                          ("collapse-section__" ++ sid)%string = false)
    by (apply String.eqb_neq; cbn [append]; discriminate).
  assert (Hy : String.eqb ("collapse-section__" ++ sid)%string
                          ("collapse-block__" ++ bid)%string = false)
    by (apply String.eqb_neq; cbn [append]; discriminate).
  unfold jq_id, jq_anchor, getSelector, selectorPrefix, nav_page.
  change ("#collapse-section__" ++ sid)%string
    with (String "#"%char ("collapse-section__" ++ sid)%string).
  change ("#collapse-block__" ++ bid)%string
    with (String "#"%char ("collapse-block__" ++ bid)%string).
  change ("#link__" ++ bid)%string
    with (String "#"%char ("link__" ++ bid)%string).
  cbn [panels anchors positions filter el_id].
  rewrite !String.eqb_refl, Hx, Hy. repeat split.
Qed.

Lemma onClick_link_nav sid bid s b :
  onClick_link sid bid (nav_page sid bid s b)
  = if has_in s then
      if has_in b then [ScrollIntoView ("link__" ++ bid)%string]
      else [One 1 shown_bs_collapse (ScrollBlock [("link__" ++ bid)%string]);
            CollapseCall 1 Show]
    else [One 0 shown_bs_collapse
              (ShowBlockThenScroll [1] [("link__" ++ bid)%string]);
          CollapseCall 0 Show].
Proof.
  unfold onClick_link.
  destruct (jq_id_nav sid bid s b) as (-> & -> & ->).
  unfold isCollapsableShown.
  cbn [existsb nth_error panels nav_page el_phase orb].
  rewrite !orb_false_r.
  now destruct (has_in s), (has_in b).
Qed.

(** From the three other settled starting states the click ends with the
    section and the block expanded and the anchor scrolled into view. *)
Lemma link_click_converges sid bid s b :
  (s = Shown /\ (b = Shown \/ b = Hidden)) \/ (s = Hidden /\ b = Hidden) ->
  exists w',
    settle 2 (step (ClickBlockLink sid bid) (nav_page sid bid s b)) = Some w'
    /\ animating w' = false
    /\ phase_of 0 w' = Some Shown
    /\ phase_of 1 w' = Some Shown
    /\ scrolled w' = [("link__" ++ bid)%string].
Proof.
  intros H. cbn [step]. rewrite onClick_link_nav.
  destruct H as [[-> [->| ->]]|[-> ->]]; eexists; (split; [reflexivity|]);
    repeat split.
Qed.

(** *** Order of registration and animation start *)

Lemma bs_event_eqb_refl ev : bs_event_eqb ev ev = true.
Proof. now destruct ev. Qed.

Lemma registrations_count e ev h sel :
  List.length (filter (registers e ev) (map (fun x => One x ev h) sel))
  = count_occ Nat.eq_dec sel e.
Proof.
  induction sel as [|x sel IH]; cbn [map filter registers count_occ];
    [reflexivity|].
  rewrite bs_event_eqb_refl, andb_true_r.
  destruct (Nat.eq_dec x e) as [->|Hne].
  - rewrite Nat.eqb_refl. cbn [List.length]. now rewrite IH.
  - apply Nat.eqb_neq in Hne. now rewrite Hne.
Qed.

Lemma no_registration_in cs e ev :
  Forall (fun c => registers e ev c = false) cs ->
  filter (registers e ev) cs = [].
Proof.
  induction 1 as [|c cs Hc _ IH]; cbn [filter]; [reflexivity|].
  now rewrite Hc.
Qed.

Lemma plugin_calls_register_nothing sel d e ev :
  Forall (fun c => registers e ev c = false)
         (map (fun x => CollapseCall x d) sel).
Proof. apply Forall_forall. intros c Hc. apply in_map_iff in Hc.
       now destruct Hc as [x [<- _]]. Qed.

Lemma Forall_firstn {A : Type} (P : A -> Prop) n l :
  Forall P l -> Forall P (firstn n l).
Proof.
  intros H. rewrite <- (firstn_skipn n l) in H.
  apply Forall_app in H. tauto.
Qed.

Lemma Forall_skipn {A : Type} (P : A -> Prop) n l :
  Forall P l -> Forall P (skipn n l).
Proof.
  intros H. rewrite <- (firstn_skipn n l) in H.
  apply Forall_app in H. tauto.
Qed.

(** The chain [$(sel).one(ev, h).collapse(d)]. *)
Lemma one_then_collapse_ordered sel d h :
  NoDup sel ->
  listener_before_start
    (map (fun e => One e (completion_event d) h) sel
     ++ map (fun e => CollapseCall e d) sel).
Proof.
  intros Hnd i e d' Hi.
  set (A := map (fun e => One e (completion_event d) h) sel) in *.
  set (B := map (fun e => CollapseCall e d) sel) in *.
  assert (Hlen : List.length A <= i).
  { destruct (Nat.le_gt_cases (List.length A) i) as [|Hlt]; [assumption|].
    rewrite nth_error_app1 in Hi by assumption. apply nth_error_In in Hi.
    subst A. apply in_map_iff in Hi. now destruct Hi as [x [Hx _]]. }
  rewrite nth_error_app2 in Hi by assumption.
  assert (Hin : In (CollapseCall e d') B) by now apply nth_error_In in Hi.
  subst B. apply in_map_iff in Hin. destruct Hin as [x [Hx Hsel]].
  injection Hx as -> ->.
  rewrite firstn_app, skipn_app, !filter_app, length_app.
  rewrite (firstn_all2 _ Hlen), (skipn_all2 _ Hlen). cbn [filter app].
  rewrite (no_registration_in (firstn _ (map (fun x => CollapseCall x d') sel)))
    by apply Forall_firstn, plugin_calls_register_nothing.
  rewrite (no_registration_in (skipn _ (map (fun x => CollapseCall x d') sel)))
    by apply Forall_skipn, plugin_calls_register_nothing.
  cbn [List.length]. rewrite Nat.add_0_r.
  subst A. rewrite registrations_count, count_occ_NoDup_In by assumption.
  split; reflexivity.
Qed.

Lemma no_plugin_call_ordered cs :
  (forall e d, ~ In (CollapseCall e d) cs) -> listener_before_start cs.
Proof.
  intros H i e d Hi. apply nth_error_In in Hi. now apply H in Hi.
Qed.

Lemma scroll_ordered a : transition_ok (scrollBlockIntoView a).
Proof.
  split.
  - apply no_plugin_call_ordered. intros e d H.
    destruct a; cbn in H; [contradiction|]. destruct H as [H|[]]. discriminate.
  - unfold no_timer. now apply forallb_scroll.
Qed.

Lemma showBlock_ordered blockJq a :
  NoDup blockJq -> transition_ok (showBlockAndScrollIntoView blockJq a).
Proof.
  intros H. split.
  - apply (one_then_collapse_ordered blockJq Show); assumption.
  - unfold no_timer. now apply showBlock_calls.
Qed.

Lemma onClick_ordered w : transition_ok (onClick w).
Proof.
  split.
  - unfold onClick, collapse, expand. destruct (String.eqb _ _).
    + apply (one_then_collapse_ordered _ Hide). apply positions_NoDup.
    + apply (one_then_collapse_ordered _ Show). apply positions_NoDup.
  - unfold no_timer. now apply onClick_calls.
Qed.

Lemma onClick_link_ordered sid bid w : transition_ok (onClick_link sid bid w).
Proof.
  split.
  - unfold onClick_link. destruct (isCollapsableShown _ w).
    + destruct (isCollapsableShown _ w).
      * apply scroll_ordered.
      * apply showBlock_ordered, jq_id_NoDup.
    + apply (one_then_collapse_ordered _ Show). apply jq_id_NoDup.
  - unfold no_timer. now apply onClick_link_calls.
Qed.

(** The handlers a sidebar click registers. *)
Lemma onClick_link_handlers sid bid w e ev h :
  In (One e ev h) (onClick_link sid bid w) ->
  (exists a, h = ScrollBlock a)
  \/ (exists a, h = ShowBlockThenScroll
                      (jq_id (getSelector bid block) w) a).
Proof.
  unfold onClick_link. destruct (isCollapsableShown _ w).
  - destruct (isCollapsableShown _ w).
    + intros H. destruct (jq_anchor _ w); cbn in H; [contradiction|].
      destruct H as [H|[]]. discriminate.
    + unfold showBlockAndScrollIntoView. intros H. apply in_app_or in H.
      destruct H as [H|H]; apply in_map_iff in H; destruct H as [x [E _]];
        [|discriminate].
      injection E as _ _ <-. left. eauto.
  - intros H. apply in_app_or in H.
    destruct H as [H|H]; apply in_map_iff in H; destruct H as [x [E _]];
      [|discriminate].
    injection E as _ _ <-. right. eauto.
Qed.

(** C8. In the collapse-all dispatch, in the sidebar click and in the
    handlers the sidebar click registers (and those they register in turn),
    every plugin call on an element comes after exactly one registration of a
    one-shot handler for its completion event on that element, and none of
    these call sequences sets a timer. *)
Theorem listener_registered_before_animation_start w :
  transition_ok (onClick w)
  /\ (forall sid bid,
        transition_ok (onClick_link sid bid w)
        /\ (forall e ev h v,
              In (One e ev h) (onClick_link sid bid w) ->
              transition_ok (handler_body h v)
              /\ (forall e' ev' h' v',
                    In (One e' ev' h') (handler_body h v) ->
                    transition_ok (handler_body h' v')))).
Proof.
  split; [apply onClick_ordered|]. intros sid bid.
  split; [apply onClick_link_ordered|]. intros e ev h v Hin.
  destruct (onClick_link_handlers sid bid w e ev h Hin) as [[a ->]|[a ->]];
    cbn [handler_body].
  - split; [apply scroll_ordered|]. intros e' ev' h' v' H.
    destruct a; cbn in H; [contradiction|]. destruct H as [H|[]]. discriminate.
  - split; [apply showBlock_ordered, jq_id_NoDup|].
    intros e' ev' h' v' H. unfold showBlockAndScrollIntoView in H.
    apply in_app_or in H.
    destruct H as [H|H]; apply in_map_iff in H; destruct H as [x [E _]];
      [|discriminate].
    injection E as _ _ <-. cbn [handler_body]. apply scroll_ordered.
Qed.

End CollapseFacts.

(* ================================================================== *)
(** ** Further behaviour of the collapse scripts *)
(* ================================================================== *)

Section CollapseBehaviour.
Import Collapse.

(** *** Selections, once more *)

Lemma positions_mem {A : Type} (f : A -> bool) l j :
  existsb (Nat.eqb j) (positions f 0 l)
  = match nth_error l j with Some c => f c | None => false end.
Proof.
  destruct (existsb (Nat.eqb j) (positions f 0 l)) eqn:E.
  - apply existsb_exists in E. destruct E as [x [Hx E]].
    apply Nat.eqb_eq in E. subst x. apply positions_bounds in Hx.
    destruct Hx as (_ & c & Hn & Hf). rewrite Nat.sub_0_r in Hn.
    now rewrite Hn.
  - destruct (nth_error l j) as [c|] eqn:Hn; [|reflexivity].
    destruct (f c) eqn:Hf; [|reflexivity].
    pose proof (positions_complete f l 0 j c Hn Hf) as Hin.
    rewrite <- not_true_iff_false in E. exfalso. apply E.
    apply existsb_exists. exists j. split; [assumption|apply Nat.eqb_refl].
Qed.

Lemma nth_error_ext_eq {A : Type} (l l' : list A) :
  (forall j, nth_error l j = nth_error l' j) -> l = l'.
Proof.
  intros H. rewrite <- (map_id l), <- (map_id l').
  apply nth_error_ext_map. intros j. now rewrite H.
Qed.

(** The chain [$(selector).one(ev, h).collapse(d)] over the elements that
    satisfy [f], element by element. *)
Lemma run_selection f ev h d w :
  panels (run (map (fun e => One e ev h) (positions f 0 (panels w))
               ++ map (fun e => CollapseCall e d) (positions f 0 (panels w))) w)
  = map (fun c => if f c then plugin d (add_once ev h c) else c) (panels w).
Proof.
  apply nth_error_ext_eq. intros j.
  rewrite nth_error_one_then_collapse by apply positions_NoDup.
  rewrite positions_mem, nth_error_map.
  destruct (nth_error (panels w) j) as [c|]; [|reflexivity].
  cbn [option_map]. now destruct (f c).
Qed.

Lemma dispatch_panels w :
  panels (run (onClick w) w)
  = map (dispatched (String.eqb (btn_mode w) "expanded")) (panels w).
Proof.
  unfold onClick, collapse, expand, dispatched,
    collapsableSelector, collapsableSelector_not_in.
  destruct (String.eqb (btn_mode w) "expanded"); apply run_selection.
Qed.

Lemma positions_head {A : Type} (f : A -> bool) : forall l i e rest,
  positions f i l = e :: rest ->
  exists c, nth_error l (e - i) = Some c /\ f c = true
            /\ forall c', f c' = false ->
                 positions f i (update_nth (e - i) (fun _ => c') l) = rest.
Proof.
  induction l as [|x l IH]; intros i e rest H; cbn [positions] in H;
    [discriminate|].
  destruct (f x) eqn:Hx.
  - injection H as <- <-. exists x. rewrite Nat.sub_diag.
    split; [reflexivity|]. split; [assumption|].
    intros c' Hc. cbn [update_nth positions]. now rewrite Hc.
  - pose proof (positions_bounds f l (S i) e) as Hb.
    rewrite H in Hb. destruct (Hb (or_introl eq_refl)) as [Hle _].
    destruct (IH _ _ _ H) as (c & Hn & Hf & Hup).
    exists c. replace (e - i) with (S (e - S i)) by lia.
    split; [exact Hn|]. split; [assumption|].
    intros c' Hc. cbn [update_nth positions]. rewrite Hx. now apply Hup.
Qed.

Lemma positions_nil {A : Type} (f : A -> bool) : forall l i,
  positions f i l = [] -> Forall (fun c => f c = false) l.
Proof.
  induction l as [|x l IH]; intros i H; [constructor|].
  cbn [positions] in H. destruct (f x) eqn:Hx; [discriminate|].
  constructor; [assumption|now apply (IH (S i))].
Qed.

Lemma positions_none {A : Type} (f : A -> bool) : forall l i,
  Forall (fun c => f c = false) l -> positions f i l = [].
Proof.
  induction l as [|x l IH]; intros i H; [reflexivity|].
  inversion H as [|? ? Hx Hl]; subst. cbn [positions]. rewrite Hx.
  now apply IH.
Qed.

Lemma positions_length {A : Type} (f : A -> bool) : forall l i,
  List.length (positions f i l) <= List.length l.
Proof.
  induction l as [|x l IH]; intros i; cbn [positions List.length]; [lia|].
  destruct (f x); cbn [List.length]; specialize (IH (S i)); lia.
Qed.

Lemma map_update_nth_same {A B : Type} (g : A -> B) (x : A) : forall l e c,
  nth_error l e = Some c -> g x = g c ->
  map g (update_nth e (fun _ => x) l) = map g l.
Proof.
  induction l as [|y l IH]; intros [|e] c H Hg;
    cbn [update_nth map nth_error] in *; try discriminate.
  - injection H as ->. now rewrite Hg.
  - f_equal. now apply (IH e c).
Qed.

Lemma Forall_update_nth {A : Type} (P : A -> Prop) (x : A) : forall l e,
  Forall P l -> P x -> Forall P (update_nth e (fun _ => x) l).
Proof.
  induction l as [|y l IH]; intros [|e] H Hx; cbn [update_nth];
    inversion H; subst; constructor; auto.
Qed.

(** *** Letting label handlers run *)

Lemma finished_settled c : transitioning (el_phase (finished c)) = false.
Proof. unfold finished, finish. now destruct (el_phase c) eqn:E; cbn; rewrite ?E. Qed.

Lemma finished_idem c : finished (finished c) = finished c.
Proof.
  unfold finished at 1. unfold finish.
  pose proof (finished_settled c) as H.
  now destruct (el_phase (finished c)).
Qed.

Lemma finished_of_settled c :
  transitioning (el_phase c) = false -> finished c = c.
Proof. unfold finished, finish. now destruct (el_phase c). Qed.

Lemma settle_idle n w :
  positions (fun c => transitioning (el_phase c)) 0 (panels w) = [] ->
  settle n w = Some w.
Proof. intros H. destruct n; cbn [settle]; now rewrite H. Qed.

Lemma settle_next n w e rest :
  positions (fun c => transitioning (el_phase c)) 0 (panels w) = e :: rest ->
  settle (S n) w = settle n (step (AnimationEnd e) w).
Proof. intros H. cbn [settle]. now rewrite H. Qed.

Section Labels.
Variable h : handler.
Hypothesis h_label : h = LabelCollapsed \/ h = LabelExpanded.

(** The world once the label handler [h] has run. *)
Let labelled (w : world) : world := run (handler_body h w) w.

Lemma labelled_fields w :
  panels (labelled w) = panels w
  /\ click_bound (labelled w) = click_bound w
  /\ timers (labelled w) = timers w
  /\ scrolled (labelled w) = scrolled w
  /\ btn_textExpand (labelled w) = btn_textExpand w
  /\ btn_textCollapse (labelled w) = btn_textCollapse w.
Proof. subst labelled. destruct h_label as [-> | ->]; repeat split. Qed.

Lemma labelled_button w v :
  btn_textExpand v = btn_textExpand w ->
  btn_textCollapse v = btn_textCollapse w ->
  btn_mode (labelled v) = btn_mode (labelled w)
  /\ btn_text (labelled v) = btn_text (labelled w).
Proof.
  intros He Hc. subst labelled.
  destruct h_label as [-> | ->]; cbn; now rewrite ?He, ?Hc.
Qed.

Lemma AnimationEnd_label w e c :
  nth_error (panels w) e = Some c ->
  transitioning (el_phase c) = true ->
  runs_only h c ->
  step (AnimationEnd e) w
  = labelled (with_panels (update_nth e (fun _ => finished c) (panels w)) w).
Proof.
  intros Hn Ht Hr. cbn [step]. rewrite Hn.
  specialize (Hr Ht). unfold finished.
  destruct (finish c) as [c' hs]. cbn [fst snd] in *. subst hs.
  reflexivity.
Qed.

(** With only [h] pending on the elements in transition, letting every
    transition end finishes each element and, if any transition was
    running, leaves the button as [h] sets it. *)
Lemma settle_labels n : forall w,
  Forall (runs_only h) (panels w) ->
  List.length (positions (fun c => transitioning (el_phase c)) 0 (panels w))
  <= n ->
  exists w',
    settle n w = Some w'
    /\ panels w' = map finished (panels w)
    /\ click_bound w' = click_bound w
    /\ timers w' = timers w
    /\ scrolled w' = scrolled w
    /\ btn_textExpand w' = btn_textExpand w
    /\ btn_textCollapse w' = btn_textCollapse w
    /\ (animating w = false -> w' = w)
    /\ (animating w = true ->
        btn_mode w' = btn_mode (labelled w)
        /\ btn_text w' = btn_text (labelled w)).
Proof.
  induction n as [|n IH]; intros w Hr Hlen;
    destruct (positions (fun c => transitioning (el_phase c)) 0 (panels w))
      as [|e rest] eqn:Hpos; cbn [List.length] in Hlen; try lia.
  - exists w. pose proof (positions_nil _ _ _ Hpos) as Hall.
    assert (Ha : animating w = false).
    { unfold animating. apply not_true_iff_false. intros H.
      apply existsb_exists in H. destruct H as [c [Hc Ht]].
      rewrite Forall_forall in Hall. rewrite (Hall c Hc) in Ht. discriminate. }
    split; [now apply settle_idle|]. split.
    { rewrite <- (map_id (panels w)) at 1. apply map_ext_in. intros c Hc.
      rewrite Forall_forall in Hall. symmetry.
      now apply finished_of_settled, Hall. }
    do 5 (split; [reflexivity|]). split; [intros _; reflexivity|].
    intros Hb. congruence.
  - exists w. pose proof (positions_nil _ _ _ Hpos) as Hall.
    assert (Ha : animating w = false).
    { unfold animating. apply not_true_iff_false. intros H.
      apply existsb_exists in H. destruct H as [c [Hc Ht]].
      rewrite Forall_forall in Hall. rewrite (Hall c Hc) in Ht. discriminate. }
    split; [now apply settle_idle|]. split.
    { rewrite <- (map_id (panels w)) at 1. apply map_ext_in. intros c Hc.
      rewrite Forall_forall in Hall. symmetry.
      now apply finished_of_settled, Hall. }
    do 5 (split; [reflexivity|]). split; [intros _; reflexivity|].
    intros Hb. congruence.
  - destruct (positions_head _ _ _ _ _ Hpos) as (c & Hn & Ht & Hup).
    rewrite Nat.sub_0_r in Hn, Hup.
    assert (Hrc : runs_only h c).
    { rewrite Forall_forall in Hr. apply Hr. now apply nth_error_In in Hn. }
    rewrite (settle_next n w e rest Hpos).
    rewrite (AnimationEnd_label w e c Hn Ht Hrc).
    set (v := with_panels (update_nth e (fun _ => finished c) (panels w)) w).
    destruct (labelled_fields v) as (Lp & Lc & Lt & Ls & Le & Lx).
    assert (Hpv : panels (labelled v)
                  = update_nth e (fun _ => finished c) (panels w))
      by (now rewrite Lp).
    destruct (IH (labelled v)) as (w' & Hs & Hp & Hc & Htm & Hsc & Hte & Htc
                                   & Hidle & Hbusy).
    { rewrite Hpv. apply Forall_update_nth; [assumption|].
      intros H. now rewrite finished_settled in H. }
    { rewrite Hpv, (Hup (finished c) (finished_settled c)). lia. }
    exists w'. split; [exact Hs|]. split.
    { rewrite Hp, Hpv. apply (map_update_nth_same finished _ _ e c Hn).
      apply finished_idem. }
    split; [now rewrite Hc, Lc|]. split; [now rewrite Htm, Lt|].
    split; [now rewrite Hsc, Ls|]. split; [now rewrite Hte, Le|].
    split; [now rewrite Htc, Lx|]. split.
    { intros Ha. exfalso. unfold animating in Ha.
      rewrite <- not_true_iff_false in Ha. apply Ha. apply existsb_exists.
      exists c. split; [now apply nth_error_In in Hn|assumption]. }
    intros _.
    assert (Hlv : btn_mode (labelled v) = btn_mode (labelled w)
                  /\ btn_text (labelled v) = btn_text (labelled w))
      by (now apply labelled_button).
    destruct (animating (labelled v)) eqn:Hav.
    + destruct (Hbusy eq_refl) as [Hm Hx].
      destruct (labelled_button v (labelled v) Le Lx) as [Hm' Hx'].
      destruct Hlv as [Hm2 Hx2]. split; congruence.
    + rewrite (Hidle eq_refl). exact Hlv.
Qed.

End Labels.

(** *** A click on the collapse-all button, up to the end of all animations *)

Lemma click_then_dispatch w :
  click_bound w = true -> timers w = 0 ->
  exec [ClickToggleAll; Timeout] w
  = with_click_bound true
      (run (onClick (with_timers 0 (with_timers 1 (with_click_bound false w))))
           (with_timers 0 (with_timers 1 (with_click_bound false w)))).
Proof.
  intros Hb Ht. unfold exec. cbn [fold_left].
  assert (E : step ClickToggleAll w
              = with_timers 1 (with_click_bound false w)).
  { cbn [step]. rewrite Hb. cbn. now rewrite Ht. }
  rewrite E. now apply step_Timeout_world.
Qed.

Lemma dispatched_runs_only (b : bool) c :
  transitioning (el_phase c) = false ->
  once_shown c = [] -> once_hidden c = [] ->
  runs_only (if b then LabelCollapsed else LabelExpanded) (dispatched b c).
Proof.
  destruct c as [id pc ph os oh]. cbn [el_phase once_shown once_hidden].
  intros Ht -> ->. unfold runs_only, dispatched.
  destruct b, pc, ph; try discriminate; cbn; intros H;
    try discriminate; reflexivity.
Qed.

Lemma dispatched_phase (b : bool) c :
  transitioning (el_phase c) = false ->
  el_phase (finished (dispatched b c))
  = if panel_collapse c then (if b then Hidden else Shown) else el_phase c.
Proof.
  destruct c as [id pc ph os oh]. cbn [el_phase panel_collapse].
  intros Ht. destruct b, pc, ph; try discriminate; reflexivity.
Qed.

Lemma dispatched_moves (b : bool) c :
  transitioning (el_phase c) = false ->
  panel_collapse c = true ->
  el_phase c <> (if b then Hidden else Shown) ->
  transitioning (el_phase (dispatched b c)) = true.
Proof.
  destruct c as [id pc ph os oh]. cbn [el_phase panel_collapse].
  intros Ht -> Hne. destruct b, ph; try discriminate; try reflexivity;
    now elim Hne.
Qed.

(** The whole course of one click on a page at rest. *)
Lemma toggle_all_settles w :
  click_bound w = true -> timers w = 0 -> fresh w ->
  exists w',
    settle (List.length (panels w)) (exec [ClickToggleAll; Timeout] w) = Some w'
    /\ panels w'
       = map (fun c => finished (dispatched (String.eqb (btn_mode w) "expanded") c))
             (panels w)
    /\ click_bound w' = true
    /\ timers w' = 0
    /\ scrolled w' = scrolled w
    /\ btn_textExpand w' = btn_textExpand w
    /\ btn_textCollapse w' = btn_textCollapse w
    /\ (animating (exec [ClickToggleAll; Timeout] w) = false ->
        btn_mode w' = btn_mode w /\ btn_text w' = btn_text w)
    /\ (animating (exec [ClickToggleAll; Timeout] w) = true ->
        btn_mode w' = (if String.eqb (btn_mode w) "expanded"
                       then "collapsed" else "expanded")
        /\ btn_text w' = (if String.eqb (btn_mode w) "expanded"
                          then btn_textExpand w else btn_textCollapse w)).
Proof.
  intros Hb Ht Hf.
  rewrite (click_then_dispatch w Hb Ht).
  set (v := with_timers 0 (with_timers 1 (with_click_bound false w))).
  set (w1 := with_click_bound true (run (onClick v) v)).
  set (b := String.eqb (btn_mode w) "expanded").
  assert (Hp1 : panels w1 = map (dispatched b) (panels w))
    by (subst w1 b; cbn [with_click_bound panels]; now rewrite dispatch_panels).
  assert (Hbtn : (btn_mode (run (onClick v) v), btn_text (run (onClick v) v))
                 = (btn_mode w, btn_text w)).
  { rewrite run_button; [reflexivity|]. now apply onClick_calls. }
  apply pair_equal_spec in Hbtn. destruct Hbtn as [Hm Hx].
  pose proof (run_texts (onClick v) v) as Htx.
  apply pair_equal_spec in Htx. destruct Htx as [Hte Htc].
  assert (Hck : (click_bound (run (onClick v) v), timers (run (onClick v) v))
                = (click_bound v, timers v)).
  { apply (run_frame (fun u => (click_bound u, timers u)) sets_click
                     interp_click).
    now apply onClick_calls. }
  apply pair_equal_spec in Hck. destruct Hck as [_ Htm].
  assert (Hsc : scrolled (run (onClick v) v) = scrolled v).
  { apply (run_frame scrolled (fun c => match c with
                                        | ScrollIntoView _ => true
                                        | _ => false end)).
    - intros c u Hc. destruct c; try discriminate; reflexivity.
    - now apply onClick_calls. }
  destruct (settle_labels (if b then LabelCollapsed else LabelExpanded)
              (ltac:(destruct b; auto)) (List.length (panels w)) w1)
    as (w' & Hs & Hp & Hc & Htm' & Hsc' & Hte' & Htc' & Hidle & Hbusy).
  { rewrite Hp1. apply Forall_forall. intros c Hc.
    apply in_map_iff in Hc. destruct Hc as [c0 [<- H0]].
    unfold fresh in Hf. rewrite Forall_forall in Hf.
    destruct (Hf c0 H0) as (T & S1 & S2). now apply dispatched_runs_only. }
  { rewrite Hp1. etransitivity; [apply positions_length|].
    now rewrite length_map. }
  exists w'. split; [exact Hs|].
  split; [now rewrite Hp, Hp1, map_map|].
  split; [now rewrite Hc|].
  split; [rewrite Htm'; subst w1; cbn [with_click_bound timers]; now rewrite Htm|].
  split; [rewrite Hsc'; exact Hsc|].
  split; [rewrite Hte'; exact Hte|].
  split; [rewrite Htc'; exact Htc|].
  split.
  - intros Ha. rewrite (Hidle Ha). split; [exact Hm|exact Hx].
  - intros Ha. destruct (Hbusy Ha) as [Bm Bx]. rewrite Bm, Bx.
    subst w1. destruct b; cbn; split; try reflexivity;
      cbn in Hte, Htc; congruence.
Qed.

(** X7. One click on the collapse-all button of a page at rest (handler
    bound, nothing queued, no element in transition, no handler pending):
    once the deferred dispatch has run and every animation has ended, every
    [.panel-collapse] block is in the state the click asks for, other
    collapsible elements are as before, the click handler is bound again,
    and, if some block had to move, the stored mode and the label have
    flipped. *)
Theorem toggle_all_reaches_target w :
  click_bound w = true -> timers w = 0 -> fresh w ->
  exists w',
    settle (List.length (panels w)) (exec [ClickToggleAll; Timeout] w) = Some w'
    /\ animating w' = false
    /\ map el_phase (panels w')
       = map (fun c => if panel_collapse c
                       then (if String.eqb (btn_mode w) "expanded"
                             then Hidden else Shown)
                       else el_phase c)
             (panels w)
    /\ click_bound w' = true
    /\ timers w' = 0
    /\ ((exists c, In c (panels w) /\ panel_collapse c = true
                   /\ el_phase c <> (if String.eqb (btn_mode w) "expanded"
                                     then Hidden else Shown)) ->
        btn_mode w' = (if String.eqb (btn_mode w) "expanded"
                       then "collapsed" else "expanded")
        /\ btn_text w' = (if String.eqb (btn_mode w) "expanded"
                          then btn_textExpand w else btn_textCollapse w)).
Proof.
  intros Hb Ht Hf.
  destruct (toggle_all_settles w Hb Ht Hf)
    as (w' & Hs & Hp & Hc & Htm & _ & _ & _ & _ & Hbusy).
  pose proof Hf as Hf'. unfold fresh in Hf'. rewrite Forall_forall in Hf'.
  exists w'. split; [exact Hs|]. split.
  { unfold animating. rewrite Hp. apply not_true_iff_false. intros H.
    apply existsb_exists in H. destruct H as [c [Hin Hc']].
    apply in_map_iff in Hin. destruct Hin as [c0 [<- _]].
    now rewrite finished_settled in Hc'. }
  split.
  { rewrite Hp, map_map. apply map_ext_in. intros c Hin.
    apply dispatched_phase. now apply Hf'. }
  split; [exact Hc|]. split; [exact Htm|].
  intros (c & Hin & Hpc & Hne). apply Hbusy.
  rewrite (click_then_dispatch w Hb Ht). unfold animating.
  cbn [with_click_bound panels]. rewrite dispatch_panels.
  apply existsb_exists.
  exists (dispatched (String.eqb (btn_mode w) "expanded") c).
  split; [now apply in_map|].
  apply dispatched_moves; try assumption. now apply Hf'.
Qed.

Lemma toggle_all_reaches_target_witness :
  exists w',
    settle (List.length (panels one_open_one_closed))
           (exec [ClickToggleAll; Timeout] one_open_one_closed) = Some w'
    /\ animating w' = false
    /\ map el_phase (panels w')
       = map (fun c => if panel_collapse c
                       then (if String.eqb (btn_mode one_open_one_closed) "expanded"
                             then Hidden else Shown)
                       else el_phase c)
             (panels one_open_one_closed)
    /\ click_bound w' = true
    /\ timers w' = 0
    /\ ((exists c, In c (panels one_open_one_closed) /\ panel_collapse c = true
                   /\ el_phase c
                      <> (if String.eqb (btn_mode one_open_one_closed) "expanded"
                          then Hidden else Shown)) ->
        btn_mode w' = (if String.eqb (btn_mode one_open_one_closed) "expanded"
                       then "collapsed" else "expanded")
        /\ btn_text w' = (if String.eqb (btn_mode one_open_one_closed) "expanded"
                          then btn_textExpand one_open_one_closed
                          else btn_textCollapse one_open_one_closed)).
Proof.
  apply (toggle_all_reaches_target one_open_one_closed).
  - reflexivity.
  - reflexivity.
  - repeat constructor.
Defined.

Lemma collapse_then_expand_panel c :
  transitioning (el_phase c) = false ->
  once_shown c = [] -> once_hidden c = [] ->
  (panel_collapse c = true -> el_phase c = Shown) ->
  let c1 := finished (dispatched true c) in
  (transitioning (el_phase c1) = false /\ once_shown c1 = []
   /\ once_hidden c1 = [])
  /\ (panel_collapse c1 = true -> el_phase c1 = Hidden)
  /\ panel_collapse c1 = panel_collapse c
  /\ finished (dispatched false c1) = c.
Proof.
  destruct c as [id pc ph os oh].
  cbn [el_phase once_shown once_hidden panel_collapse].
  intros Ht -> -> Hs. destruct pc.
  - rewrite (Hs eq_refl). cbn. repeat split.
  - destruct ph; try discriminate; cbn; repeat split; discriminate.
Qed.

(** X8. Collapse-all followed by expand-all is a round trip: on a page at
    rest in mode "expanded" whose [.panel-collapse] blocks are all expanded
    (there being at least one), the first click ends with every block
    collapsed, mode "collapsed" and the expand label; the second click then
    brings every element back to exactly its former state, with mode
    "expanded", the collapse label, and the click handler bound. *)
Theorem collapse_all_then_expand_all w :
  click_bound w = true -> timers w = 0 -> fresh w ->
  btn_mode w = "expanded" ->
  Forall (fun c => panel_collapse c = true -> el_phase c = Shown) (panels w) ->
  (exists c, In c (panels w) /\ panel_collapse c = true) ->
  exists w1 w2,
    settle (List.length (panels w)) (exec [ClickToggleAll; Timeout] w) = Some w1
    /\ btn_mode w1 = "collapsed"
    /\ btn_text w1 = btn_textExpand w
    /\ Forall (fun c => panel_collapse c = true -> el_phase c = Hidden)
              (panels w1)
    /\ settle (List.length (panels w)) (exec [ClickToggleAll; Timeout] w1)
       = Some w2
    /\ panels w2 = panels w
    /\ btn_mode w2 = "expanded"
    /\ btn_text w2 = btn_textCollapse w
    /\ click_bound w2 = true
    /\ timers w2 = 0.
Proof.
  intros Hb Ht Hf Hm Hopen (c0 & Hin0 & Hpc0).
  pose proof Hf as Hf'. unfold fresh in Hf'.
  rewrite Forall_forall in Hf', Hopen.
  assert (Hpanel : forall c, In c (panels w) ->
            let c1 := finished (dispatched true c) in
            (transitioning (el_phase c1) = false /\ once_shown c1 = []
             /\ once_hidden c1 = [])
            /\ (panel_collapse c1 = true -> el_phase c1 = Hidden)
            /\ panel_collapse c1 = panel_collapse c
            /\ finished (dispatched false c1) = c).
  { intros c Hc. destruct (Hf' c Hc) as (T & S1 & S2).
    apply collapse_then_expand_panel; auto. }
  destruct (toggle_all_settles w Hb Ht Hf)
    as (w1 & Hs1 & Hp1 & Hc1 & Ht1 & _ & He1 & Hx1 & _ & Hbusy1).
  rewrite Hm in Hp1, Hbusy1. cbn [String.eqb] in Hp1, Hbusy1.
  change (("expanded" =? "expanded")%string) with true in Hp1, Hbusy1.
  assert (Ha1 : animating (exec [ClickToggleAll; Timeout] w) = true).
  { rewrite (click_then_dispatch w Hb Ht). unfold animating.
    cbn [with_click_bound panels]. rewrite dispatch_panels.
    apply existsb_exists.
    exists (dispatched (String.eqb (btn_mode w) "expanded") c0).
    split; [now apply in_map|].
    apply dispatched_moves; [now apply Hf'|assumption|].
    rewrite Hm, (Hopen c0 Hin0 Hpc0). discriminate. }
  destruct (Hbusy1 Ha1) as [Hm1 Hl1].
  assert (Hf1 : fresh w1).
  { unfold fresh. rewrite Hp1. apply Forall_forall. intros c Hc.
    apply in_map_iff in Hc. destruct Hc as [c' [<- Hc']].
    now destruct (Hpanel c' Hc') as (F & _). }
  destruct (toggle_all_settles w1 Hc1 Ht1 Hf1)
    as (w2 & Hs2 & Hp2 & Hc2 & Ht2 & _ & He2 & Hx2 & _ & Hbusy2).
  rewrite Hm1 in Hp2, Hbusy2.
  change (("collapsed" =? "expanded")%string) with false in Hp2, Hbusy2.
  assert (Hlen : List.length (panels w1) = List.length (panels w))
    by (rewrite Hp1; apply length_map).
  rewrite Hlen in Hs2.
  assert (Ha2 : animating (exec [ClickToggleAll; Timeout] w1) = true).
  { rewrite (click_then_dispatch w1 Hc1 Ht1). unfold animating.
    cbn [with_click_bound panels]. rewrite dispatch_panels.
    apply existsb_exists.
    exists (dispatched (String.eqb (btn_mode w1) "expanded")
                       (finished (dispatched true c0))).
    split.
    { apply (in_map (dispatched (String.eqb (btn_mode w1) "expanded"))
                    (panels w1)).
      rewrite Hp1.
      now apply (in_map (fun c => finished (dispatched true c))). }
    destruct (Hpanel c0 Hin0) as (F & Hh & Hpc & _).
    apply dispatched_moves; [apply F|now rewrite Hpc|].
    rewrite Hm1. change (("collapsed" =? "expanded")%string) with false.
    rewrite Hh by (now rewrite Hpc). discriminate. }
  destruct (Hbusy2 Ha2) as [Hm2 Hl2].
  exists w1, w2.
  split; [exact Hs1|]. split; [exact Hm1|]. split; [exact Hl1|].
  split.
  { rewrite Hp1. apply Forall_forall. intros c Hc.
    apply in_map_iff in Hc. destruct Hc as [c' [<- Hc']].
    now destruct (Hpanel c' Hc') as (_ & Hh & _). }
  split; [exact Hs2|]. split.
  { rewrite Hp2, Hp1, map_map. rewrite <- (map_id (panels w)) at 2.
    apply map_ext_in. intros c Hc.
    now destruct (Hpanel c Hc) as (_ & _ & _ & E). }
  split; [exact Hm2|]. split; [now rewrite Hl2, Hx1|].
  split; [exact Hc2|exact Ht2].
Qed.

Lemma collapse_all_then_expand_all_witness :
  exists w1 w2,
    settle (List.length (panels two_open_blocks))
           (exec [ClickToggleAll; Timeout] two_open_blocks) = Some w1
    /\ btn_mode w1 = "collapsed"
    /\ btn_text w1 = btn_textExpand two_open_blocks
    /\ Forall (fun c => panel_collapse c = true -> el_phase c = Hidden)
              (panels w1)
    /\ settle (List.length (panels two_open_blocks))
              (exec [ClickToggleAll; Timeout] w1) = Some w2
    /\ panels w2 = panels two_open_blocks
    /\ btn_mode w2 = "expanded"
    /\ btn_text w2 = btn_textCollapse two_open_blocks
    /\ click_bound w2 = true
    /\ timers w2 = 0.
Proof.
  apply (collapse_all_then_expand_all two_open_blocks).
  - reflexivity.
  - reflexivity.
  - repeat constructor.
  - reflexivity.
  - repeat constructor.
  - exists (mkCollapsible "collapse-block__a" true Shown [] []).
    split; [left; reflexivity|reflexivity].
Defined.

(** *** A click on a sidebar block link *)

Lemma no_section_no_effect sid bid w :
  Forall (fun c => el_id c <> ("collapse-section__" ++ sid)%string) (panels w) ->
  run (onClick_link sid bid w) w = w.
Proof.
  intros H.
  assert (E : jq_id (getSelector sid section) w = []).
  { change (getSelector sid section)
      with (String "#"%char ("collapse-section__" ++ sid)%string).
    unfold jq_id. rewrite positions_none; [reflexivity|].
    apply Forall_forall. intros c Hc. rewrite Forall_forall in H.
    apply String.eqb_neq. now apply H. }
  unfold onClick_link. rewrite E. reflexivity.
Qed.

(** X9. A sidebar link whose section element is not on the page does
    nothing at all, whatever the state of the block: nothing is registered,
    expanded or scrolled. *)
Theorem link_without_section_does_nothing sid bid w :
  Forall (fun c => el_id c <> ("collapse-section__" ++ sid)%string) (panels w) ->
  step (ClickBlockLink sid bid) w = w.
Proof. intros H. cbn [step]. now apply no_section_no_effect. Qed.

Lemma link_without_section_does_nothing_witness :
  step (ClickBlockLink "s1" "b1") two_open_blocks = two_open_blocks.
Proof.
  apply (link_without_section_does_nothing "s1" "b1" two_open_blocks).
  repeat constructor; discriminate.
Defined.

Lemma jq_id_found id w i :
  jq_id (String "#"%char id) w = [i] ->
  exists c, nth_error (panels w) i = Some c /\ el_id c = id.
Proof.
  unfold jq_id. intros H.
  assert (Hin : In i (positions (fun c => String.eqb (el_id c) id) 0 (panels w))).
  { destruct (positions _ 0 (panels w)) as [|x l]; [discriminate|].
    cbn [firstn] in H. injection H as ->. now left. }
  apply positions_bounds in Hin. destruct Hin as (_ & c & Hn & Hf).
  rewrite Nat.sub_0_r in Hn. apply String.eqb_eq in Hf. now exists c.
Qed.

Lemma update_nth_set {A : Type} (f : A -> A) : forall l e c,
  nth_error l e = Some c ->
  update_nth e f l = update_nth e (fun _ => f c) l.
Proof.
  induction l as [|x l IH]; intros [|e] c H; cbn [update_nth nth_error] in *;
    try discriminate.
  - now injection H as ->.
  - now rewrite (IH e c).
Qed.

Lemma update_nth_twice {A : Type} (x y : A) : forall l e,
  update_nth e (fun _ => y) (update_nth e (fun _ => x) l)
  = update_nth e (fun _ => y) l.
Proof.
  induction l as [|z l IH]; intros [|e]; cbn [update_nth]; try reflexivity.
  now rewrite IH.
Qed.

Lemma nth_error_set_panel e x w k :
  nth_error (panels (set_panel e x w)) k
  = if e =? k then option_map (fun _ => x) (nth_error (panels w) k)
    else nth_error (panels w) k.
Proof. unfold set_panel. cbn [with_panels panels]. apply nth_error_update_nth. Qed.

Lemma positions_single {A : Type} (f : A -> bool) (x : A) : forall l i j c,
  Forall (fun c => f c = false) l ->
  nth_error l j = Some c -> f x = true ->
  positions f i (update_nth j (fun _ => x) l) = [i + j].
Proof.
  induction l as [|y l IH]; intros i [|j] c Hall Hn Hx;
    cbn [nth_error] in Hn; try discriminate;
    inversion Hall as [|? ? Hy Hl]; subst; cbn [update_nth positions].
  - rewrite Hx, (positions_none f l (S i) Hl). now rewrite Nat.add_0_r.
  - rewrite Hy, (IH (S i) j c Hl Hn Hx). f_equal. lia.
Qed.

(** [elJq.one('shown.bs.collapse', h).collapse('show')] on a collapsed
    element without pending handlers. *)
Lemma run_show e h w c :
  nth_error (panels w) e = Some c ->
  el_phase c = Hidden -> once_shown c = [] ->
  run [One e shown_bs_collapse h; CollapseCall e Show] w
  = set_panel e (mkCollapsible (el_id c) (panel_collapse c) Showing [h]
                               (once_hidden c)) w.
Proof.
  intros Hn Hp Hs. unfold run, set_panel. cbn [fold_left interp].
  cbn [with_panels panels].
  rewrite (update_nth_set (add_once shown_bs_collapse h) _ e c Hn).
  erewrite (update_nth_set (plugin Show));
    [|rewrite nth_error_update_nth, Nat.eqb_refl, Hn; reflexivity].
  rewrite update_nth_twice.
  destruct c as [id pc ph os oh]. cbn [el_phase once_shown] in *. subst.
  destruct w. reflexivity.
Qed.

(** The show animation of an element ends while exactly [h] is pending. *)
Lemma end_show e h w c :
  nth_error (panels w) e = Some c ->
  el_phase c = Showing -> once_shown c = [h] ->
  step (AnimationEnd e) w
  = (let v := set_panel e (mkCollapsible (el_id c) (panel_collapse c) Shown []
                                         (once_hidden c)) w in
     run (handler_body h v) v).
Proof.
  intros Hn Hp Hs. cbn [step]. rewrite Hn. unfold finish. rewrite Hp, Hs.
  reflexivity.
Qed.

Lemma fresh_set_panel e x w :
  fresh w ->
  transitioning (el_phase x) = false -> once_shown x = [] ->
  once_hidden x = [] ->
  fresh (set_panel e x w).
Proof.
  intros Hf H1 H2 H3. unfold fresh, set_panel. cbn [with_panels panels].
  apply Forall_update_nth; [exact Hf|]. auto.
Qed.

Lemma fresh_idle w :
  fresh w ->
  Forall (fun c => transitioning (el_phase c) = false) (panels w).
Proof.
  unfold fresh. intros H. eapply Forall_impl; [|exact H]. now intros c (T & _).
Qed.

Lemma settle_fresh n w : fresh w -> settle n w = Some w.
Proof.
  intros H. apply settle_idle, positions_none. now apply fresh_idle.
Qed.

Lemma fresh_panels w w' : panels w' = panels w -> fresh w -> fresh w'.
Proof. unfold fresh. now intros ->. Qed.

Lemma set_panel_twice e x y w :
  set_panel e y (set_panel e x w) = set_panel e y w.
Proof.
  unfold set_panel. cbn [with_panels panels]. now rewrite update_nth_twice.
Qed.

Lemma positions_set_panel e x w c :
  fresh w -> nth_error (panels w) e = Some c ->
  transitioning (el_phase x) = true ->
  positions (fun c => transitioning (el_phase c)) 0 (panels (set_panel e x w))
  = [e].
Proof.
  intros Hf Hn Hx. unfold set_panel. cbn [with_panels panels].
  apply (positions_single (fun c => transitioning (el_phase c)) x _ 0 e c);
    auto using fresh_idle.
Qed.

(** X10. On a page at rest that holds the section, the block and the anchor
    a sidebar link names, a click whose target is the link element itself -
    unless the section is collapsed while the block is expanded - ends,
    after at most two animations, with the section and the block expanded,
    no handler left pending, every other element untouched, and exactly one
    scroll to the anchor.  A click that lands on the status icon inside the
    link reads no ids: on a page without an element of id
    [collapse-section__undefined] it changes nothing. *)
Theorem link_click_opens_and_scrolls sid bid w i j a :
  fresh w ->
  jq_id (getSelector sid section) w = [i] ->
  jq_id (getSelector bid block) w = [j] ->
  jq_anchor (getSelector bid blockAnchor) w = [a] ->
  (phase_of i w = Some Shown \/ phase_of j w = Some Hidden) ->
  (exists w',
     settle 2 (step (ClickBlockLink sid bid) w) = Some w'
     /\ fresh w'
     /\ phase_of i w' = Some Shown
     /\ phase_of j w' = Some Shown
     /\ scrolled w' = scrolled w ++ [a]
     /\ (forall k, k <> i -> k <> j ->
                   nth_error (panels w') k = nth_error (panels w) k))
  /\ (Forall (fun c => el_id c <> "collapse-section__undefined") (panels w) ->
      step ClickLinkIcon w = w).
Proof.
  intros Hf Hi Hj Ha Hstart.
  split; [|intros Hno; cbn [step]; now apply no_section_no_effect].
  pose proof Hi as Hi'. pose proof Hj as Hj'.
  change (getSelector sid section)
    with (String "#"%char ("collapse-section__" ++ sid)%string) in Hi'.
  change (getSelector bid block)
    with (String "#"%char ("collapse-block__" ++ bid)%string) in Hj'.
  destruct (jq_id_found _ w i Hi') as (cs & Hcs & Ids).
  destruct (jq_id_found _ w j Hj') as (cb & Hcb & Idb).
  assert (Hij : i <> j).
  { intros ->. rewrite Hcs in Hcb. injection Hcb as ->.
    rewrite Idb in Ids. cbn [append] in Ids. discriminate. }
  pose proof Hf as Hf'. unfold fresh in Hf'. rewrite Forall_forall in Hf'.
  destruct (Hf' cs (nth_error_In _ _ Hcs)) as (Ts & Ss & Hs).
  destruct (Hf' cb (nth_error_In _ _ Hcb)) as (Tb & Sb & Hb).
  assert (Hsi : isCollapsableShown [i] w = has_in (el_phase cs))
    by (unfold isCollapsableShown; cbn [existsb]; rewrite Hcs;
        apply orb_false_r).
  assert (Hsj : isCollapsableShown [j] w = has_in (el_phase cb))
    by (unfold isCollapsableShown; cbn [existsb]; rewrite Hcb;
        apply orb_false_r).
  cbn [step]. unfold onClick_link. rewrite Hi, Hj, Ha, Hsi, Hsj.
  unfold phase_of in Hstart. rewrite Hcs, Hcb in Hstart.
  cbn [option_map] in Hstart.
  set (csS := mkCollapsible (el_id cs) (panel_collapse cs) Shown []
                            (once_hidden cs)).
  set (cbS := mkCollapsible (el_id cb) (panel_collapse cb) Shown []
                            (once_hidden cb)).
  assert (FcsS : fresh (set_panel i csS w))
    by (apply fresh_set_panel; auto).
  destruct (el_phase cs) eqn:Ps; try discriminate;
    destruct (el_phase cb) eqn:Pb; try discriminate; cbn [has_in].
  - (* section and block expanded *)
    cbn [scrollBlockIntoView].
    set (w1 := run [ScrollIntoView a] w).
    assert (F1 : fresh w1) by (now apply (fresh_panels w)).
    exists w1. split; [now apply settle_fresh|]. split; [exact F1|].
    unfold phase_of. change (panels w1) with (panels w).
    rewrite Hcs, Hcb. cbn [option_map]. rewrite Ps, Pb. repeat split.
  - (* section expanded, block collapsed *)
    unfold showBlockAndScrollIntoView. cbn [map app].
    rewrite (run_show j (ScrollBlock [a]) w cb Hcb Pb Sb).
    set (cb1 := mkCollapsible _ _ Showing _ _).
    set (w1 := set_panel j cb1 w).
    assert (N1 : nth_error (panels w1) j = Some cb1)
      by (subst w1; rewrite nth_error_set_panel, Nat.eqb_refl, Hcb;
          reflexivity).
    rewrite (settle_next 1 w1 j [] (positions_set_panel j cb1 w cb Hf Hcb eq_refl)).
    rewrite (end_show j (ScrollBlock [a]) w1 cb1 N1 eq_refl eq_refl).
    cbn zeta. subst w1. rewrite set_panel_twice.
    change (mkCollapsible (el_id cb1) (panel_collapse cb1) Shown []
                          (once_hidden cb1)) with cbS.
    cbn [handler_body scrollBlockIntoView].
    set (w2 := run [ScrollIntoView a] (set_panel j cbS w)).
    assert (F2 : fresh w2).
    { apply (fresh_panels (set_panel j cbS w)); [reflexivity|].
      apply fresh_set_panel; auto. }
    exists w2. split; [now apply settle_fresh|]. split; [exact F2|].
    unfold phase_of.
    change (panels w2) with (panels (set_panel j cbS w)).
    rewrite !nth_error_set_panel, Nat.eqb_refl, Hcb.
    assert (Hji : (j =? i) = false) by (apply Nat.eqb_neq; auto).
    rewrite Hji, Hcs. cbn [option_map]. rewrite Ps. repeat split.
    intros k Hki Hkj. rewrite nth_error_set_panel.
    assert (E : (j =? k) = false) by (apply Nat.eqb_neq; auto).
    now rewrite E.
  - (* section collapsed, block expanded: excluded *)
    destruct Hstart as [H|H]; discriminate.
  - (* section and block collapsed *)
    cbn [map app].
    rewrite (run_show i (ShowBlockThenScroll [j] [a]) w cs Hcs Ps Ss).
    set (cs1 := mkCollapsible _ _ Showing _ _).
    set (w1 := set_panel i cs1 w).
    assert (N1 : nth_error (panels w1) i = Some cs1)
      by (subst w1; rewrite nth_error_set_panel, Nat.eqb_refl, Hcs;
          reflexivity).
    rewrite (settle_next 1 w1 i [] (positions_set_panel i cs1 w cs Hf Hcs eq_refl)).
    rewrite (end_show i (ShowBlockThenScroll [j] [a]) w1 cs1 N1 eq_refl eq_refl).
    cbn zeta. subst w1. rewrite set_panel_twice.
    change (mkCollapsible (el_id cs1) (panel_collapse cs1) Shown []
                          (once_hidden cs1)) with csS.
    set (v := set_panel i csS w).
    cbn [handler_body]. unfold showBlockAndScrollIntoView. cbn [map app].
    assert (Nv : nth_error (panels v) j = Some cb).
    { subst v. rewrite nth_error_set_panel.
      assert (E : (i =? j) = false) by (apply Nat.eqb_neq; auto).
      now rewrite E. }
    rewrite (run_show j (ScrollBlock [a]) v cb Nv Pb Sb).
    set (cb1 := mkCollapsible _ _ Showing _ _).
    set (w2 := set_panel j cb1 v).
    assert (N2 : nth_error (panels w2) j = Some cb1)
      by (subst w2; rewrite nth_error_set_panel, Nat.eqb_refl, Nv;
          reflexivity).
    rewrite (settle_next 0 w2 j [] (positions_set_panel j cb1 v cb FcsS Nv eq_refl)).
    rewrite (end_show j (ScrollBlock [a]) w2 cb1 N2 eq_refl eq_refl).
    cbn zeta. subst w2. rewrite set_panel_twice.
    change (mkCollapsible (el_id cb1) (panel_collapse cb1) Shown []
                          (once_hidden cb1)) with cbS.
    cbn [handler_body scrollBlockIntoView].
    set (w3 := run [ScrollIntoView a] (set_panel j cbS v)).
    assert (F3 : fresh w3).
    { apply (fresh_panels (set_panel j cbS v)); [reflexivity|].
      apply fresh_set_panel; auto. }
    exists w3. split; [now apply settle_fresh|]. split; [exact F3|].
    unfold phase_of.
    change (panels w3) with (panels (set_panel j cbS v)).
    assert (Hji : (j =? i) = false) by (apply Nat.eqb_neq; auto).
    rewrite !nth_error_set_panel, Nat.eqb_refl, Hji. subst v.
    rewrite !nth_error_set_panel, Nat.eqb_refl, Hcs.
    assert (Hij' : (i =? j) = false) by (apply Nat.eqb_neq; auto).
    rewrite Hij', Hcb. repeat split.
    intros k Hki Hkj. rewrite !nth_error_set_panel.
    assert (E1 : (j =? k) = false) by (apply Nat.eqb_neq; auto).
    assert (E2 : (i =? k) = false) by (apply Nat.eqb_neq; auto).
    now rewrite E1, E2.
Qed.

Lemma link_click_opens_and_scrolls_witness :
  (exists w',
     settle 2 (step (ClickBlockLink "s1" "b1") (nav_page "s1" "b1" Hidden Hidden))
     = Some w'
     /\ fresh w'
     /\ phase_of 0 w' = Some Shown
     /\ phase_of 1 w' = Some Shown
     /\ scrolled w' = scrolled (nav_page "s1" "b1" Hidden Hidden) ++ ["link__b1"]
     /\ (forall k, k <> 0 -> k <> 1 ->
                   nth_error (panels w') k
                   = nth_error (panels (nav_page "s1" "b1" Hidden Hidden)) k))
  /\ (Forall (fun c => el_id c <> "collapse-section__undefined")
             (panels (nav_page "s1" "b1" Hidden Hidden)) ->
      step ClickLinkIcon (nav_page "s1" "b1" Hidden Hidden)
      = nav_page "s1" "b1" Hidden Hidden).
Proof.
  apply (link_click_opens_and_scrolls
           "s1" "b1" (nav_page "s1" "b1" Hidden Hidden) 0 1 "link__b1").
  - repeat constructor.
  - reflexivity.
  - reflexivity.
  - reflexivity.
  - right. reflexivity.
Defined.

(** *** A click that finds every block in the target state *)

Lemma Forall_update_nth_with {A : Type} (P : A -> Prop) (f : A -> A) :
  (forall x, P x -> P (f x)) ->
  forall l e, Forall P l -> Forall P (update_nth e f l).
Proof.
  intros Hf. induction l as [|y l IH]; intros [|e] H; cbn [update_nth];
    inversion H; subst; constructor; auto.
Qed.

Lemma quiet_plugin d c : quiet c -> quiet (plugin d c).
Proof.
  unfold quiet. destruct d; cbn [plugin]; unfold collapse_show, collapse_hide;
    now destruct (_ || _).
Qed.

Lemma quiet_toggle c : quiet c -> quiet (collapse_toggle c).
Proof.
  intros H. unfold collapse_toggle.
  destruct (has_in (el_phase c));
    [apply (quiet_plugin Hide)|apply (quiet_plugin Show)]; exact H.
Qed.

Lemma quiet_add_once ev h c :
  is_label h = false -> quiet c -> quiet (add_once ev h c).
Proof.
  unfold quiet. intros Hh H. rewrite forallb_app in H.
  apply andb_true_iff in H. destruct H as [H1 H2].
  destruct ev; cbn [add_once once_shown once_hidden];
    rewrite !forallb_app; cbn [forallb]; now rewrite H1, H2, Hh.
Qed.

Lemma quiet_finish c :
  quiet c ->
  quiet (fst (finish c))
  /\ forallb (fun h => negb (is_label h)) (snd (finish c)) = true.
Proof.
  unfold quiet, finish. intros H. pose proof H as H'.
  rewrite forallb_app in H'. apply andb_true_iff in H'. destruct H' as [H1 H2].
  destruct (el_phase c); cbn [fst snd once_shown once_hidden app];
    repeat split; try assumption; try reflexivity.
  now rewrite app_nil_r.
Qed.

Lemma interp_label_free c w :
  label_free c = true -> no_label_pending w ->
  no_label_pending (interp c w)
  /\ btn_mode (interp c w) = btn_mode w
  /\ btn_text (interp c w) = btn_text w.
Proof.
  unfold no_label_pending. intros Hc H.
  destruct c as [e ev h|e d|x|x|a| |ms]; cbn [label_free] in Hc;
    try discriminate; cbn [interp with_panels with_click_bound with_timers
                           panels btn_mode btn_text];
    repeat split; try assumption.
  - apply Forall_update_nth_with; [|assumption].
    intros y. apply quiet_add_once. now apply negb_true_iff.
  - apply Forall_update_nth_with; [|assumption]. apply quiet_plugin.
Qed.

Lemma run_label_free cs : forall w,
  forallb label_free cs = true -> no_label_pending w ->
  no_label_pending (run cs w)
  /\ btn_mode (run cs w) = btn_mode w
  /\ btn_text (run cs w) = btn_text w.
Proof.
  induction cs as [|c cs IH]; intros w Hcs H; [now repeat split|].
  cbn [forallb] in Hcs. apply andb_true_iff in Hcs. destruct Hcs as [Hc Hcs].
  destruct (interp_label_free c w Hc H) as (Q & M & T).
  destruct (IH (interp c w) Hcs Q) as (Q' & M' & T').
  unfold run in *. cbn [fold_left].
  split; [exact Q'|]. split; congruence.
Qed.

Lemma onClick_link_label_free sid bid w :
  forallb label_free (onClick_link sid bid w) = true.
Proof.
  unfold onClick_link. destruct (isCollapsableShown _ w).
  - destruct (isCollapsableShown _ w).
    + now apply forallb_scroll.
    + unfold showBlockAndScrollIntoView. now apply forallb_one_then_collapse.
  - now apply forallb_one_then_collapse.
Qed.

Lemma handler_body_label_free h w :
  is_label h = false -> forallb label_free (handler_body h w) = true.
Proof.
  destruct h; intros H; try discriminate; cbn [handler_body].
  - unfold showBlockAndScrollIntoView. now apply forallb_one_then_collapse.
  - now apply forallb_scroll.
Qed.

Lemma fire_label_free hs : forall w,
  forallb (fun h => negb (is_label h)) hs = true -> no_label_pending w ->
  no_label_pending (fire hs w)
  /\ btn_mode (fire hs w) = btn_mode w
  /\ btn_text (fire hs w) = btn_text w.
Proof.
  induction hs as [|h hs IH]; intros w Hhs H; [now repeat split|].
  cbn [forallb] in Hhs. apply andb_true_iff in Hhs. destruct Hhs as [Hh Hhs].
  apply negb_true_iff in Hh.
  destruct (run_label_free (handler_body h w) w
              (handler_body_label_free h w Hh) H) as (Q & M & T).
  destruct (IH (run (handler_body h w) w) Hhs Q) as (Q' & M' & T').
  unfold fire in *. cbn [fold_left].
  split; [exact Q'|]. split; congruence.
Qed.

(** While no handler that writes the button is pending and nothing is
    queued, an event other than a click on the button leaves it so, and
    leaves the button as it is. *)
Lemma step_stale ev w :
  not_button_click ev = true ->
  no_label_pending w -> timers w = 0 ->
  no_label_pending (step ev w)
  /\ timers (step ev w) = 0
  /\ click_bound (step ev w) = click_bound w
  /\ btn_mode (step ev w) = btn_mode w
  /\ btn_text (step ev w) = btn_text w.
Proof.
  intros Hev H Ht.
  pose proof (step_click_fields ev w) as Hck.
  assert (Hcf : timers (step ev w) = 0
                /\ click_bound (step ev w) = click_bound w).
  { destruct ev; try discriminate; rewrite ?Ht in Hck;
      apply pair_equal_spec in Hck; destruct Hck as [Hc Hk];
      split; congruence. }
  destruct Hcf as [Hk Hc].
  assert (Hrest : no_label_pending (step ev w)
                  /\ btn_mode (step ev w) = btn_mode w
                  /\ btn_text (step ev w) = btn_text w).
  { destruct ev as [| |sid bid| |e|e]; try discriminate; cbn [step].
    - rewrite Ht. now repeat split.
    - apply run_label_free; [apply onClick_link_label_free|exact H].
    - apply run_label_free; [apply onClick_link_label_free|exact H].
    - split; [|now split]. unfold no_label_pending. cbn [with_panels panels].
      apply Forall_update_nth_with; [apply quiet_toggle|exact H].
    - destruct (nth_error (panels w) e) as [c|] eqn:Hn; [|now repeat split].
      assert (Hq : quiet c).
      { unfold no_label_pending in H. rewrite Forall_forall in H.
        apply H. now apply nth_error_In in Hn. }
      destruct (quiet_finish c Hq) as [Hq' Hhs].
      destruct (finish c) as [c' hs]. cbn [fst snd] in Hq', Hhs.
      destruct (fire_label_free hs
                  (with_panels (update_nth e (fun _ => c') (panels w)) w) Hhs)
        as (Q & M & T).
      { unfold no_label_pending. cbn [with_panels panels].
        now apply Forall_update_nth. }
      split; [exact Q|]. split; [exact M|exact T]. }
  destruct Hrest as (Q & M & T). now repeat split.
Qed.

Lemma exec_stale evs : forall w,
  forallb not_button_click evs = true ->
  no_label_pending w -> timers w = 0 ->
  no_label_pending (exec evs w)
  /\ timers (exec evs w) = 0
  /\ click_bound (exec evs w) = click_bound w
  /\ btn_mode (exec evs w) = btn_mode w
  /\ btn_text (exec evs w) = btn_text w.
Proof.
  induction evs as [|ev evs IH]; intros w Hevs H Ht; [now repeat split|].
  cbn [forallb] in Hevs. apply andb_true_iff in Hevs.
  destruct Hevs as [Hev Hevs].
  destruct (step_stale ev w Hev H Ht) as (Q & K & C & M & T).
  destruct (IH (step ev w) Hevs Q K) as (Q' & K' & C' & M' & T').
  change (exec (ev :: evs) w) with (exec evs (step ev w)).
  split; [exact Q'|]. split; [exact K'|]. repeat split; congruence.
Qed.

Lemma fresh_not_animating w : fresh w -> animating w = false.
Proof.
  intros H. unfold animating. apply not_true_iff_false. intros E.
  apply existsb_exists in E. destruct E as [c [Hc Ht]].
  pose proof (fresh_idle w H) as Hi. rewrite Forall_forall in Hi.
  rewrite (Hi c Hc) in Ht. discriminate.
Qed.

Lemma fresh_no_label_pending w : fresh w -> no_label_pending w.
Proof.
  unfold fresh, no_label_pending, quiet. intros H.
  eapply Forall_impl; [|exact H]. intros c (_ & -> & ->). reflexivity.
Qed.

(** C10 (amended).  On a page at rest, a click on the collapse-all button
    that finds every block already in the state the stored mode calls for
    starts no animation and leaves the stored mode and the label as they
    are.  When the stored mode is not "expanded" (the click asks to expand
    and every block is expanded already) the click leaves the page exactly
    as it was, without any handler registered: whatever happens afterwards,
    short of another click on the button, the mode and the label stay, the
    click handler stays bound, and the next click dispatches [expand]
    again. *)
Theorem noop_click_leaves_button_stale w :
  click_bound w = true -> timers w = 0 -> fresh w ->
  Forall (fun c => panel_collapse c = true ->
                   el_phase c = (if String.eqb (btn_mode w) "expanded"
                                 then Hidden else Shown))
         (panels w) ->
  map el_phase (panels (exec [ClickToggleAll; Timeout] w))
  = map el_phase (panels w)
  /\ animating (exec [ClickToggleAll; Timeout] w) = false
  /\ btn_mode (exec [ClickToggleAll; Timeout] w) = btn_mode w
  /\ btn_text (exec [ClickToggleAll; Timeout] w) = btn_text w
  /\ (String.eqb (btn_mode w) "expanded" = false ->
      exec [ClickToggleAll; Timeout] w = w
      /\ (forall evs,
            forallb not_button_click evs = true ->
            btn_mode (exec evs w) = btn_mode w
            /\ btn_text (exec evs w) = btn_text w
            /\ click_bound (exec evs w) = true
            /\ timers (exec evs w) = 0
            /\ onClick (exec evs w) = expand (exec evs w))).
Proof.
  intros Hb Ht Hf Htar.
  assert (E : step ClickToggleAll w
              = with_timers 1 (with_click_bound false w)).
  { cbn [step]. rewrite Hb. cbn. now rewrite Ht. }
  destruct (noop_dispatch (step ClickToggleAll w) 0)
    as (Hp & Ha & Hm & Hx & _).
  { now rewrite E. }
  { rewrite E. now apply fresh_not_animating. }
  { rewrite E. exact Htar. }
  assert (P1 : panels (step ClickToggleAll w) = panels w) by now rewrite E.
  assert (P2 : btn_mode (step ClickToggleAll w) = btn_mode w) by now rewrite E.
  assert (P3 : btn_text (step ClickToggleAll w) = btn_text w) by now rewrite E.
  rewrite P1 in Hp. rewrite P2 in Hm. rewrite P3 in Hx.
  change (exec [ClickToggleAll; Timeout] w)
    with (step Timeout (step ClickToggleAll w)).
  split; [exact Hp|]. split; [exact Ha|]. split; [exact Hm|].
  split; [exact Hx|].
  intros Hmode. split.
  - change (step Timeout (step ClickToggleAll w))
      with (exec [ClickToggleAll; Timeout] w).
    rewrite (click_then_dispatch w Hb Ht).
    set (v := with_timers 0 (with_timers 1 (with_click_bound false w))).
    assert (Hcalls : onClick v = []).
    { unfold onClick. change (btn_mode v) with (btn_mode w). rewrite Hmode.
      unfold expand, collapsableSelector_not_in.
      change (panels v) with (panels w).
      rewrite positions_none; [reflexivity|].
      eapply Forall_impl; [|exact Htar]. intros c Hc. cbn beta.
      rewrite Hmode in Hc.
      destruct (panel_collapse c); [|reflexivity].
      now rewrite (Hc eq_refl). }
    rewrite Hcalls. subst v. destruct w. cbn in Hb, Ht. subst. reflexivity.
  - intros evs Hevs.
    destruct (exec_stale evs w Hevs (fresh_no_label_pending w Hf) Ht)
      as (_ & K & C & M & T).
    split; [exact M|]. split; [exact T|]. split; [congruence|].
    split; [exact K|]. unfold onClick. now rewrite M, Hmode.
Qed.

Lemma noop_click_leaves_button_stale_witness :
  map el_phase (panels (exec [ClickToggleAll; Timeout] all_open_mode_collapsed))
  = map el_phase (panels all_open_mode_collapsed)
  /\ animating (exec [ClickToggleAll; Timeout] all_open_mode_collapsed) = false
  /\ btn_mode (exec [ClickToggleAll; Timeout] all_open_mode_collapsed)
     = btn_mode all_open_mode_collapsed
  /\ btn_text (exec [ClickToggleAll; Timeout] all_open_mode_collapsed)
     = btn_text all_open_mode_collapsed
  /\ (String.eqb (btn_mode all_open_mode_collapsed) "expanded" = false ->
      exec [ClickToggleAll; Timeout] all_open_mode_collapsed
      = all_open_mode_collapsed
      /\ (forall evs,
            forallb not_button_click evs = true ->
            btn_mode (exec evs all_open_mode_collapsed)
            = btn_mode all_open_mode_collapsed
            /\ btn_text (exec evs all_open_mode_collapsed)
               = btn_text all_open_mode_collapsed
            /\ click_bound (exec evs all_open_mode_collapsed) = true
            /\ timers (exec evs all_open_mode_collapsed) = 0
            /\ onClick (exec evs all_open_mode_collapsed)
               = expand (exec evs all_open_mode_collapsed))).
Proof.
  apply (noop_click_leaves_button_stale all_open_mode_collapsed).
  - reflexivity.
  - reflexivity.
  - repeat constructor.
  - repeat constructor.
Defined.

(** In the other direction the claim fails.  Mode "expanded", both blocks
    collapsed: the click starts no animation and the button stays, but the
    dispatch has left its one-shot handler on every block.  When the user
    then opens the first block by its heading and closes it again, the
    handler runs: the mode becomes "collapsed" and the label "Expand all"
    without any click on the button, and the next click dispatches [expand],
    not [collapse] again. *)
Lemma stale_handler_flips_button_later :
  let w := all_closed_mode_expanded in
  let w1 := exec [ClickToggleAll; Timeout] w in
  let w2 := exec [ClickHeading 0; AnimationEnd 0; ClickHeading 0; AnimationEnd 0]
                 w1 in
  (click_bound w = true /\ timers w = 0 /\ fresh w)
  /\ (btn_mode w = "expanded"
      /\ phase_of 0 w = Some Hidden /\ phase_of 1 w = Some Hidden)
  /\ (map el_phase (panels w1) = map el_phase (panels w)
      /\ animating w1 = false
      /\ btn_mode w1 = "expanded" /\ btn_text w1 = "Collapse all"
      /\ onClick w1 = collapse w1)
  /\ (btn_mode w2 = "collapsed" /\ btn_text w2 = "Expand all"
      /\ phase_of 0 w2 = Some Hidden /\ phase_of 1 w2 = Some Hidden
      /\ onClick w2 = expand w2).
Proof.
  intros w w1 w2.
  split; [split; [reflexivity|split; [reflexivity|repeat constructor]]|].
  split; [repeat split|]. split; [repeat split|]. repeat split.
Qed.

End CollapseBehaviour.

(* ================================================================== *)
(** ** Behaviour of the height fix *)
(* ================================================================== *)

Section BokehFixFacts.
Import BokehFix.

Lemma Bokeh_step ev pg : Bokeh (step ev pg) = Bokeh pg.
Proof. reflexivity. Qed.

Lemma Bokeh_exec evs : forall pg, Bokeh (exec evs pg) = Bokeh pg.
Proof.
  induction evs as [|ev evs IH]; intros pg; [reflexivity|].
  change (exec (ev :: evs) pg) with (exec evs (step ev pg)).
  now rewrite IH.
Qed.

Lemma Bokeh_initFix pg : Bokeh (initFix pg) = Bokeh pg.
Proof.
  unfold initFix. destruct (Bokeh pg) as [v|] eqn:E; [|reflexivity].
  now destruct (negb _).
Qed.

Lemma nth_error_step ev pg k :
  nth_error (plotResults (step ev pg)) k
  = if target ev =? k
    then option_map (on_plot (Bokeh pg) ev) (nth_error (plotResults pg) k)
    else nth_error (plotResults pg) k.
Proof. unfold step. cbn [plotResults]. apply nth_error_update_nth. Qed.

Lemma Forall2_update_nth_r {A B : Type} (R : A -> B -> Prop) (f : B -> B) :
  (forall a b, R a b -> R a (f b)) ->
  forall l l' i, Forall2 R l l' ->
                 Forall2 R l (Collapse.update_nth i f l').
Proof.
  intros Hf l l' i H. revert i.
  induction H as [|a b l l' Hab Hl IH]; intros [|i];
    cbn [Collapse.update_nth]; constructor; auto.
Qed.

Lemma Forall2_map_in {A B : Type} (R : A -> B -> Prop) (f : A -> B) l :
  (forall a, In a l -> R a (f a)) -> Forall2 R l (map f l).
Proof.
  induction l as [|x l IH]; intros H; cbn [map]; constructor.
  - apply H. now left.
  - apply IH. intros a Ha. apply H. now right.
Qed.

Lemma on_plot_fix_state bokeh ev p0 p :
  fix_state bokeh p0 p -> fix_state bokeh p0 (on_plot bokeh ev p).
Proof.
  intros H. destruct ev as [i|i|i hs]; cbn [on_plot].
  - destruct (intervalId p) eqn:Ei; [|assumption].
    unfold checkCanvas. destruct (plot_heights p) as [|h hs]; [assumption|].
    destruct (Nat.eqb_spec h 0) as [|Hh]; [assumption|].
    destruct H as [[Hc Hk]|(Hc & Hi & _)]; [|congruence].
    right. cbn [fix_calls intervalId container_heights].
    split; [now rewrite Hc|]. split; [reflexivity|].
    exists h. split; [lia|]. unfold onCanvasRendered. now rewrite Hk.
  - destruct (deadline p); [|assumption].
    destruct H as [[Hc Hk]|(Hc & Hi & Hh)]; [left|right]; now cbn.
  - destruct H as [[Hc Hk]|(Hc & Hi & Hh)]; [left|right]; now cbn.
Qed.

(** X11. However the interval ticks, the timeout and the redraws of the
    plots interleave after [initFix], [onCanvasRendered] is called at most
    once for each plot; a plot either was never fixed and has its containers
    as loaded, or was fixed once, is no longer polled, and has its
    containers as [onCanvasRendered] sets them for one non-zero height. *)
Theorem fix_applied_at_most_once pg evs :
  Forall (fun p => fix_calls p = 0) (plotResults pg) ->
  Forall2 (fix_state (Bokeh pg))
          (plotResults pg) (plotResults (exec evs (initFix pg))).
Proof.
  intros H0.
  assert (Hinit : Forall2 (fix_state (Bokeh pg))
                          (plotResults pg) (plotResults (initFix pg))).
  { unfold initFix.
    assert (Hmap : Forall2 (fix_state (Bokeh pg)) (plotResults pg)
                           (map checkCanvasRendering (plotResults pg))).
    { apply Forall2_map_in. intros p Hp. rewrite Forall_forall in H0.
      left. split; [exact (H0 p Hp)|reflexivity]. }
    assert (Hsame : Forall2 (fix_state (Bokeh pg)) (plotResults pg)
                            (plotResults pg)).
    { rewrite <- (map_id (plotResults pg)) at 2.
      apply Forall2_map_in. intros p Hp. rewrite Forall_forall in H0.
      left. split; [exact (H0 p Hp)|reflexivity]. }
    destruct (Bokeh pg) as [v|]; [|exact Hmap].
    now destruct (negb _). }
  rewrite <- (Bokeh_initFix pg) in *.
  generalize dependent (initFix pg). intros q Hq.
  assert (Hgen : forall evs q', Bokeh q' = Bokeh q ->
            Forall2 (fix_state (Bokeh q)) (plotResults pg) (plotResults q') ->
            Forall2 (fix_state (Bokeh q)) (plotResults pg)
                    (plotResults (exec evs q'))).
  { clear. induction evs as [|ev evs IH]; intros q' Hb H; [exact H|].
    change (exec (ev :: evs) q') with (exec evs (step ev q')).
    apply IH; [now rewrite Bokeh_step|].
    unfold step. cbn [plotResults]. rewrite Hb.
    apply Forall2_update_nth_r; [|exact H].
    intros a b. apply on_plot_fix_state. }
  now apply Hgen.
Qed.

Lemma fix_applied_at_most_once_witness :
  let pg := mkBokehPage (Some "0.12.4") [mkPlot [] [400; 380] false false 0] in
  Forall2 (fix_state (Bokeh pg)) (plotResults pg)
          (plotResults (exec [Tick 0; Redraw 0 [300]; Tick 0; Redraw 0 [500];
                              Tick 0]
                             (initFix pg))).
Proof.
  apply (fix_applied_at_most_once
           (mkBokehPage (Some "0.12.4") [mkPlot [] [400; 380] false false 0])).
  repeat constructor.
Defined.

Lemma on_plot_stopped bokeh ev p :
  intervalId p = false ->
  intervalId (on_plot bokeh ev p) = false
  /\ container_heights (on_plot bokeh ev p) = container_heights p
  /\ fix_calls (on_plot bokeh ev p) = fix_calls p.
Proof.
  intros H. destruct ev as [i|i|i hs]; cbn [on_plot].
  - rewrite H. now split.
  - destruct (deadline p); now cbn.
  - now cbn.
Qed.

(** X12. A plot that is not being polled - because the timeout has fired or
    because it was fixed - keeps its container heights for good: no later
    tick, timeout or redraw changes them, and no further call of
    [onCanvasRendered] is made for it. *)
Theorem stopped_plot_is_frozen evs : forall pg i p,
  nth_error (plotResults pg) i = Some p ->
  intervalId p = false ->
  exists p',
    nth_error (plotResults (exec evs pg)) i = Some p'
    /\ intervalId p' = false
    /\ container_heights p' = container_heights p
    /\ fix_calls p' = fix_calls p.
Proof.
  induction evs as [|ev evs IH]; intros pg i p Hn Hi.
  - exists p. now repeat split.
  - change (exec (ev :: evs) pg) with (exec evs (step ev pg)).
    destruct (on_plot_stopped (Bokeh pg) ev p Hi) as (S1 & S2 & S3).
    destruct (target ev =? i) eqn:E.
    + destruct (IH (step ev pg) i (on_plot (Bokeh pg) ev p)) as (p' & H1 & H2 & H3 & H4).
      * now rewrite nth_error_step, E, Hn.
      * exact S1.
      * exists p'. repeat split; congruence.
    + apply (IH (step ev pg) i p); [|exact Hi].
      now rewrite nth_error_step, E.
Qed.

Lemma stopped_plot_is_frozen_witness :
  let pg := step (Deadline 0)
                 (initFix (mkBokehPage (Some "0.12.4")
                                       [mkPlot [] [400; 380] false false 0])) in
  exists p',
    nth_error (plotResults (exec [Redraw 0 [300]; Tick 0] pg)) 0 = Some p'
    /\ intervalId p' = false
    /\ container_heights p' = [400; 380]
    /\ fix_calls p' = 0.
Proof.
  apply (stopped_plot_is_frozen
           [Redraw 0 [300]; Tick 0]
           (step (Deadline 0)
                 (initFix (mkBokehPage (Some "0.12.4")
                                       [mkPlot [] [400; 380] false false 0])))
           0 (mkPlot [] [400; 380] false false 0)); reflexivity.
Defined.

Lemma lookup_supported version :
  version <> "0.12.4" -> lookup version containerSelector = None.
Proof.
  intros H. unfold containerSelector. cbn [lookup].
  destruct (String.eqb_spec "0.12.4" version) as [E|]; [|reflexivity].
  now elim H.
Qed.

Lemma on_plot_unsupported bokeh ev p :
  bokeh <> Some "0.12.4" ->
  container_heights (on_plot bokeh ev p) = container_heights p.
Proof.
  intros H. destruct ev as [i|i|i hs]; cbn [on_plot].
  - destruct (intervalId p); [|reflexivity]. unfold checkCanvas.
    destruct (plot_heights p) as [|h hs]; [reflexivity|].
    destruct (h =? 0); [reflexivity|]. cbn [container_heights].
    unfold onCanvasRendered. destruct bokeh as [v|]; [|reflexivity].
    rewrite lookup_supported; [reflexivity|]. congruence.
  - now destruct (deadline p).
  - reflexivity.
Qed.

Lemma exec_unsupported evs : forall q,
  Bokeh q <> Some "0.12.4" ->
  map container_heights (plotResults (exec evs q))
  = map container_heights (plotResults q).
Proof.
  induction evs as [|ev evs IH]; intros q Hq; [reflexivity|].
  change (exec (ev :: evs) q) with (exec evs (step ev q)).
  rewrite IH by (now rewrite Bokeh_step).
  unfold step. cbn [plotResults].
  apply nth_error_ext_map. intros k. rewrite nth_error_update_nth.
  destruct (target ev =? k); [|reflexivity].
  destruct (nth_error (plotResults q) k) as [p|]; [|reflexivity].
  cbn [option_map]. f_equal. now apply on_plot_unsupported.
Qed.

(** X13. Only version 0.12.4 is served: with any other version, and also
    with a falsy [Bokeh], no container height is ever changed, whatever is
    drawn and however long the page lives. *)
Theorem other_versions_are_left_alone pg evs :
  Bokeh pg <> Some "0.12.4" ->
  map container_heights (plotResults (exec evs (initFix pg)))
  = map container_heights (plotResults pg).
Proof.
  intros H.
  rewrite exec_unsupported by (now rewrite Bokeh_initFix).
  unfold initFix.
  assert (E : map container_heights (map checkCanvasRendering (plotResults pg))
              = map container_heights (plotResults pg))
    by (rewrite map_map; now apply map_ext).
  destruct (Bokeh pg) as [v|]; [|exact E]. now destruct (negb _).
Qed.

Lemma other_versions_are_left_alone_witness :
  let pg := mkBokehPage (Some "0.13.0") [mkPlot [] [400; 380] false false 0] in
  map container_heights
      (plotResults (exec [Redraw 0 [300]; Tick 0] (initFix pg)))
  = map container_heights (plotResults pg).
Proof.
  apply (other_versions_are_left_alone
           (mkBokehPage (Some "0.13.0") [mkPlot [] [400; 380] false false 0])
           [Redraw 0 [300]; Tick 0]).
  discriminate.
Defined.

Lemma nth_error_initFix_supported pg i p :
  Bokeh pg = Some "0.12.4" ->
  nth_error (plotResults pg) i = Some p ->
  nth_error (plotResults (initFix pg)) i = Some (checkCanvasRendering p).
Proof.
  intros Hb Hn. unfold initFix. rewrite Hb.
  change (negb (existsb (String.eqb "0.12.4") keys)) with false.
  cbn [plotResults]. now rewrite nth_error_map, Hn.
Qed.

(** Ticks do nothing to a plot in which no element with a non-zero height
    is found. *)
Lemma ticks_on_undrawn_plot ticks : forall q i p,
  nth_error (plotResults q) i = Some p ->
  (plot_heights p = [] \/ exists hs0, plot_heights p = 0 :: hs0) ->
  nth_error (plotResults (exec (map Tick ticks) q)) i = Some p.
Proof.
  induction ticks as [|k ticks IH]; intros q i p Hn Hu; [exact Hn|].
  cbn [map]. change (exec (Tick k :: map Tick ticks) q)
    with (exec (map Tick ticks) (step (Tick k) q)).
  apply IH; [|exact Hu]. rewrite nth_error_step. cbn [target].
  destruct (k =? i); [|exact Hn]. rewrite Hn. cbn [option_map on_plot].
  f_equal. destruct (intervalId p); [|reflexivity]. unfold checkCanvas.
  destruct Hu as [-> | [hs0 ->]]; reflexivity.
Qed.

(** X14. With version 0.12.4, a plot that is not drawn when the page loads
    is polled, without effect, for as many ticks as it takes; at the first
    tick after an element with non-zero height [h] has appeared in it (the
    timeout not having fired), every container of the plot gets height [h],
    the polling stops, and [onCanvasRendered] has been called once more. *)
Theorem drawn_plot_gets_its_height pg i p ticks h hs :
  Bokeh pg = Some "0.12.4" ->
  nth_error (plotResults pg) i = Some p ->
  (plot_heights p = [] \/ exists hs0, plot_heights p = 0 :: hs0) ->
  0 < h ->
  exists p',
    nth_error (plotResults
                 (exec (map Tick ticks ++ [Redraw i (h :: hs); Tick i])
                       (initFix pg))) i = Some p'
    /\ container_heights p' = map (fun _ => h) (container_heights p)
    /\ intervalId p' = false
    /\ fix_calls p' = S (fix_calls p).
Proof.
  intros Hb Hn Hu Hh.
  pose proof (nth_error_initFix_supported pg i p Hb Hn) as H1.
  pose proof (ticks_on_undrawn_plot ticks (initFix pg) i
                (checkCanvasRendering p) H1 Hu) as H2.
  unfold exec. rewrite fold_left_app. fold (exec (map Tick ticks) (initFix pg)).
  set (q := exec (map Tick ticks) (initFix pg)) in *.
  assert (Hq : Bokeh q = Some "0.12.4")
    by (subst q; now rewrite Bokeh_exec, Bokeh_initFix).
  cbn [fold_left].
  eexists. split.
  - rewrite nth_error_step. cbn [target]. rewrite Nat.eqb_refl.
    rewrite nth_error_step. cbn [target]. rewrite Nat.eqb_refl, H2.
    cbn [option_map]. reflexivity.
  - rewrite Bokeh_step, Hq. cbn [on_plot checkCanvasRendering intervalId].
    unfold checkCanvas. cbn [plot_heights].
    destruct (Nat.eqb_spec h 0) as [|_]; [lia|].
    cbn [container_heights intervalId fix_calls].
    repeat split.
Qed.

Lemma drawn_plot_gets_its_height_witness :
  let pg := mkBokehPage (Some "0.12.4")
                        [mkPlot [] [400; 380] false false 0;
                         mkPlot [0] [200] false false 0] in
  exists p',
    nth_error (plotResults
                 (exec (map Tick [0; 1; 1; 0] ++ [Redraw 1 [250; 10]; Tick 1])
                       (initFix pg))) 1 = Some p'
    /\ container_heights p' = map (fun _ => 250) [200]
    /\ intervalId p' = false
    /\ fix_calls p' = 1.
Proof.
  apply (drawn_plot_gets_its_height
           (mkBokehPage (Some "0.12.4")
                        [mkPlot [] [400; 380] false false 0;
                         mkPlot [0] [200] false false 0])
           1 (mkPlot [0] [200] false false 0) [0; 1; 1; 0] 250 [10]).
  - reflexivity.
  - reflexivity.
  - right. now exists [].
  - lia.
Defined.

End BokehFixFacts.

(* ================================================================== *)
(** ** The rendered page under the tag filter *)
(* ================================================================== *)

Section TemplateFacts.
Import Filter Template.

#[local] Arguments matches : simpl never.
#[local] Arguments tagged_by : simpl never.

Lemma tagfilter_buttons_active tagids tags :
  Forall (fun b => active b = true) (tagfilter_buttons tagids tags).
Proof.
  unfold tagfilter_buttons. apply Forall_app.
  split; apply Forall_forall; intros b Hb; apply in_map_iff in Hb;
    now destruct Hb as [t [<- _]].
Qed.

Lemma tagfilter_buttons_length tagids tags :
  4 <= List.length (tagfilter_buttons tagids tags).
Proof.
  unfold tagfilter_buttons. rewrite length_app, !length_map.
  cbn [fixed_tags List.length]. lia.
Qed.

(** On a page without toggle buttons the queue never empties. *)
Lemma no_buttons_stay_queued evs : forall p,
  buttons p = [] -> timers p <> 0 ->
  buttons (exec evs p) = [] /\ timers (exec evs p) <> 0.
Proof.
  induction evs as [|e evs IH]; intros p Hb Ht; [now split|].
  change (exec (e :: evs) p) with (exec evs (step e p)).
  assert (Hs : forall k, updateContent (mkPage (buttons p) (blocks p)
                   (numToggleButtons p) (numActiveToggleButtons p) k)
               = mkPage [] (blocks p) (numToggleButtons p)
                        (numActiveToggleButtons p) (S k)).
  { intros k. unfold updateContent, special_case, activeToggleButtons,
      inactiveToggleButtons, allToggleButtons. cbn [buttons].
    rewrite Hb. reflexivity. }
  destruct e as [i| |]; cbn [step].
  - rewrite Hb. cbn [List.length]. change (i <? 0) with false. cbn iota.
    now apply IH.
  - apply IH; cbn [buttons timers]; [now rewrite Hb|discriminate].
  - destruct (timers p) as [|k]; [contradiction|].
    rewrite Hs. apply IH; cbn [buttons timers]; [reflexivity|discriminate].
Qed.

(** X15. What the template renders decides whether the reconciliation comes
    to rest.  The overview ([current.blockindex] none) has a filter bar with
    at least four toggle buttons, all active: the reconciliation run at load
    queues nothing and records the full count, under no sequence of clicks
    and callbacks does the page reach the configuration in which the
    reconciliation reschedules itself forever, and the queued passes always
    run out.  The page of a single block has no filter bar and so no toggle
    button: there the reconciliation run at load queues itself, and after
    any sequence of events no number of passes empties the queue. *)
Theorem filter_bar_decides_reconciliation tagids tags sections evs :
  (4 <= List.length (buttons (rendered None tagids tags sections))
   /\ Forall (fun b => active b = true)
             (buttons (rendered None tagids tags sections))
   /\ timers (addEventHandler (rendered None tagids tags sections)) = 0
   /\ numActiveToggleButtons (addEventHandler (rendered None tagids tags sections))
      = List.length (buttons (rendered None tagids tags sections))
   /\ ~ two_cycle (exec evs (addEventHandler (rendered None tagids tags sections)))
   /\ exists p',
        drain (S (timers (exec evs (addEventHandler
                                      (rendered None tagids tags sections)))))
              (exec evs (addEventHandler (rendered None tagids tags sections)))
        = Some p'
        /\ timers p' = 0)
  /\ (forall i,
        buttons (rendered (Some i) tagids tags sections) = []
        /\ timers (addEventHandler (rendered (Some i) tagids tags sections)) = 1
        /\ forall fuel,
             drain fuel (exec evs (addEventHandler
                                     (rendered (Some i) tagids tags sections)))
             = None).
Proof.
  split.
  - set (p := rendered None tagids tags sections).
    assert (Hlen : 4 <= List.length (buttons p))
      by apply tagfilter_buttons_length.
    assert (Hall : Forall (fun b => active b = true) (buttons p))
      by apply tagfilter_buttons_active.
    split; [exact Hlen|]. split; [exact Hall|].
    assert (Hs : special_case
                   (mkPage (buttons p) (Filter.blocks p)
                           (List.length (allToggleButtons p))
                           (List.length (activeToggleButtons p)) (timers p))
                 = false)
      by (apply all_active_normal; [cbn [buttons]; lia|exact Hall]).
    split; [unfold addEventHandler, updateContent; now rewrite Hs|].
    split.
    { unfold addEventHandler, updateContent. rewrite Hs.
      cbn [numActiveToggleButtons]. unfold activeToggleButtons. cbn [buttons].
      now apply all_active_count. }
    split.
    { intros (H2 & _). rewrite exec_length, addEventHandler_length in H2. lia. }
    apply drain_after_events; lia.
  - intros i. split; [reflexivity|]. split; [reflexivity|].
    intros fuel.
    destruct (no_buttons_stay_queued evs
                (addEventHandler (rendered (Some i) tagids tags sections)))
      as [Hb Ht]; [reflexivity|discriminate|].
    now apply no_buttons_loops.
Qed.

(** *** Marker classes in the class attribute *)

Lemma append_empty_r s : (s ++ "")%string = s.
Proof. induction s as [|c s IH]; cbn [append]; [reflexivity|now rewrite IH]. Qed.

Lemma append_associative a b c :
  ((a ++ b) ++ c)%string = (a ++ (b ++ c))%string.
Proof. induction a as [|x a IH]; cbn [append]; [reflexivity|now rewrite IH]. Qed.

Lemma name_char_not_space c : name_char c = true -> is_space c = false.
Proof.
  destruct c as [[] [] [] [] [] [] [] []]; intros H;
    vm_compute in H |- *; congruence.
Qed.

(** Reading a name that is followed by a blank. *)
Lemma class_tokens_name w : forall tok post,
  css_name w = true ->
  class_tokens tok (w ++ String " "%char post)
  = (if String.eqb (tok ++ w) "" then [] else [(tok ++ w)%string])
    ++ class_tokens "" post.
Proof.
  induction w as [|c w IH]; intros tok post H.
  - cbn [append class_tokens]. change (is_space " "%char) with true.
    cbn iota. now rewrite append_empty_r.
  - cbn [css_name] in H. apply andb_true_iff in H. destruct H as [Hc Hw].
    cbn [append class_tokens]. rewrite (name_char_not_space c Hc).
    rewrite IH by assumption. rewrite append_associative. reflexivity.
Qed.

(** A name between two blanks is one of the classes. *)
Lemma class_tokens_contain w :
  css_name w = true -> w <> "" ->
  forall pre tok post,
    In w (class_tokens tok (pre ++ String " "%char (w ++ String " "%char post))).
Proof.
  intros Hw Hne. induction pre as [|c pre IH]; intros tok post.
  - cbn [append class_tokens]. change (is_space " "%char) with true.
    cbn iota. apply in_or_app. right. rewrite class_tokens_name by assumption.
    cbn [append]. destruct (String.eqb w "") eqn:E.
    + apply String.eqb_eq in E. contradiction.
    + now left.
  - cbn [append class_tokens]. destruct (is_space c).
    + apply in_or_app. right. apply IH.
    + apply IH.
Qed.

Lemma print_tags_split tagids t l :
  In t l ->
  exists pre post,
    print_tags tagids l
    = (pre ++ String " "%char (marker (tagids t) ++ String " "%char post))%string.
Proof.
  induction l as [|x l IH]; intros H; [contradiction|].
  destruct H as [->|H].
  - exists "", (print_tags tagids l). reflexivity.
  - destruct (IH H) as (pre & post & E).
    exists (String " "%char (marker (tagids x) ++ String " "%char pre)), post.
    cbn [print_tags append]. rewrite E. f_equal.
    now rewrite append_associative.
Qed.

Lemma marker_in_display_block tagids blockwidth block_tags t :
  css_name (tagids t) = true -> In t block_tags ->
  In (marker (tagids t))
     (classes (display_block tagids blockwidth block_tags)).
Proof.
  intros Hn Hin. unfold display_block, element, class_list. cbn [classes].
  destruct (print_tags_split tagids t block_tags Hin) as (pre & post & E).
  rewrite E. rewrite <- !append_associative.
  apply class_tokens_contain.
  - now rewrite css_name_marker.
  - unfold marker. cbn [append]. discriminate.
Qed.

Lemma not_user_tag_is_fixed t : is_user_tag t = false -> In t fixed_tags.
Proof.
  unfold is_user_tag. intros H. apply negb_false_iff in H.
  apply existsb_exists in H. destruct H as [x [Hx E]].
  apply String.eqb_eq in E. subst x. unfold fixed_tags.
  cbn [In] in *. tauto.
Qed.

(** X16. The markers the template writes and the selectors the filter
    builds agree for a tag whose id is a name: a rendered block that lists
    such a tag, the tag being one of the four fixed tags or an entry of
    [tags.tags], has the marker class of the tag among the classes the
    browser reads from its class attribute, whatever the ids of its other
    tags, and the selector the script builds from the toggle button rendered
    for that tag selects the block. *)
Theorem rendered_block_is_tracked tagids tags blockwidth block_tags t :
  css_name (tagids t) = true ->
  In t block_tags ->
  In t fixed_tags \/ In t tags ->
  exists btn,
    In btn (tagfilter_buttons tagids tags)
    /\ data_type btn = tagids t
    /\ In (marker (tagids t))
          (classes (display_block tagids blockwidth block_tags))
    /\ matches (glanceTag ++ data_type btn)
               (display_block tagids blockwidth block_tags) = true.
Proof.
  intros Hn Hb Ht. exists (toggle_button tagids t).
  pose proof (marker_in_display_block tagids blockwidth block_tags t Hn Hb)
    as Hm.
  split; [|split; [reflexivity|split; [exact Hm|]]].
  - unfold tagfilter_buttons. apply in_or_app.
    assert (Hfix : In t fixed_tags -> In (toggle_button tagids t)
                     (map (toggle_button tagids) fixed_tags))
      by (now apply in_map).
    destruct Ht as [Ht|Ht]; [left; now apply Hfix|].
    destruct (is_user_tag t) eqn:E.
    + right. apply in_map. apply filter_In. now split.
    + left. apply Hfix. now apply not_user_tag_is_fixed.
  - change (matches (glanceTag ++ data_type (toggle_button tagids t)) ?b)
      with (tagged_by (toggle_button tagids t) b).
    rewrite tagged_by_has_marker by exact Hn.
    unfold has_marker. apply existsb_exists.
    exists (marker (tagids t)). split; [exact Hm|apply String.eqb_refl].
Qed.

Lemma rendered_block_is_tracked_witness :
  let tagids := fun t => if String.eqb t "No Tag" then "0"
                         else if String.eqb t "Good" then "1" else "7" in
  exists btn,
    In btn (tagfilter_buttons tagids ["Good"; "customx"])
    /\ data_type btn = "7"
    /\ In (marker "7")
          (classes (display_block tagids "col-md-12" ["No Tag"; "customx"]))
    /\ matches (glanceTag ++ data_type btn)
               (display_block tagids "col-md-12" ["No Tag"; "customx"]) = true.
Proof.
  apply (rendered_block_is_tracked
           (fun t => if String.eqb t "No Tag" then "0"
                     else if String.eqb t "Good" then "1" else "7")
           ["Good"; "customx"] "col-md-12" ["No Tag"; "customx"] "customx").
  - reflexivity.
  - right. left. reflexivity.
  - right. right. left. reflexivity.
Defined.

End TemplateFacts.
